(** * ReadoutCard: the experimental CRU DMA readout loop and the CRU data format

    A shallow embedding of
    - [src/CommandLineUtilities/ProgramCruExperimentalDma.cxx]
      (class [ProgramCruExperimentalDma]: queue filling, page readout,
      pattern checking, acknowledgment, low priority tasks, FIFO set-up), and
    - [src/Cru/DataFormat.h] (header field decoders),
    followed by the properties of the readout engine checked against them.

    Conventions.
    - C++ integers are [Z]; unsigned conversions are written with [wrap32]
      and [wrap64].  The signed 64-bit run counters only ever count up from
      zero, one page at a time; signed overflow is undefined in C++ and no
      wrap is written for them.
    - The program object is the record [Program]; member functions that can
      throw live in the monad [M] (state plus exception, the state at the throw
      is kept); member functions that cannot throw are plain functions on
      [Program].
    - What the program does to the outside world (register writes, file
      output, console messages) is appended to the [trace] field, in program
      order.
    - Everything outside the main thread (the card, the temperature monitor,
      the signal handler, the clock) reaches the loop through one [Env] record
      per loop iteration. *)

From Stdlib Require Import ZArith List Bool Lia.
From Stdlib.Strings Require Import Byte.
From stdpp Require Import base tactics option list numbers.
Import ListNotations.

Local Open Scope Z_scope.

(** ** Machine integers *)

Definition wrap32 (x : Z) : Z := x mod 2 ^ 32.
Definition wrap64 (x : Z) : Z := x mod 2 ^ 64.

(** * Cru/DataFormat.h *)

Module Utilities.

(** Modelled from the spec: [Utilities::getBits] is declared in
    [Utilities/Util.h], which is not among the sources.  The spec reads
    [getBits(w, lsb, msb)] as the bit field of [w] from bit [lsb] up to and
    including bit [msb] ("bits 0-7 of word 3", "bits 16-31 of word 2"), as an
    unsigned 32-bit value. *)
Definition getBits (x : Z) (lsb msb : Z) : Z :=
  Z.land (Z.shiftr (wrap32 x) lsb) (Z.ones (msb - lsb + 1)).

End Utilities.

Module DataFormat.

(** [const char* data]: the raw bytes of a page. *)
Definition byteAt (data : list byte) (k : nat) : Z :=
  Z.of_N (Byte.to_N (default x00 (data !! k))).

(** [getWord]: a [memcpy] of four bytes at byte offset [sizeof(word) * i] into
    a [uint32_t]; on the little-endian hosts the card is used with, the byte
    at the lowest address is the least significant. *)
Definition getWord (data : list byte) (i : nat) : Z :=
  Z.lor (byteAt data (4 * i + 0))
    (Z.lor (Z.shiftl (byteAt data (4 * i + 1)) 8)
       (Z.lor (Z.shiftl (byteAt data (4 * i + 2)) 16)
          (Z.shiftl (byteAt data (4 * i + 3)) 24))).


Definition getEventSize (data : list byte) : Z :=
  Utilities.getBits (getWord data 2) 16 31.


Definition getHeaderSize : Z := 0x40.

Definition getHeaderSizeWords : Z := 2.

End DataFormat.

(** * ProgramCruExperimentalDma.cxx *)

(** ** Constants *)

Definition MAX_RECORDED_ERRORS : Z := 1000.
Definition DMA_ALIGNMENT : Z := 32.
Definition DMA_PAGE_SIZE : Z := 8 * 1024.
Definition DMA_PAGE_SIZE_32 : Z := DMA_PAGE_SIZE / 4.
Definition NUM_OF_BUFFERS : Z := 32.
Definition FIFO_ENTRIES : Z := 4.
Definition NUM_PAGES : Z := FIFO_ENTRIES * NUM_OF_BUFFERS.
Definition BUFFER_DEFAULT_VALUE : Z := 0xCcccCccc.
Definition HANDLING_SIGINT_TIMEOUT : Z := 10.
Definition PAGES_DEFAULT : Z := 1500.
Definition PATTERN_STRIDE : Z := 8.
Definition LOW_PRIORITY_INTERVAL : Z := 10000.

(** ** Data *)

(** [GeneratorPattern::type].  Its header
    ([ReadoutCard/ParameterTypes/GeneratorPattern.h]) is not among the
    sources; the enumerators are the ones the sources name: [Incremental],
    [Alternating], [Constant] and [Unknown] in the program, the others in
    [RORC/ChannelParameters.h]. *)
Inductive GeneratorPattern : Type :=
  | Unknown | Constant | Alternating | Flying0 | Flying1
  | Incremental | Decremental | Random.

(** [struct Handle]. *)
Record Handle : Type := mkHandle {
  descriptorIndex : Z;  (* index for the CRU DMA descriptor table *)
  pageIndex : Z         (* index for mPageAddresses *)
}.

(** [PageAddress]: the two addresses of one page of the DMA buffer. *)
Record PageAddress : Type := mkPageAddress {
  user : Z;
  bus : Z
}.

(** One entry of the descriptor table, as [setDescriptor] fills it in. *)
Record Descriptor : Type := mkDescriptor {
  dLength : Z;
  dSource : Z;
  dDestination : Z
}.

(** One page of the buffer: [DMA_PAGE_SIZE_32] 32-bit words. *)
Definition PageBuffer : Type := list Z.

(** [struct Options], the fields the readout engine reads, and [isVerbose()]
    of the [Program] base class.  The random pause and idle counter options
    only sleep, or read and write card registers; they touch no member that
    is modelled and are left out. *)
Record Options : Type := mkOptions {
  maxPages : Z;
  fileOutputAscii : bool;
  fileOutputBin : bool;
  resyncCounter : bool;
  legacyAck : bool;
  generatorPattern : GeneratorPattern;
  checkError : bool;
  isVerbose : bool
}.

(** A line of [mErrorStream]. *)
Record ErrorLine : Type := mkErrorLine {
  errEvent : Z;
  errPage : Z;
  errOffset : Z;
  errExpected : Z;
  errActual : Z
}.

(** Console messages that tell the ways out of the loop apart. *)
Inductive Message : Type :=
  | MsgMaximumPagesReached
  | MsgAbortMaxTemperature
  | MsgInterrupted
  | MsgInterruptedDidNotFinish.

(** What the program does, in program order. *)
Inductive Event : Type :=
  | EvPush (h : Handle)                    (* mQueue.push in pushPage *)
  | EvPrintToFile (ascii : bool) (pageNumber : Z) (pageIdx : Z)
      (words : PageBuffer)                 (* printToFile *)
  | EvCheckErrors (eventNumber : Z) (h : Handle)   (* call of checkErrors *)
  | EvResetPage (pageIdx : Z)              (* resetPage in readoutPage *)
  | EvStatusReset (descriptorIdx : Z)      (* statusEntries[..].reset() *)
  | EvReadoutCounter (n : Z)               (* mReadoutCounter++, new value n *)
  | EvAcknowledge (n : Z)                  (* sendAcknowledge, mReadoutCounter = n *)
  | EvPop (h : Handle)                     (* mQueue.pop *)
  | EvMessage (m : Message)
  | EvErrorsFile (lines : list ErrorLine)  (* outputErrors *)
  | EvSummary (pages : Z) (errors : option Z).     (* outputStats *)

(** Exceptions thrown by the program. *)
Inductive Exception : Type :=
  | FileOutputBothAsciiAndBinary
  | InsufficientPages
  | FifoNotAligned
  | OutOfRange
  | UnrecognizedGeneratorPattern (p : GeneratorPattern).

(** Modelled from the spec: the accessor of the card's registers
    ([CruBarAccessor], returned by [getBar]) is not among the sources.  The
    spec takes it as an opaque capability to write registers: a call writes
    its register and returns.  These are the calls [initCard] makes, with
    their arguments. *)
Inductive BarCall : Type :=
  | SetFifoBusAddress (busAddress : Z)      (* setFifoBusAddress(mFifoAddress.bus) *)
  | SetFifoCardAddress                      (* setFifoCardAddress() *)
  | SetDescriptorTableSize                  (* setDescriptorTableSize() *)
  | SetDoneControl                          (* setDoneControl() *)
  | SetDataGeneratorPattern (p : GeneratorPattern).
                                            (* setDataGeneratorPattern(pattern) *)

(** The members of [ProgramCruExperimentalDma] the readout engine uses, the
    FIFO table the card shares with it ([statusEntries], [descriptorEntries]),
    the contents of the pages ([pageMemory], by page index) and the registers
    [initCard] has written ([barCalls], in program order). *)
Record Program : Type := Build_Program {
  opts : Options;
  mInfinitePages : bool;
  mPageAddresses : list PageAddress;
  mFifoAddress : PageAddress;
  statusEntries : list bool;
  descriptorEntries : list Descriptor;
  pageMemory : list PageBuffer;
  mPushCounter : Z;
  mReadoutCounter : Z;
  mDataGeneratorCounter : Z;
  mDescriptorCounter : Z;
  mPageIndexCounter : Z;
  mErrorCount : Z;
  mErrorStream : list ErrorLine;
  mDmaLoopBreak : bool;
  mHandlingSigint : bool;
  mHandlingSigintStart : Z;
  mPushEnabled : bool;
  mLowPriorityCounter : Z;
  mQueue : list Handle;
  mLastFillSize : Z;
  trace : list Event;
  barCalls : list BarCall
}.

(** Assignment to one member. *)

Definition set_mInfinitePages (v : bool) (s : Program) : Program :=
  Build_Program (opts s) v (mPageAddresses s) (mFifoAddress s) (statusEntries
    s) (descriptorEntries s) (pageMemory s) (mPushCounter s) (mReadoutCounter
    s) (mDataGeneratorCounter s) (mDescriptorCounter s) (mPageIndexCounter s)
    (mErrorCount s) (mErrorStream s) (mDmaLoopBreak s) (mHandlingSigint s)
    (mHandlingSigintStart s) (mPushEnabled s) (mLowPriorityCounter s) (mQueue
    s) (mLastFillSize s) (trace s) (barCalls s).

Definition set_mPageAddresses (v : list PageAddress) (s : Program) : Program :=
  Build_Program (opts s) (mInfinitePages s) v (mFifoAddress s) (statusEntries
    s) (descriptorEntries s) (pageMemory s) (mPushCounter s) (mReadoutCounter
    s) (mDataGeneratorCounter s) (mDescriptorCounter s) (mPageIndexCounter s)
    (mErrorCount s) (mErrorStream s) (mDmaLoopBreak s) (mHandlingSigint s)
    (mHandlingSigintStart s) (mPushEnabled s) (mLowPriorityCounter s) (mQueue
    s) (mLastFillSize s) (trace s) (barCalls s).

Definition set_mFifoAddress (v : PageAddress) (s : Program) : Program :=
  Build_Program (opts s) (mInfinitePages s) (mPageAddresses s) v
    (statusEntries s) (descriptorEntries s) (pageMemory s) (mPushCounter s)
    (mReadoutCounter s) (mDataGeneratorCounter s) (mDescriptorCounter s)
    (mPageIndexCounter s) (mErrorCount s) (mErrorStream s) (mDmaLoopBreak s)
    (mHandlingSigint s) (mHandlingSigintStart s) (mPushEnabled s)
    (mLowPriorityCounter s) (mQueue s) (mLastFillSize s) (trace s) (barCalls
    s).

Definition set_statusEntries (v : list bool) (s : Program) : Program :=
  Build_Program (opts s) (mInfinitePages s) (mPageAddresses s) (mFifoAddress
    s) v (descriptorEntries s) (pageMemory s) (mPushCounter s)
    (mReadoutCounter s) (mDataGeneratorCounter s) (mDescriptorCounter s)
    (mPageIndexCounter s) (mErrorCount s) (mErrorStream s) (mDmaLoopBreak s)
    (mHandlingSigint s) (mHandlingSigintStart s) (mPushEnabled s)
    (mLowPriorityCounter s) (mQueue s) (mLastFillSize s) (trace s) (barCalls
    s).

Definition set_descriptorEntries (v : list Descriptor) (s : Program) : Program :=
  Build_Program (opts s) (mInfinitePages s) (mPageAddresses s) (mFifoAddress
    s) (statusEntries s) v (pageMemory s) (mPushCounter s) (mReadoutCounter s)
    (mDataGeneratorCounter s) (mDescriptorCounter s) (mPageIndexCounter s)
    (mErrorCount s) (mErrorStream s) (mDmaLoopBreak s) (mHandlingSigint s)
    (mHandlingSigintStart s) (mPushEnabled s) (mLowPriorityCounter s) (mQueue
    s) (mLastFillSize s) (trace s) (barCalls s).

Definition set_pageMemory (v : list PageBuffer) (s : Program) : Program :=
  Build_Program (opts s) (mInfinitePages s) (mPageAddresses s) (mFifoAddress
    s) (statusEntries s) (descriptorEntries s) v (mPushCounter s)
    (mReadoutCounter s) (mDataGeneratorCounter s) (mDescriptorCounter s)
    (mPageIndexCounter s) (mErrorCount s) (mErrorStream s) (mDmaLoopBreak s)
    (mHandlingSigint s) (mHandlingSigintStart s) (mPushEnabled s)
    (mLowPriorityCounter s) (mQueue s) (mLastFillSize s) (trace s) (barCalls
    s).

Definition set_mPushCounter (v : Z) (s : Program) : Program :=
  Build_Program (opts s) (mInfinitePages s) (mPageAddresses s) (mFifoAddress
    s) (statusEntries s) (descriptorEntries s) (pageMemory s) v
    (mReadoutCounter s) (mDataGeneratorCounter s) (mDescriptorCounter s)
    (mPageIndexCounter s) (mErrorCount s) (mErrorStream s) (mDmaLoopBreak s)
    (mHandlingSigint s) (mHandlingSigintStart s) (mPushEnabled s)
    (mLowPriorityCounter s) (mQueue s) (mLastFillSize s) (trace s) (barCalls
    s).

Definition set_mReadoutCounter (v : Z) (s : Program) : Program :=
  Build_Program (opts s) (mInfinitePages s) (mPageAddresses s) (mFifoAddress
    s) (statusEntries s) (descriptorEntries s) (pageMemory s) (mPushCounter s)
    v (mDataGeneratorCounter s) (mDescriptorCounter s) (mPageIndexCounter s)
    (mErrorCount s) (mErrorStream s) (mDmaLoopBreak s) (mHandlingSigint s)
    (mHandlingSigintStart s) (mPushEnabled s) (mLowPriorityCounter s) (mQueue
    s) (mLastFillSize s) (trace s) (barCalls s).

Definition set_mDataGeneratorCounter (v : Z) (s : Program) : Program :=
  Build_Program (opts s) (mInfinitePages s) (mPageAddresses s) (mFifoAddress
    s) (statusEntries s) (descriptorEntries s) (pageMemory s) (mPushCounter s)
    (mReadoutCounter s) v (mDescriptorCounter s) (mPageIndexCounter s)
    (mErrorCount s) (mErrorStream s) (mDmaLoopBreak s) (mHandlingSigint s)
    (mHandlingSigintStart s) (mPushEnabled s) (mLowPriorityCounter s) (mQueue
    s) (mLastFillSize s) (trace s) (barCalls s).

Definition set_mDescriptorCounter (v : Z) (s : Program) : Program :=
  Build_Program (opts s) (mInfinitePages s) (mPageAddresses s) (mFifoAddress
    s) (statusEntries s) (descriptorEntries s) (pageMemory s) (mPushCounter s)
    (mReadoutCounter s) (mDataGeneratorCounter s) v (mPageIndexCounter s)
    (mErrorCount s) (mErrorStream s) (mDmaLoopBreak s) (mHandlingSigint s)
    (mHandlingSigintStart s) (mPushEnabled s) (mLowPriorityCounter s) (mQueue
    s) (mLastFillSize s) (trace s) (barCalls s).

Definition set_mPageIndexCounter (v : Z) (s : Program) : Program :=
  Build_Program (opts s) (mInfinitePages s) (mPageAddresses s) (mFifoAddress
    s) (statusEntries s) (descriptorEntries s) (pageMemory s) (mPushCounter s)
    (mReadoutCounter s) (mDataGeneratorCounter s) (mDescriptorCounter s) v
    (mErrorCount s) (mErrorStream s) (mDmaLoopBreak s) (mHandlingSigint s)
    (mHandlingSigintStart s) (mPushEnabled s) (mLowPriorityCounter s) (mQueue
    s) (mLastFillSize s) (trace s) (barCalls s).

Definition set_mErrorCount (v : Z) (s : Program) : Program :=
  Build_Program (opts s) (mInfinitePages s) (mPageAddresses s) (mFifoAddress
    s) (statusEntries s) (descriptorEntries s) (pageMemory s) (mPushCounter s)
    (mReadoutCounter s) (mDataGeneratorCounter s) (mDescriptorCounter s)
    (mPageIndexCounter s) v (mErrorStream s) (mDmaLoopBreak s)
    (mHandlingSigint s) (mHandlingSigintStart s) (mPushEnabled s)
    (mLowPriorityCounter s) (mQueue s) (mLastFillSize s) (trace s) (barCalls
    s).

Definition set_mErrorStream (v : list ErrorLine) (s : Program) : Program :=
  Build_Program (opts s) (mInfinitePages s) (mPageAddresses s) (mFifoAddress
    s) (statusEntries s) (descriptorEntries s) (pageMemory s) (mPushCounter s)
    (mReadoutCounter s) (mDataGeneratorCounter s) (mDescriptorCounter s)
    (mPageIndexCounter s) (mErrorCount s) v (mDmaLoopBreak s) (mHandlingSigint
    s) (mHandlingSigintStart s) (mPushEnabled s) (mLowPriorityCounter s)
    (mQueue s) (mLastFillSize s) (trace s) (barCalls s).

Definition set_mDmaLoopBreak (v : bool) (s : Program) : Program :=
  Build_Program (opts s) (mInfinitePages s) (mPageAddresses s) (mFifoAddress
    s) (statusEntries s) (descriptorEntries s) (pageMemory s) (mPushCounter s)
    (mReadoutCounter s) (mDataGeneratorCounter s) (mDescriptorCounter s)
    (mPageIndexCounter s) (mErrorCount s) (mErrorStream s) v (mHandlingSigint
    s) (mHandlingSigintStart s) (mPushEnabled s) (mLowPriorityCounter s)
    (mQueue s) (mLastFillSize s) (trace s) (barCalls s).

Definition set_mHandlingSigint (v : bool) (s : Program) : Program :=
  Build_Program (opts s) (mInfinitePages s) (mPageAddresses s) (mFifoAddress
    s) (statusEntries s) (descriptorEntries s) (pageMemory s) (mPushCounter s)
    (mReadoutCounter s) (mDataGeneratorCounter s) (mDescriptorCounter s)
    (mPageIndexCounter s) (mErrorCount s) (mErrorStream s) (mDmaLoopBreak s) v
    (mHandlingSigintStart s) (mPushEnabled s) (mLowPriorityCounter s) (mQueue
    s) (mLastFillSize s) (trace s) (barCalls s).

Definition set_mHandlingSigintStart (v : Z) (s : Program) : Program :=
  Build_Program (opts s) (mInfinitePages s) (mPageAddresses s) (mFifoAddress
    s) (statusEntries s) (descriptorEntries s) (pageMemory s) (mPushCounter s)
    (mReadoutCounter s) (mDataGeneratorCounter s) (mDescriptorCounter s)
    (mPageIndexCounter s) (mErrorCount s) (mErrorStream s) (mDmaLoopBreak s)
    (mHandlingSigint s) v (mPushEnabled s) (mLowPriorityCounter s) (mQueue s)
    (mLastFillSize s) (trace s) (barCalls s).

Definition set_mPushEnabled (v : bool) (s : Program) : Program :=
  Build_Program (opts s) (mInfinitePages s) (mPageAddresses s) (mFifoAddress
    s) (statusEntries s) (descriptorEntries s) (pageMemory s) (mPushCounter s)
    (mReadoutCounter s) (mDataGeneratorCounter s) (mDescriptorCounter s)
    (mPageIndexCounter s) (mErrorCount s) (mErrorStream s) (mDmaLoopBreak s)
    (mHandlingSigint s) (mHandlingSigintStart s) v (mLowPriorityCounter s)
    (mQueue s) (mLastFillSize s) (trace s) (barCalls s).

Definition set_mLowPriorityCounter (v : Z) (s : Program) : Program :=
  Build_Program (opts s) (mInfinitePages s) (mPageAddresses s) (mFifoAddress
    s) (statusEntries s) (descriptorEntries s) (pageMemory s) (mPushCounter s)
    (mReadoutCounter s) (mDataGeneratorCounter s) (mDescriptorCounter s)
    (mPageIndexCounter s) (mErrorCount s) (mErrorStream s) (mDmaLoopBreak s)
    (mHandlingSigint s) (mHandlingSigintStart s) (mPushEnabled s) v (mQueue s)
    (mLastFillSize s) (trace s) (barCalls s).

Definition set_mQueue (v : list Handle) (s : Program) : Program :=
  Build_Program (opts s) (mInfinitePages s) (mPageAddresses s) (mFifoAddress
    s) (statusEntries s) (descriptorEntries s) (pageMemory s) (mPushCounter s)
    (mReadoutCounter s) (mDataGeneratorCounter s) (mDescriptorCounter s)
    (mPageIndexCounter s) (mErrorCount s) (mErrorStream s) (mDmaLoopBreak s)
    (mHandlingSigint s) (mHandlingSigintStart s) (mPushEnabled s)
    (mLowPriorityCounter s) v (mLastFillSize s) (trace s) (barCalls s).

Definition set_mLastFillSize (v : Z) (s : Program) : Program :=
  Build_Program (opts s) (mInfinitePages s) (mPageAddresses s) (mFifoAddress
    s) (statusEntries s) (descriptorEntries s) (pageMemory s) (mPushCounter s)
    (mReadoutCounter s) (mDataGeneratorCounter s) (mDescriptorCounter s)
    (mPageIndexCounter s) (mErrorCount s) (mErrorStream s) (mDmaLoopBreak s)
    (mHandlingSigint s) (mHandlingSigintStart s) (mPushEnabled s)
    (mLowPriorityCounter s) (mQueue s) v (trace s) (barCalls s).

Definition set_trace (v : list Event) (s : Program) : Program :=
  Build_Program (opts s) (mInfinitePages s) (mPageAddresses s) (mFifoAddress
    s) (statusEntries s) (descriptorEntries s) (pageMemory s) (mPushCounter s)
    (mReadoutCounter s) (mDataGeneratorCounter s) (mDescriptorCounter s)
    (mPageIndexCounter s) (mErrorCount s) (mErrorStream s) (mDmaLoopBreak s)
    (mHandlingSigint s) (mHandlingSigintStart s) (mPushEnabled s)
    (mLowPriorityCounter s) (mQueue s) (mLastFillSize s) v (barCalls s).

Definition set_barCalls (v : list BarCall) (s : Program) : Program :=
  Build_Program (opts s) (mInfinitePages s) (mPageAddresses s) (mFifoAddress
    s) (statusEntries s) (descriptorEntries s) (pageMemory s) (mPushCounter s)
    (mReadoutCounter s) (mDataGeneratorCounter s) (mDescriptorCounter s)
    (mPageIndexCounter s) (mErrorCount s) (mErrorStream s) (mDmaLoopBreak s)
    (mHandlingSigint s) (mHandlingSigintStart s) (mPushEnabled s)
    (mLowPriorityCounter s) (mQueue s) (mLastFillSize s) (trace s) v.

Definition emit (e : Event) (s : Program) : Program :=
  set_trace (trace s ++ [e]) s.

(** One call of the accessor of the card's registers. *)
Definition barCall (c : BarCall) (s : Program) : Program :=
  set_barCalls (barCalls s ++ [c]) s.

(** ** State and exception monad *)

(** [OutOfFuel] is not a C++ outcome: it marks a run of the model whose
    iteration budget ended before the C++ function returned or threw. *)
Inductive Outcome (A : Type) : Type :=
  | Return (a : A) (s : Program)
  | Throw (e : Exception) (s : Program)
  | OutOfFuel (s : Program).
Arguments Return {A} a s.
Arguments Throw {A} e s.
Arguments OutOfFuel {A} s.

Definition M (A : Type) : Type := Program -> Outcome A.

Definition ret {A} (a : A) : M A := fun s => Return a s.
Definition throw {A} (e : Exception) : M A := fun s => Throw e s.
Definition outOfFuel {A} : M A := fun s => OutOfFuel s.
Definition bind {A B} (m : M A) (f : A -> M B) : M B :=
  fun s => match m s with
           | Return a s' => f a s'
           | Throw e s' => Throw e s'
           | OutOfFuel s' => OutOfFuel s'
           end.
(** The program object itself ([this]). *)
Definition get : M Program := fun s => Return s s.
(** A member function that cannot throw, run for its effect. *)
Definition modify (f : Program -> Program) : M unit := fun s => Return tt (f s).
Definition when (b : bool) (m : M unit) : M unit := if b then m else ret tt.

Notation "'do' x <- m ; k" := (bind m (fun x => k))
  (at level 10, x name, m at level 100, k at level 200).
Notation "m >> k" := (bind m (fun _ => k))
  (at level 100, k at level 200, right associativity).

(** ** Arrays indexed by C++ integers *)

(** [a[i]] read; [None] outside the array. *)
Definition lookupZ {A} (i : Z) (l : list A) : option A :=
  if 0 <=? i then l !! Z.to_nat i else None.

(** [a[i] = x]; the array is left alone outside its bounds (the C++ is
    undefined there, and the program never does it in a well-formed state). *)
Definition insertZ {A} (i : Z) (x : A) (l : list A) : list A :=
  if 0 <=? i then <[Z.to_nat i := x]> l else l.

(** ** The card and the other threads, as seen by one loop iteration *)

Record Env : Type := mkEnv {
  hwWrites : list (Z * PageBuffer); (* DMA writes: page index, new content *)
  hwArrived : list Z;        (* descriptors whose status entry the card sets *)
  isMaxExceeded : bool;      (* mTemperatureMonitor.isMaxExceeded() *)
  isSigInt : bool;           (* Program::isSigInt() *)
  nowSigintStart : Z;        (* clock read that becomes mHandlingSigintStart *)
  nowTimeoutCheck : Z        (* clock read of the timeout test, milliseconds *)
}.

Definition cardWritesPage (w : Z * PageBuffer) (mem : list PageBuffer)
  : list PageBuffer := insertZ w.1 w.2 mem.

Definition cardMarksArrived (d : Z) (st : list bool) : list bool :=
  insertZ d true st.

(** The card between two polls of the loop: it writes pages and sets status
    entries, and nothing else. *)
Definition card (e : Env) (s : Program) : Program :=
  set_statusEntries (foldr cardMarksArrived (statusEntries s) (hwArrived e))
    (set_pageMemory (foldr cardWritesPage (pageMemory s) (hwWrites e)) s).

(** ** CruFifoTable *)

(** Modelled from the spec: [Cru/CruFifoTable.h] is not among the sources.
    A status entry is the boolean "arrived" flag, written by the card and
    reset by software; [isPageArrived] reads it. *)
Definition statusIsPageArrived (d : Z) (st : list bool) : bool :=
  default false (lookupZ d st).

(** Modelled from the spec: [StatusEntry::reset] clears the flag of one
    entry. *)
Definition statusReset (d : Z) (st : list bool) : list bool :=
  insertZ d false st.

(** Modelled from the spec: [CruFifoTable::resetStatusEntries] marks the
    whole ring "not arrived". *)
Definition resetStatusEntries (st : list bool) : list bool :=
  map (fun _ => false) st.

(** Modelled from the spec: [CruFifoTable::setDescriptor] writes length,
    source and destination into the table at [descriptorIndex]. *)
Definition tableSetDescriptor (d : Z) (len src dst : Z) (t : list Descriptor)
  : list Descriptor := insertZ d (mkDescriptor len src dst) t.

(** ** Pushing *)

(** [int] from [size_t]. *)
Definition toInt (x : Z) : Z := (x + 2 ^ 31) mod 2 ^ 32 - 2 ^ 31.

Definition queueSize (s : Program) : Z := Z.of_nat (length (mQueue s)).

Definition shouldPushQueue (s : Program) : bool :=
  (queueSize s <? NUM_PAGES)
  && (mInfinitePages s || (mPushCounter s <? maxPages (opts s)))
  && mPushEnabled s.

(** [mPageAddresses.at(pageIndex)] throws [std::out_of_range]. *)
Definition setDescriptor (pageIdx descriptorIdx : Z) : M unit :=
  do s <- get;
  match lookupZ pageIdx (mPageAddresses s) with
  | None => throw OutOfRange
  | Some pageAddress =>
      let sourceAddress := Z.rem descriptorIdx NUM_OF_BUFFERS * DMA_PAGE_SIZE in
      modify (set_descriptorEntries
                (tableSetDescriptor descriptorIdx DMA_PAGE_SIZE_32 sourceAddress
                   (bus pageAddress) (descriptorEntries s)))
  end.

(** [mQueue.push]: [push_back] on a [boost::circular_buffer] of capacity
    [NUM_PAGES], which overwrites the oldest element when it is full. *)
Definition queuePush (h : Handle) (q : list Handle) : list Handle :=
  if Z.of_nat (length q) <? NUM_PAGES then q ++ [h] else drop 1 q ++ [h].

(** The part of [pushPage] after [setDescriptor]. *)
Definition enqueueAndCount (s : Program) : Program :=
  let h := mkHandle (mDescriptorCounter s) (mPageIndexCounter s) in
  let s := emit (EvPush h) (set_mQueue (queuePush h (mQueue s)) s) in
  let s := set_mDescriptorCounter (Z.rem (mDescriptorCounter s + 1) NUM_PAGES) s in
  let s := set_mPageIndexCounter
             (toInt (wrap64 (mPageIndexCounter s + 1)
                       mod Z.of_nat (length (mPageAddresses s)))) s in
  set_mPushCounter (mPushCounter s + 1) s.

Definition pushPage : M unit :=
  (do s <- get; setDescriptor (mPageIndexCounter s) (mDescriptorCounter s)) >>
  modify enqueueAndCount.

(** The [while (shouldPushQueue())] loop of [fillReadoutQueue]. *)
Fixpoint fillLoop (fuel : nat) (pushed : Z) : M Z :=
  match fuel with
  | O => outOfFuel
  | S fuel' =>
      do s <- get;
      if shouldPushQueue s then pushPage >> fillLoop fuel' (pushed + 1)
      else ret pushed
  end.

Definition fillReadoutQueue : M unit :=
  do pushed <- fillLoop (S (Z.to_nat NUM_PAGES)) 0;
  when (negb (pushed =? 0)) (modify (set_mLastFillSize pushed)).

(** ** Reading out *)

Definition isPageArrived (h : Handle) (s : Program) : bool :=
  statusIsPageArrived (descriptorIndex h) (statusEntries s).

Definition readoutQueueHasPageAvailable (s : Program) : bool :=
  match mQueue s with
  | [] => false
  | front :: _ => isPageArrived front s
  end.

(** [getPageAddress(handle)], as the words found there. *)
Definition getPage (h : Handle) (s : Program) : PageBuffer :=
  default [] (lookupZ (pageIndex h) (pageMemory s)).

(** [page[i]]. *)
Definition pageWord (page : PageBuffer) (i : Z) : Z :=
  default 0 (lookupZ i page).

Definition printToFile (h : Handle) (pageNumber : Z) (s : Program) : Program :=
  if fileOutputAscii (opts s) then
    emit (EvPrintToFile true pageNumber (pageIndex h) (getPage h s)) s
  else if fileOutputBin (opts s) then
    emit (EvPrintToFile false pageNumber (pageIndex h) (getPage h s)) s
  else s.

(** The "report error" block of [checkErrors]. *)
Definition reportError (eventNumber : Z) (h : Handle) (i expectedValue
  actualValue : Z) (s : Program) : Program :=
  let s := set_mErrorCount (mErrorCount s + 1) s in
  if isVerbose (opts s) && (mErrorCount s <? MAX_RECORDED_ERRORS) then
    set_mErrorStream
      (mErrorStream s
       ++ [mkErrorLine eventNumber (pageIndex h) i expectedValue actualValue]) s
  else s.

(** The [for] loop of the [check] lambda, from word [i] on. *)
Fixpoint checkLoop (fuel : nat) (patternFunction : Z -> Z) (h : Handle)
  (eventNumber : Z) (i : Z) : M bool :=
  match fuel with
  | O => outOfFuel
  | S fuel' =>
      if i <? DMA_PAGE_SIZE_32 then
        do s <- get;
        let expectedValue := patternFunction i in
        let actualValue := pageWord (getPage h s) i in
        if negb (actualValue =? expectedValue) then
          modify (reportError eventNumber h i expectedValue actualValue) >>
          ret true
        else checkLoop fuel' patternFunction h eventNumber
               (wrap32 (i + PATTERN_STRIDE))
      else ret false
  end.

Definition check (patternFunction : Z -> Z) (h : Handle) (eventNumber : Z)
  : M bool :=
  checkLoop (S (Z.to_nat DMA_PAGE_SIZE_32)) patternFunction h eventNumber 0.

(** [counter] is a [uint32_t]; so is the arithmetic of the pattern. *)
Definition checkErrors (pattern : GeneratorPattern) (h : Handle)
  (eventNumber : Z) (counter : Z) : M bool :=
  match pattern with
  | Incremental => check (fun i => wrap32 (counter + i / 8)) h eventNumber
  | Alternating => check (fun _ => 0xa5a5a5a5) h eventNumber
  | Constant => check (fun _ => 0x12345678) h eventNumber
  | _ => throw (UnrecognizedGeneratorPattern pattern)
  end.

(** [resetPage]: [page[i] = BUFFER_DEFAULT_VALUE] for [n] words from [i]. *)
Fixpoint resetWords (n : nat) (i : Z) (page : PageBuffer) : PageBuffer :=
  match n with
  | O => page
  | S n' => resetWords n' (i + 1) (insertZ i BUFFER_DEFAULT_VALUE page)
  end.

Definition resetPageWords (page : PageBuffer) : PageBuffer :=
  resetWords (Z.to_nat DMA_PAGE_SIZE_32) 0 page.

Definition resetPage (h : Handle) (s : Program) : Program :=
  emit (EvResetPage (pageIndex h))
    (set_pageMemory
       (insertZ (pageIndex h) (resetPageWords (getPage h s)) (pageMemory s)) s).

Definition resetStatusEntry (h : Handle) (s : Program) : Program :=
  emit (EvStatusReset (descriptorIndex h))
    (set_statusEntries (statusReset (descriptorIndex h) (statusEntries s)) s).

(** The first page initializes the counter; a resync reads it again. *)
Definition syncCounter (h : Handle) (s : Program) : Program :=
  set_mDataGeneratorCounter (pageWord (getPage h s) 0) s.

Definition dataErrorChecking (h : Handle) : M unit :=
  (do s <- get; when (mDataGeneratorCounter s =? -1) (modify (syncCounter h))) >>
  do s <- get;
  modify (emit (EvCheckErrors (mReadoutCounter s) h)) >>
  do hasError <- checkErrors (generatorPattern (opts s)) h (mReadoutCounter s)
                   (wrap32 (mDataGeneratorCounter s));
  when (hasError && resyncCounter (opts s)) (modify (syncCounter h)).

Definition countReadout (s : Program) : Program :=
  let s := set_mDataGeneratorCounter (mDataGeneratorCounter s + 256) s in
  emit (EvReadoutCounter (mReadoutCounter s + 1))
    (set_mReadoutCounter (mReadoutCounter s + 1) s).

Definition readoutPage (h : Handle) : M unit :=
  (do s <- get;
   when (fileOutputAscii (opts s) || fileOutputBin (opts s))
     (modify (printToFile h (mReadoutCounter s)))) >>
  (do s <- get; when (checkError (opts s)) (dataErrorChecking h)) >>
  modify (resetPage h) >>
  modify (resetStatusEntry h) >>
  modify countReadout.

(** [acknowledgePage]: [sendAcknowledge]; the idle counter bookkeeping that
    follows it only reads card registers into statistics that are not
    modelled. *)
Definition acknowledgePage (s : Program) : Program :=
  emit (EvAcknowledge (mReadoutCounter s)) s.

(** [mQueue.pop()]. *)
Definition queuePop (s : Program) : Program :=
  match mQueue s with
  | [] => s
  | front :: rest => emit (EvPop front) (set_mQueue rest s)
  end.

(** The body of [if (readoutQueueHasPageAvailable())] in [runDma]. *)
Definition readoutAndAcknowledge : M unit :=
  do s <- get;
  match mQueue s with
  | [] => ret tt
  | front :: _ =>
      readoutPage front >>
      (do s <- get;
       if legacyAck (opts s) then
         when (Z.rem (mReadoutCounter s) 4 =? 0) (modify acknowledgePage)
       else modify acknowledgePage) >>
      modify queuePop
  end.

(** ** Low priority tasks *)

Definition startHandlingSigint (e : Env) (s : Program) : Program :=
  if negb (mHandlingSigint s) then
    set_mPushEnabled false
      (set_mHandlingSigint true (set_mHandlingSigintStart (nowSigintStart e) s))
  else s.

Definition breakLoop (m : Message) (s : Program) : Program :=
  set_mDmaLoopBreak true (emit (EvMessage m) s).

(** The status display and the random pauses that end the C++ function
    print, sleep and write an emulator register; no modelled member changes,
    so the model stops after the SIGINT handling. *)
Definition lowPriorityTasks (e : Env) (s : Program) : Program :=
  if mLowPriorityCounter s <? LOW_PRIORITY_INTERVAL then
    set_mLowPriorityCounter (mLowPriorityCounter s + 1) s
  else
    let s := set_mLowPriorityCounter 0 s in
    if isMaxExceeded e then breakLoop MsgAbortMaxTemperature s
    else if isSigInt e then
      let s := startHandlingSigint e s in
      if queueSize s =? 0 then breakLoop MsgInterrupted s
      else if HANDLING_SIGINT_TIMEOUT <? nowTimeoutCheck e - mHandlingSigintStart s
      then breakLoop MsgInterruptedDidNotFinish s
      else s
    else s.

(** ** The DMA loop *)

Inductive LoopExit : Type := ExitPageLimit | ExitLoopBreak.

(** One turn of [while (true)] in [runDma]; [Some] is a [break]. *)
Definition loopIteration (e : Env) : M (option LoopExit) :=
  do s <- get;
  if negb (mInfinitePages s) && (maxPages (opts s) <=? mReadoutCounter s) then
    modify (emit (EvMessage MsgMaximumPagesReached)) >> ret (Some ExitPageLimit)
  else if mDmaLoopBreak s then ret (Some ExitLoopBreak)
  else
    modify (lowPriorityTasks e) >>
    fillReadoutQueue >>
    (do s <- get;
     when (readoutQueueHasPageAvailable s) readoutAndAcknowledge) >>
    ret None.

(** The loop, one [Env] per turn: the card acts, then the turn runs. *)
Fixpoint dmaLoop (envs : list Env) : M LoopExit :=
  match envs with
  | [] => outOfFuel
  | e :: envs' =>
      modify (card e) >>
      do r <- loopIteration e;
      match r with
      | Some exit => ret exit
      | None => dmaLoop envs'
      end
  end.

Definition outputErrors (s : Program) : Program :=
  emit (EvErrorsFile (mErrorStream s)) s.

(** The "Pages" and "Errors" lines of the run summary; the other lines are
    floating point throughput figures and card registers.  The error count is
    among the lines printed only when the byte count is positive, that is
    when a page was read out. *)
Definition outputStats (s : Program) : Program :=
  emit (EvSummary (mReadoutCounter s)
          (if 0 <? mReadoutCounter s then Some (mErrorCount s) else None)) s.

Definition finishUp : M unit :=
  modify outputErrors >> modify outputStats.

Definition runDma (envs : list Env) : M LoopExit :=
  fillReadoutQueue >>
  do exit <- dmaLoop envs;
  finishUp >> ret exit.

(** ** Initialization *)

(** The [for] loop of [initFifo]: [setDescriptor(i, i)] for [n] slots. *)
Fixpoint initDescriptors (n : nat) (i : Z) : M unit :=
  match n with
  | O => ret tt
  | S n' => setDescriptor i i >> initDescriptors n' (i + 1)
  end.

(** [initFifo].  [partition] is what [Pda::partitionScatterGatherList]
    returned (its source is not part of the program file): the address of the
    FIFO and the addresses of the pages. *)
Definition initFifo (partition : PageAddress * list PageAddress) : M unit :=
  modify (fun s => set_mPageAddresses partition.2
                     (set_mFifoAddress partition.1 s)) >>
  do s <- get;
  if Z.of_nat (length (mPageAddresses s)) <=? NUM_PAGES then
    throw InsufficientPages
  else
    modify (fun s => set_statusEntries (resetStatusEntries (statusEntries s)) s) >>
    initDescriptors (length (descriptorEntries s)) 0.

(** [resetBuffer]: every page of [mPageAddresses] is reset. *)
Definition resetBuffer (s : Program) : Program :=
  set_pageMemory
    (imap (fun i page => if decide (i < length (mPageAddresses s))%nat
                         then resetPageWords page else page)
       (pageMemory s)) s.

Definition checkAlignment (address alignment : Z) : bool :=
  wrap64 address mod alignment =? 0.

(** [initCard]: the alignment of the FIFO is checked; then its bus address,
    its card address, the size of the descriptor table and the done control
    go to the card and, when checking is on, the generator pattern of the
    options, whatever it is.  The lines on the console are left out. *)
Definition initCard : M unit :=
  do s <- get;
  if negb (checkAlignment (bus (mFifoAddress s)) DMA_ALIGNMENT) then
    throw FifoNotAligned
  else
    modify (barCall (SetFifoBusAddress (bus (mFifoAddress s)))) >>
    modify (barCall SetFifoCardAddress) >>
    modify (barCall SetDescriptorTableSize) >>
    modify (barCall SetDoneControl) >>
    do s <- get;
    when (checkError (opts s))
      (modify (barCall (SetDataGeneratorPattern (generatorPattern (opts s))))).

Definition initDma (partition : PageAddress * list PageAddress) : M unit :=
  initFifo partition >> modify resetBuffer >> initCard.

(** [run], from the option checks on. *)
Definition run (partition : PageAddress * list PageAddress) (envs : list Env)
  : M LoopExit :=
  do s <- get;
  if fileOutputAscii (opts s) && fileOutputBin (opts s) then
    throw FileOutputBothAsciiAndBinary
  else
    modify (fun s => set_mInfinitePages (maxPages (opts s) <=? 0) s) >>
    initDma partition >>
    runDma envs.

(** The program object as constructed: the default member initializers, over
    the FIFO table and the page contents found in the DMA buffer. *)
Definition newProgram (o : Options) (status : list bool)
  (descriptors : list Descriptor) (mem : list PageBuffer) : Program :=
  {| opts := o;
     mInfinitePages := false;
     mPageAddresses := [];
     mFifoAddress := mkPageAddress 0 0;
     statusEntries := status;
     descriptorEntries := descriptors;
     pageMemory := mem;
     mPushCounter := 0;
     mReadoutCounter := 0;
     mDataGeneratorCounter := -1;
     mDescriptorCounter := 0;
     mPageIndexCounter := 0;
     mErrorCount := 0;
     mErrorStream := [];
     mDmaLoopBreak := false;
     mHandlingSigint := false;
     mHandlingSigintStart := 0;
     mPushEnabled := true;
     mLowPriorityCounter := 0;
     mQueue := [];
     mLastFillSize := 0;
     trace := [];
     barCalls := [] |}.

(** ** The pattern the card is configured with *)

(** [getCurrentGeneratorPattern]; [dmaConfigurationRegister] is the value read
    from [bar(CruRegisterIndex::DMA_CONFIGURATION)].  The source combines it
    with [0b11] by [&&], the logical "and", whose [bool] result is stored in a
    [uint32_t]. *)
Definition getCurrentGeneratorPattern (dmaConfigurationRegister : Z)
  : GeneratorPattern :=
  let dmaConfiguration :=
    if negb (wrap32 dmaConfigurationRegister =? 0) && negb (3 =? 0)
    then 1 else 0 in
  if dmaConfiguration =? 1 then Incremental          (* 0b01 *)
  else if dmaConfiguration =? 2 then Alternating     (* 0b10 *)
  else if dmaConfiguration =? 3 then Constant        (* 0b11 *)
  else Unknown.

(** * The vocabulary of the properties *)

(** ** What an operation leaves behind *)

(** The explicit program objects and event lists the operations of the model
    are shown to produce. *)

(** The pattern kinds [checkErrors] has a case for. *)
Definition recognized (p : GeneratorPattern) : bool :=
  match p with
  | Incremental | Alternating | Constant => true
  | _ => false
  end.

(** The validator can run: checking is off, or the pattern has a case. *)
Definition validatorCanRun (s : Program) : bool :=
  negb (checkError (opts s)) || recognized (generatorPattern (opts s)).

(** The validator writes the error count and the error stream only. *)
Definition withErrors (errorCount : Z) (errorStream : list ErrorLine)
  (s : Program) : Program :=
  set_mErrorStream errorStream (set_mErrorCount errorCount s).

(** [dataErrorChecking] adds the data generator counter and its call event. *)
Definition afterChecking (h : Handle) (counter errorCount : Z)
  (errorStream : list ErrorLine) (s : Program) : Program :=
  set_mDataGeneratorCounter counter
    (withErrors errorCount errorStream
       (emit (EvCheckErrors (mReadoutCounter s) h) s)).

(** The page written to the file sink, if one is open. *)
Definition fileEvents (h : Handle) (s : Program) : list Event :=
  if fileOutputAscii (opts s) then
    [EvPrintToFile true (mReadoutCounter s) (pageIndex h) (getPage h s)]
  else if fileOutputBin (opts s) then
    [EvPrintToFile false (mReadoutCounter s) (pageIndex h) (getPage h s)]
  else [].

(** The call of the validator. *)
Definition checkEvents (h : Handle) (s : Program) : list Event :=
  if checkError (opts s) then [EvCheckErrors (mReadoutCounter s) h] else [].

(** The events of one [readoutPage], in program order. *)
Definition readoutPageEvents (h : Handle) (s : Program) : list Event :=
  fileEvents h s ++ checkEvents h s
  ++ [EvResetPage (pageIndex h); EvStatusReset (descriptorIndex h);
      EvReadoutCounter (mReadoutCounter s + 1)].

(** The program object after [readoutPage]; the validator decides the data
    generator counter, the error count and the error stream. *)
Definition afterReadoutPage (h : Handle) (counter errorCount : Z)
  (errorStream : list ErrorLine) (s : Program) : Program :=
  set_trace (trace s ++ readoutPageEvents h s)
    (set_mReadoutCounter (mReadoutCounter s + 1)
       (set_mDataGeneratorCounter counter
          (withErrors errorCount errorStream
             (set_statusEntries
                (statusReset (descriptorIndex h) (statusEntries s))
                (set_pageMemory
                   (insertZ (pageIndex h) (resetPageWords (getPage h s))
                      (pageMemory s)) s))))).

(** The acknowledgment that follows [readoutPage] in [runDma]: every page, or
    in legacy mode every page that makes the readout counter a multiple of
    four. [s] is the program object before [readoutPage]. *)
Definition ackEvents (s : Program) : list Event :=
  if legacyAck (opts s) then
    if Z.rem (mReadoutCounter s + 1) 4 =? 0
    then [EvAcknowledge (mReadoutCounter s + 1)] else []
  else [EvAcknowledge (mReadoutCounter s + 1)].

(** The events of one readout in [runDma], in program order. *)
Definition readoutEvents (h : Handle) (s : Program) : list Event :=
  readoutPageEvents h s ++ ackEvents s ++ [EvPop h].

(** The program object after one readout in [runDma]. *)
Definition afterReadout (h : Handle) (rest : list Handle)
  (counter errorCount : Z) (errorStream : list ErrorLine) (s : Program)
  : Program :=
  set_mQueue rest
    (set_trace (trace s ++ readoutEvents h s)
       (afterReadoutPage h counter errorCount errorStream s)).

(** The program object after [pushPage], [a] being the address found for
    the page. *)
Definition afterPush (a : PageAddress) (s : Program) : Program :=
  enqueueAndCount
    (set_descriptorEntries
       (tableSetDescriptor (mDescriptorCounter s) DMA_PAGE_SIZE_32
          (Z.rem (mDescriptorCounter s) NUM_OF_BUFFERS * DMA_PAGE_SIZE)
          (bus a) (descriptorEntries s)) s).

(** The program object when [initFifo] throws: the addresses are stored,
    nothing else is done. *)
Definition addressesStored (partition : PageAddress * list PageAddress)
  (s : Program) : Program :=
  set_mPageAddresses partition.2 (set_mFifoAddress partition.1 s).

(** The page of [h] with word [i] overwritten by [v] (what a DMA write, or a
    transfer error, leaves in memory). *)
Definition pokeWord (i v : Z) (h : Handle) (s : Program) : Program :=
  set_pageMemory
    (insertZ (pageIndex h) (insertZ i v (getPage h s)) (pageMemory s)) s.

(** ** The history of a run *)

(** The handle of a push, of a pop; the counter of an acknowledgment. *)
Definition pushedHandle (e : Event) : option Handle :=
  match e with EvPush h => Some h | _ => None end.
Definition poppedHandle (e : Event) : option Handle :=
  match e with EvPop h => Some h | _ => None end.
Definition acknowledgedCount (e : Event) : option Z :=
  match e with EvAcknowledge n => Some n | _ => None end.

(** The handles pushed, the handles popped, and the values of the readout
    counter at each acknowledgment, oldest first. *)
Definition pushes (t : list Event) : list Handle := omap pushedHandle t.
Definition pops (t : list Event) : list Handle := omap poppedHandle t.
Definition acks (t : list Event) : list Z := omap acknowledgedCount t.

(** The acknowledgments a run has sent once [n] pages are read out: one per
    page, or in legacy mode one per four pages. *)
Definition ackSchedule (legacy : bool) (n : Z) : list Z :=
  if legacy then map (fun k => 4 * Z.of_nat k) (seq 1 (Z.to_nat (n / 4)))
  else map Z.of_nat (seq 1 (Z.to_nat n)).

(** The position, among the acknowledgments sent so far, of the one that
    covers the page pushed [k]-th (from 0): the first acknowledgment sent with
    more than [k] pages read out. *)
Definition ackIndexOf (t : list Event) (k : nat) : option nat :=
  fst <$> list_find (fun n => Z.of_nat k < n) (acks t).

(** Console messages. *)
Definition isMessage (ev : Event) : bool :=
  match ev with EvMessage _ => true | _ => false end.


(** ** The states of a run *)

(** One step of a run: the primitive operations of [runDma], each under the
    guard the loop puts in front of it, and the card. *)
Inductive step : Program -> Program -> Prop :=
  | step_push s s' :
      shouldPushQueue s = true -> pushPage s = Return tt s' -> step s s'
  | step_fill_size n s : step s (set_mLastFillSize n s)
  | step_card e s : step s (card e s)
  | step_low_priority e s : step s (lowPriorityTasks e s)
  | step_readout s s' :
      readoutQueueHasPageAvailable s = true ->
      readoutAndAcknowledge s = Return tt s' -> step s s'
  | step_page_limit s : step s (emit (EvMessage MsgMaximumPagesReached) s)
  | step_output_errors s : step s (outputErrors s)
  | step_output_stats s : step s (outputStats s).

(** The states a run that starts in [s0] passes through. *)
Inductive reachable (s0 : Program) : Program -> Prop :=
  | reach_start : reachable s0 s0
  | reach_step s s' : reachable s0 s -> step s s' -> reachable s0 s'.

(** The program object when [runDma] is entered. *)
Definition startOfRun (s0 : Program) : Prop :=
  mQueue s0 = [] /\ trace s0 = [] /\ mPushCounter s0 = 0
  /\ mReadoutCounter s0 = 0.

(** What holds in every state of a run. *)
Record RunInvariant (s0 s : Program) : Prop := {
  inv_opts : opts s = opts s0;
  inv_capacity : queueSize s <= NUM_PAGES;
  inv_fifo : pushes (trace s) = pops (trace s) ++ mQueue s;
  inv_pushed : Z.of_nat (length (pushes (trace s))) = mPushCounter s;
  inv_popped : Z.of_nat (length (pops (trace s))) = mReadoutCounter s;
  inv_acks : acks (trace s) = ackSchedule (legacyAck (opts s)) (mReadoutCounter s)
}.

(** ** Runs that return *)

(** The page and descriptor counters are inside their rings. *)
Definition wellFormed (s : Program) : Prop :=
  0 < Z.of_nat (length (mPageAddresses s)) < 2 ^ 31
  /\ 0 <= mPageIndexCounter s < Z.of_nat (length (mPageAddresses s))
  /\ 0 <= mDescriptorCounter s < NUM_PAGES.

(** The members that steer the loop. *)
Definition control (s : Program)
  : Options * bool * bool * bool * Z * bool * Z :=
  (opts s, mInfinitePages s, mDmaLoopBreak s, mHandlingSigint s,
   mHandlingSigintStart s, mPushEnabled s, mLowPriorityCounter s).

(** What a run of the [fillReadoutQueue] loop leaves alone. *)
Record FillFrame (s s' : Program) : Prop := {
  fill_wellFormed : wellFormed s';
  fill_control : control s' = control s;
  fill_readout : mReadoutCounter s' = mReadoutCounter s;
  fill_errors : mErrorCount s' = mErrorCount s;
  fill_status : statusEntries s' = statusEntries s;
  fill_capacity : queueSize s' <= NUM_PAGES;
  fill_trace : exists t, trace s' = trace s ++ map EvPush t
}.

(** What one turn of the loop does, when it returns at all: it breaks at
    the page limit or at the loop break flag, or it runs the low priority
    tasks, fills the queue and reads out at most one page. *)
Definition turnResult (e : Env) (s : Program) (r : option LoopExit)
  (s' : Program) : Prop :=
  match r with
  | Some ExitPageLimit =>
      mInfinitePages s = false /\ maxPages (opts s) <= mReadoutCounter s
      /\ s' = emit (EvMessage MsgMaximumPagesReached) s
  | Some ExitLoopBreak =>
      mDmaLoopBreak s = true /\ s' = s
  | None =>
      mDmaLoopBreak s = false
      /\ control s' = control (lowPriorityTasks e s)
      /\ wellFormed s'
      /\ queueSize s' <= NUM_PAGES
      /\ mReadoutCounter s <= mReadoutCounter s' <= mReadoutCounter s + 1
      /\ exists t, trace s' = trace (lowPriorityTasks e s) ++ t
                   /\ Forall (fun ev => isMessage ev = false) t
  end.


(** The program object [initDma] hands to [runDma] in page-limited mode. *)
Definition readyForRun (limit : Z) (s : Program) : Prop :=
  startOfRun s
  /\ wellFormed s
  /\ mDescriptorCounter s = 0
  /\ mInfinitePages s = false
  /\ maxPages (opts s) = limit
  /\ mPushEnabled s = true
  /\ mDmaLoopBreak s = false
  /\ mHandlingSigint s = false
  /\ validatorCanRun s = true
  /\ Z.of_nat (length (statusEntries s)) = NUM_PAGES.

(** The loop of a run with page limit [N] in turn [i], with [k] pages read
    out and the others, on descriptors [k] to [N - 1], in the queue: each has
    arrived or will, [env j] being what the card and the other threads do in
    turn [j]. *)
Record Draining (N : nat) (env : nat -> Env) (s0 : Program) (k i : nat)
  (s : Program) : Prop := {
  dr_le : (k <= N)%nat;
  dr_queue : map descriptorIndex (mQueue s) = map Z.of_nat (seq k (N - k));
  dr_readout : mReadoutCounter s = Z.of_nat k;
  dr_pushed : mPushCounter s = Z.of_nat N;
  dr_opts : opts s = opts s0;
  dr_finite : mInfinitePages s = false;
  dr_no_break : mDmaLoopBreak s = false;
  dr_no_sigint : mHandlingSigint s = false;
  dr_push_enabled : mPushEnabled s = true;
  dr_wellFormed : wellFormed s;
  dr_status_length : Z.of_nat (length (statusEntries s)) = NUM_PAGES;
  dr_arrival :
    forall d, (k <= d < N)%nat ->
      statusIsPageArrived (Z.of_nat d) (statusEntries s) = true
      \/ exists j, (i <= j)%nat /\ In (Z.of_nat d) (hwArrived (env j))
}.

Arguments dr_le {N env s0 k i s} _.
Arguments dr_queue {N env s0 k i s} _.
Arguments dr_readout {N env s0 k i s} _.
Arguments dr_pushed {N env s0 k i s} _.
Arguments dr_opts {N env s0 k i s} _.
Arguments dr_finite {N env s0 k i s} _.
Arguments dr_no_break {N env s0 k i s} _.
Arguments dr_no_sigint {N env s0 k i s} _.
Arguments dr_push_enabled {N env s0 k i s} _.
Arguments dr_wellFormed {N env s0 k i s} _.
Arguments dr_status_length {N env s0 k i s} _.
Arguments dr_arrival {N env s0 k i s} _.

(** The state the loop of a run with page limit [N] is left in. *)
Definition drained (N : nat) (s : Program) : Prop :=
  mReadoutCounter s = Z.of_nat N
  /\ mPushCounter s = Z.of_nat N
  /\ mQueue s = []
  /\ mDmaLoopBreak s = false
  /\ mHandlingSigint s = false
  /\ mPushEnabled s = true.

(** ** Concrete inputs *)


(** The program object an outcome carries. *)
Definition stateOf {A} (o : Outcome A) : Program :=
  match o with
  | Return _ s => s
  | Throw _ s => s
  | OutOfFuel s => s
  end.

(** No file output, no checking, not verbose. *)
Definition plainOptions (limit : Z) (legacy : bool) : Options :=
  {| maxPages := limit;
     fileOutputAscii := false;
     fileOutputBin := false;
     resyncCounter := false;
     legacyAck := legacy;
     generatorPattern := Incremental;
     checkError := false;
     isVerbose := false |}.

(** Pattern checking switched on. *)
Definition checkingOptions (verbose : bool) : Options :=
  {| maxPages := 0;
     fileOutputAscii := false;
     fileOutputBin := false;
     resyncCounter := false;
     legacyAck := false;
     generatorPattern := Incremental;
     checkError := true;
     isVerbose := verbose |}.

(** [n] pages laid out after the page that holds the FIFO. *)
Definition pageAddressesOf (n : nat) : list PageAddress :=
  map (fun i => mkPageAddress (0x7f0000000000 + DMA_PAGE_SIZE * Z.of_nat i)
                  (0x40000000 + DMA_PAGE_SIZE * Z.of_nat i))
    (seq 1 n).

(** The page that holds the FIFO. *)
Definition fifoAddressOf : PageAddress :=
  mkPageAddress 0x7f0000000000 0x40000000.

(** The program object as [initDma] leaves it with a buffer of 130 pages; the
    page contents are given by [mem]. *)
Definition readyProgram (o : Options) (mem : list PageBuffer) : Program :=
  set_mInfinitePages (maxPages o <=? 0)
    (set_mFifoAddress fifoAddressOf
       (set_mPageAddresses (pageAddressesOf 130)
          (newProgram o (repeat false 128) (repeat (mkDescriptor 0 0 0) 128)
             mem))).

(** The first handle pushed. *)
Definition handle0 : Handle := mkHandle 0 0.

(** A quiet turn of the loop; the card marks the descriptors [arrived]. *)
Definition quietEnv (arrived : list Z) : Env :=
  {| hwWrites := [];
     hwArrived := arrived;
     isMaxExceeded := false;
     isSigInt := false;
     nowSigintStart := 0;
     nowTimeoutCheck := 0 |}.

(** One page pushed by the first [fillReadoutQueue] and arrived. *)
Definition onePageArrived : Program :=
  card (quietEnv [0])
    (stateOf (fillReadoutQueue (readyProgram (plainOptions 1 false) []))).

(** A page that carries the incremental pattern from [counter] on: [n]
    words from word [i]. *)
Fixpoint incrementalWords (n : nat) (i counter : Z) : PageBuffer :=
  match n with
  | O => []
  | S n' =>
      (if i mod 8 =? 0 then counter + i / 8 else BUFFER_DEFAULT_VALUE)
      :: incrementalWords n' (i + 1) counter
  end.

(** A whole page of the incremental pattern. *)
Definition incrementalPage (counter : Z) : PageBuffer :=
  incrementalWords (Z.to_nat DMA_PAGE_SIZE_32) 0 counter.

(** A program that checks the incremental pattern, with one page of it in
    memory. *)
Definition checkingProgram (verbose : bool) : Program :=
  readyProgram (checkingOptions verbose) [incrementalPage 100].

(** Five pages read out in legacy mode: one acknowledgment, after the fourth
    page; the fifth page is never acknowledged. *)
Definition legacyRunOfFive : Outcome LoopExit :=
  runDma (repeat (quietEnv [0; 1; 2; 3; 4]) 6)
    (readyProgram (plainOptions 5 true) []).

(** Nine pages read out in legacy mode: two acknowledgments, after the
    fourth and after the eighth page; the ninth page is never acknowledged. *)
Definition legacyRunOfNine : Outcome LoopExit :=
  runDma (repeat (quietEnv [0; 1; 2; 3; 4; 5; 6; 7; 8]) 10)
    (readyProgram (plainOptions 9 true) []).

(** Every turn quiet, and the card reports the five descriptors in each. *)
Definition allArriveEnv (i : nat) : Env := quietEnv [0; 1; 2; 3; 4].

(** A partition of exactly [NUM_PAGES] pages, one short. *)
Definition shortPartition : PageAddress * list PageAddress :=
  (fifoAddressOf, pageAddressesOf 128).

(** The program object before [initDma]. *)
Definition freshProgram : Program :=
  newProgram (plainOptions 5 false) (repeat false 128)
    (repeat (mkDescriptor 0 0 0) 128) [].

(** The temperature flag is up. *)
Definition hotEnv : Env :=
  {| hwWrites := [];
     hwArrived := [];
     isMaxExceeded := true;
     isSigInt := false;
     nowSigintStart := 0;
     nowTimeoutCheck := 0 |}.

(** A run in infinite mode whose low priority check is due. *)
Definition checkDue : Program :=
  set_mLowPriorityCounter LOW_PRIORITY_INTERVAL
    (readyProgram (plainOptions 0 false) []).

(** ** The verdict of the validator *)

(** The value the validator expects in word [i] of a page: the pattern
    functions [checkErrors] hands to [check]. *)
Definition expectedWord (p : GeneratorPattern) (counter i : Z) : Z :=
  match p with
  | Incremental => wrap32 (counter + i / 8)
  | Alternating => 0xa5a5a5a5
  | Constant => 0x12345678
  | _ => 0
  end.

(** Word [8 * k] of the page holds the expected value. *)
Definition wordPasses (p : GeneratorPattern) (counter : Z) (page : PageBuffer)
  (k : Z) : bool :=
  pageWord page (8 * k) =? expectedWord p counter (8 * k).

(** The page holds the expected value at each of the 256 words that are
    [PATTERN_STRIDE] apart. *)
Definition pagePasses (p : GeneratorPattern) (counter : Z) (page : PageBuffer)
  : bool :=
  forallb (fun k => wordPasses p counter page (Z.of_nat k)) (seq 0 256).

(** ** The descriptor table after initialization *)

(** The descriptor [setDescriptor (d, d)] writes: a whole page, from the card
    buffer [d % NUM_OF_BUFFERS], to the page at bus address [destination]. *)
Definition safeDescriptor (d destination : Z) : Descriptor :=
  mkDescriptor DMA_PAGE_SIZE_32 (Z.rem d NUM_OF_BUFFERS * DMA_PAGE_SIZE)
    destination.

(** The program object after a successful [initFifo] that left [table] in
    the descriptor table. *)
Definition afterInitFifo (partition : PageAddress * list PageAddress)
  (table : list Descriptor) (s : Program) : Program :=
  set_descriptorEntries table
    (set_statusEntries (resetStatusEntries (statusEntries s))
       (addressesStored partition s)).

(** ** The rings of descriptors and pages *)

(** The number of pages of the DMA buffer. *)
Definition pageCount (s : Program) : Z :=
  Z.of_nat (length (mPageAddresses s)).

(** The handle of the [k]-th push of a run, counted from 0, over a buffer of
    [pages] pages. *)
Definition handleOfPush (pages : Z) (k : nat) : Handle :=
  mkHandle (Z.of_nat k mod NUM_PAGES) (Z.of_nat k mod pages).

(** The program object [runDma] is entered with: nothing pushed, both ring
    counters at their initial value, and a buffer whose pages an [int] can
    index. *)
Definition ringsAtStart (s0 : Program) : Prop :=
  startOfRun s0
  /\ 0 < pageCount s0 < 2 ^ 31
  /\ mDescriptorCounter s0 = 0
  /\ mPageIndexCounter s0 = 0.

(** What holds of the two ring counters in every state of a run. *)
Record RingInvariant (s0 s : Program) : Prop := {
  ring_addresses : mPageAddresses s = mPageAddresses s0;
  ring_pushed : 0 <= mPushCounter s;
  ring_descriptor : mDescriptorCounter s = mPushCounter s mod NUM_PAGES;
  ring_page : mPageIndexCounter s = mPushCounter s mod pageCount s0;
  ring_pushes :
    pushes (trace s)
    = map (handleOfPush (pageCount s0)) (seq 0 (Z.to_nat (mPushCounter s)))
}.

(** ** Low priority calls *)

(** [lowPriorityTasks] called once per element of [envs], first to last. *)
Definition lowPriorityCalls (envs : list Env) (s : Program) : Program :=
  foldl (fun s e => lowPriorityTasks e s) s envs.

(** SIGINT is raised; no page arrives. *)
Definition sigintEnv : Env :=
  {| hwWrites := [];
     hwArrived := [];
     isMaxExceeded := false;
     isSigInt := true;
     nowSigintStart := 0;
     nowTimeoutCheck := 0 |}.

(** ** The error log *)

(** What the validator reads and writes of the program object. *)
Definition errorLog (s : Program) : Options * Z * list ErrorLine :=
  (opts s, mErrorCount s, mErrorStream s).

(** One more error: counted, and put on the error stream when the program is
    verbose and the count is still below [MAX_RECORDED_ERRORS]. *)
Definition oneMoreError (line : ErrorLine) (l : Options * Z * list ErrorLine)
  : Options * Z * list ErrorLine :=
  (l.1.1, l.1.2 + 1,
   if isVerbose l.1.1 && (l.1.2 + 1 <? MAX_RECORDED_ERRORS)
   then l.2 ++ [line] else l.2).

(** The validator leaves the log as it was, or reports one error. *)
Definition logStep (l l' : Options * Z * list ErrorLine) : Prop :=
  l' = l \/ exists line, l' = oneMoreError line l.

(** The number of lines on the error stream after [errorCount] errors. *)
Definition recordedErrors (verbose : bool) (errorCount : Z) : Z :=
  if verbose then Z.min errorCount (MAX_RECORDED_ERRORS - 1) else 0.

(** What holds of the error log in every state of a run. *)
Record ErrorLogInvariant (s : Program) : Prop := {
  log_count : 0 <= mErrorCount s <= mReadoutCounter s;
  log_lines :
    Z.of_nat (length (mErrorStream s))
    = recordedErrors (isVerbose (opts s)) (mErrorCount s);
  log_unchecked : checkError (opts s) = false -> mErrorCount s = 0
}.

(** ** Keeping the queue filled *)

(** One push at most is missing for [shouldPushQueue] to say no: the queue
    has room for one page at most, or the page limit allows one push at
    most, or pushing is disabled. *)
Definition nearlyFilled (s : Program) : Prop :=
  NUM_PAGES - 1 <= queueSize s
  \/ (mInfinitePages s = false /\ maxPages (opts s) - 1 <= mPushCounter s)
  \/ mPushEnabled s = false.

(** ** The program object [run] enters the loop with *)

(** The program object when [initDma] comes to [initCard]: [mInfinitePages]
    set from the page limit, the addresses stored, the status entries reset,
    [table] in the descriptor table and the pages of the buffer reset. *)
Definition afterInitDma (partition : PageAddress * list PageAddress)
  (table : list Descriptor) (s : Program) : Program :=
  resetBuffer
    (afterInitFifo partition table
       (set_mInfinitePages (maxPages (opts s) <=? 0) s)).

(** The registers [initCard] writes once the alignment is accepted: the
    generator pattern is the last of them, and only when checking is on. *)
Definition initCardCalls (s : Program) : list BarCall :=
  [SetFifoBusAddress (bus (mFifoAddress s)); SetFifoCardAddress;
   SetDescriptorTableSize; SetDoneControl]
  ++ (if checkError (opts s)
      then [SetDataGeneratorPattern (generatorPattern (opts s))] else []).

(** The program object after [initCard]. *)
Definition afterInitCard (s : Program) : Program :=
  set_barCalls (barCalls s ++ initCardCalls s) s.

(** A FIFO page that is not 32-byte aligned, in front of 130 pages. *)
Definition misalignedPartition : PageAddress * list PageAddress :=
  (mkPageAddress 0x7f0000000000 0x40000010, pageAddressesOf 130).

(** Checking switched on with a pattern [checkErrors] has no case for. *)
Definition randomPatternOptions : Options :=
  {| maxPages := 1;
     fileOutputAscii := false;
     fileOutputBin := false;
     resyncCounter := false;
     legacyAck := false;
     generatorPattern := Random;
     checkError := true;
     isVerbose := false |}.

(** One page pushed by the first [fillReadoutQueue] of such a run. *)
Definition randomPatternProgram : Program :=
  stateOf (fillReadoutQueue (readyProgram randomPatternOptions [])).

(** Every turn quiet, and the card reports the first three descriptors. *)
Definition threeArriveEnv (i : nat) : Env := quietEnv [0; 1; 2].

(** ** The pages in the file *)

(** The page number and the page index of a page written to the file; the
    event number of a call of the validator. *)
Definition filedPage (e : Event) : option (Z * Z) :=
  match e with EvPrintToFile _ n i _ => Some (n, i) | _ => None end.
Definition checkedEvent (e : Event) : option Z :=
  match e with EvCheckErrors n _ => Some n | _ => None end.

Definition filed (t : list Event) : list (Z * Z) := omap filedPage t.
Definition checked (t : list Event) : list Z := omap checkedEvent t.

(** 0, 1, ..., [n - 1]. *)
Definition countingUp (n : Z) : list Z := map Z.of_nat (seq 0 (Z.to_nat n)).

(** What holds of the file and of the validator calls in every state of a
    run. *)
Record FileInvariant (s : Program) : Prop := {
  file_counter : 0 <= mReadoutCounter s;
  file_numbers :
    map fst (filed (trace s))
    = if fileOutputAscii (opts s) || fileOutputBin (opts s)
      then countingUp (mReadoutCounter s) else [];
  file_pages :
    map snd (filed (trace s))
    = if fileOutputAscii (opts s) || fileOutputBin (opts s)
      then map pageIndex (pops (trace s)) else [];
  file_checked :
    checked (trace s)
    = if checkError (opts s) then countingUp (mReadoutCounter s) else []
}.

(** One page, written to the binary file and checked. *)
Definition binaryFileOptions : Options :=
  {| maxPages := 1;
     fileOutputAscii := false;
     fileOutputBin := true;
     resyncCounter := false;
     legacyAck := false;
     generatorPattern := Incremental;
     checkError := true;
     isVerbose := false |}.

Definition binaryFileRun : Outcome LoopExit :=
  runDma (repeat (quietEnv [0]) 2) (readyProgram binaryFileOptions []).

(** ** A run that is left alone *)

(** The handle names a slot of the descriptor table. *)
Definition inRing (h : Handle) : Prop := 0 <= descriptorIndex h < NUM_PAGES.

(** What a run keeps of the shape of its data. *)
Record Shape (s0 s : Program) : Prop := {
  shape_wellFormed : wellFormed s;
  shape_queue : Forall inRing (mQueue s);
  shape_status : length (statusEntries s) = length (statusEntries s0)
}.

(** A page-limited run that nothing has asked to stop, with [k] pages read
    out. *)
Record Reading (s0 : Program) (k : nat) (s : Program) : Prop := {
  rd_reachable : reachable s0 s;
  rd_readout : mReadoutCounter s = Z.of_nat k;
  rd_finite : mInfinitePages s = false;
  rd_no_break : mDmaLoopBreak s = false;
  rd_no_sigint : mHandlingSigint s = false;
  rd_push_enabled : mPushEnabled s = true
}.

Arguments rd_reachable {s0 k s} _.
Arguments rd_readout {s0 k s} _.
Arguments rd_finite {s0 k s} _.
Arguments rd_no_break {s0 k s} _.
Arguments rd_no_sigint {s0 k s} _.
Arguments rd_push_enabled {s0 k s} _.

(** Every turn quiet, and the card reports every descriptor in each. *)
Definition everyDescriptorEnv (i : nat) : Env :=
  quietEnv (map Z.of_nat (seq 0 (Z.to_nat NUM_PAGES))).

(** * Properties *)

(** ** DataFormat *)

Module DataFormatFacts.
Import DataFormat.




End DataFormatFacts.



(** ** Running the monad in proofs *)

Ltac unfold_m :=
  unfold bind, get, modify, when, ret, throw, outOfFuel in *.

Lemma bind_Return {A B} (m : M A) (f : A -> M B) s a s' :
  m s = Return a s' -> bind m f s = f a s'.
Proof. intros H. unfold bind. rewrite H. reflexivity. Qed.

Lemma bind_Return_inv {A B} (m : M A) (f : A -> M B) s b s' :
  bind m f s = Return b s' ->
  exists a s1, m s = Return a s1 /\ f a s1 = Return b s'.
Proof.
  unfold bind. destruct (m s) as [a s1|e s1|s1]; intros H; try discriminate.
  exists a, s1. split; [reflexivity | exact H].
Qed.

Lemma bind_get {B} (f : Program -> M B) s : bind get f s = f s s.
Proof. reflexivity. Qed.

Lemma bind_modify {B} (g : Program -> Program) (f : unit -> M B) s :
  bind (modify g) f s = f tt (g s).
Proof. reflexivity. Qed.

Lemma bind_ret {A B} (a : A) (f : A -> M B) s : bind (ret a) f s = f a s.
Proof. reflexivity. Qed.

Lemma when_modify b (g : Program -> Program) s :
  when b (modify g) s = Return tt (if b then g s else s).
Proof. destruct b; reflexivity. Qed.

Lemma bind_when_modify {B} b (g : Program -> Program) (f : unit -> M B) s :
  bind (when b (modify g)) f s = f tt (if b then g s else s).
Proof. destruct b; reflexivity. Qed.

Lemma bind_assoc {A B C} (m : M A) (f : A -> M B) (g : B -> M C) s :
  bind (bind m f) g s = bind m (fun a => bind (f a) g) s.
Proof. unfold bind. destruct (m s); reflexivity. Qed.

Ltac msimpl :=
  repeat first
    [ rewrite bind_assoc | rewrite bind_get | rewrite bind_modify
    | rewrite bind_ret | rewrite bind_when_modify | rewrite when_modify ].

(** ** The page validator *)

Section Validator.

Variable patternFunction : Z -> Z.
Variable h : Handle.
Variable eventNumber : Z.

Lemma checkLoop_unfold (fuel : nat) (i : Z) (s : Program) :
  checkLoop (S fuel) patternFunction h eventNumber i s =
  if i <? DMA_PAGE_SIZE_32 then
    if pageWord (getPage h s) i =? patternFunction i then
      checkLoop fuel patternFunction h eventNumber (wrap32 (i + PATTERN_STRIDE)) s
    else
      Return true
        (reportError eventNumber h i (patternFunction i)
           (pageWord (getPage h s) i) s)
  else Return false s.
Proof.
  simpl. destruct (i <? DMA_PAGE_SIZE_32); [|reflexivity].
  unfold_m. destruct (pageWord (getPage h s) i =? patternFunction i); reflexivity.
Qed.

Lemma next_offset (k : Z) :
  0 <= k < 256 -> wrap32 (8 * k + PATTERN_STRIDE) = 8 * (k + 1).
Proof.
  intros Hk. unfold wrap32, PATTERN_STRIDE. rewrite Z.mod_small; lia.
Qed.

Lemma offset_in_page (k : Z) :
  0 <= k -> (8 * k <? DMA_PAGE_SIZE_32) = (k <? 256).
Proof.
  intros Hk. change DMA_PAGE_SIZE_32 with 2048.
  destruct (Z.ltb_spec (8 * k) 2048), (Z.ltb_spec k 256); lia || reflexivity.
Qed.

(** The loop stops at the first checked word that differs from the pattern,
    counts it as one error and returns [true]. *)
Lemma checkLoop_first_mismatch (s : Program) (k0 : Z) :
  forall (fuel : nat) (k : Z),
    0 <= k <= k0 -> k0 < 256 ->
    (Z.to_nat (k0 - k) < fuel)%nat ->
    (forall j, k <= j < k0 ->
       pageWord (getPage h s) (8 * j) = patternFunction (8 * j)) ->
    pageWord (getPage h s) (8 * k0) <> patternFunction (8 * k0) ->
    checkLoop fuel patternFunction h eventNumber (8 * k) s =
    Return true
      (reportError eventNumber h (8 * k0) (patternFunction (8 * k0))
         (pageWord (getPage h s) (8 * k0)) s).
Proof.
  induction fuel as [|fuel IH]; intros k Hk Hk0 Hfuel Hsame Hdiff; [lia|].
  rewrite checkLoop_unfold, offset_in_page by lia.
  destruct (Z.ltb_spec k 256); [|lia].
  destruct (decide (k = k0)) as [->|Hne].
  - destruct (Z.eqb_spec (pageWord (getPage h s) (8 * k0))
                (patternFunction (8 * k0))); [contradiction | reflexivity].
  - rewrite (Hsame k), Z.eqb_refl by lia.
    rewrite next_offset by lia. apply IH; try lia.
    intros j Hj. apply Hsame. lia.
Qed.

(** A page that carries the pattern at every checked word passes, and the
    program object is left as it was. *)
Lemma checkLoop_clean (s : Program) :
  forall (fuel : nat) (k : Z),
    0 <= k <= 256 ->
    (Z.to_nat (256 - k) < fuel)%nat ->
    (forall j, k <= j < 256 ->
       pageWord (getPage h s) (8 * j) = patternFunction (8 * j)) ->
    checkLoop fuel patternFunction h eventNumber (8 * k) s = Return false s.
Proof.
  induction fuel as [|fuel IH]; intros k Hk Hfuel Hsame; [lia|].
  rewrite checkLoop_unfold, offset_in_page by lia.
  destruct (Z.ltb_spec k 256); [|reflexivity].
  rewrite (Hsame k), Z.eqb_refl by lia.
  rewrite next_offset by lia. apply IH; try lia.
  intros j Hj. apply Hsame. lia.
Qed.

(** With the budget [check] gives it, the loop always returns: either the
    page passes and nothing changes, or one error is reported. *)
Lemma checkLoop_returns (s : Program) :
  forall (fuel : nat) (k : Z),
    0 <= k <= 256 ->
    (Z.to_nat (256 - k) < fuel)%nat ->
    checkLoop fuel patternFunction h eventNumber (8 * k) s = Return false s
    \/ exists i,
         checkLoop fuel patternFunction h eventNumber (8 * k) s =
         Return true
           (reportError eventNumber h i (patternFunction i)
              (pageWord (getPage h s) i) s).
Proof.
  induction fuel as [|fuel IH]; intros k Hk Hfuel; [lia|].
  rewrite checkLoop_unfold, offset_in_page by lia.
  destruct (Z.ltb_spec k 256); [|left; reflexivity].
  destruct (pageWord (getPage h s) (8 * k) =? patternFunction (8 * k)).
  - rewrite next_offset by lia. apply IH; lia.
  - right. eexists. reflexivity.
Qed.

Lemma check_budget : (Z.to_nat (256 - 0) < S (Z.to_nat DMA_PAGE_SIZE_32))%nat.
Proof. change DMA_PAGE_SIZE_32 with 2048. lia. Qed.

Lemma check_returns (s : Program) :
  check patternFunction h eventNumber s = Return false s
  \/ exists i,
       check patternFunction h eventNumber s =
       Return true
         (reportError eventNumber h i (patternFunction i)
            (pageWord (getPage h s) i) s).
Proof.
  unfold check. change 0 with (8 * 0).
  apply checkLoop_returns; [lia | apply check_budget].
Qed.

End Validator.

Lemma checkErrors_recognized p h eventNumber counter s :
  recognized p = true ->
  checkErrors p h eventNumber counter s = Return false s
  \/ exists i expectedValue,
       checkErrors p h eventNumber counter s =
       Return true
         (reportError eventNumber h i expectedValue (pageWord (getPage h s) i) s).
Proof.
  intros Hp. destruct p; try discriminate; simpl;
    match goal with |- check ?f _ _ _ = _ \/ _ =>
      destruct (check_returns f h eventNumber s) as [H|[i H]]
    end; rewrite H; [left|right; eauto|left|right; eauto|left|right; eauto];
    reflexivity.
Qed.

(** C7. The validator throws exactly when the pattern kind is none of
    incremental, alternating, constant (and then throws the unrecognized
    pattern exception, with the program object untouched); for each of the
    three kinds it returns a verdict, whatever the page holds. *)
Theorem checkErrors_throws_iff_unrecognized (p : GeneratorPattern)
  (h : Handle) (eventNumber counter : Z) (s : Program) :
  (checkErrors p h eventNumber counter s = Throw (UnrecognizedGeneratorPattern p) s
   <-> recognized p = false)
  /\ ((exists e s', checkErrors p h eventNumber counter s = Throw e s')
      <-> recognized p = false)
  /\ ((exists hasError s',
         checkErrors p h eventNumber counter s = Return hasError s')
      <-> recognized p = true).
Proof.
  destruct (recognized p) eqn:Hp.
  - assert (Hret : exists hasError s',
               checkErrors p h eventNumber counter s = Return hasError s').
    { destruct (checkErrors_recognized p h eventNumber counter s Hp)
        as [H|(i & x & H)]; eauto. }
    destruct Hret as (b & s' & Hret).
    split; [|split].
    + split; [rewrite Hret|]; discriminate.
    + split; [intros (e & s1 & H); rewrite Hret in H|]; discriminate.
    + split; [reflexivity | eauto].
  - assert (Hthrow : checkErrors p h eventNumber counter s
                     = Throw (UnrecognizedGeneratorPattern p) s)
      by (destruct p; try discriminate; reflexivity).
    split; [|split].
    + split; [reflexivity | intros _; exact Hthrow].
    + split; [reflexivity | eauto].
    + split; [intros (b & s' & H); rewrite Hthrow in H|]; discriminate.
Qed.

(** *** The incremental pattern, counter 100 *)

Lemma lookupZ_Some_range {A} (i : Z) (l : list A) (x : A) :
  lookupZ i l = Some x -> 0 <= i < Z.of_nat (length l).
Proof.
  unfold lookupZ. destruct (Z.leb_spec 0 i) as [Hi|Hi]; [|discriminate].
  intros Hl. apply lookup_lt_Some in Hl. lia.
Qed.

Lemma lookupZ_insertZ_eq {A} (i : Z) (l : list A) (x : A) :
  0 <= i < Z.of_nat (length l) -> lookupZ i (insertZ i x l) = Some x.
Proof.
  intros Hi. unfold lookupZ, insertZ.
  destruct (Z.leb_spec 0 i); [|lia].
  apply list_lookup_insert_eq. lia.
Qed.

Lemma lookupZ_insertZ_ne {A} (i j : Z) (l : list A) (x : A) :
  i <> j -> lookupZ j (insertZ i x l) = lookupZ j l.
Proof.
  intros Hne. unfold lookupZ, insertZ.
  destruct (Z.leb_spec 0 j); [|reflexivity].
  destruct (Z.leb_spec 0 i); [|reflexivity].
  apply list_lookup_insert_ne. lia.
Qed.

Lemma length_insertZ {A} (i : Z) (l : list A) (x : A) :
  length (insertZ i x l) = length l.
Proof. unfold insertZ. destruct (0 <=? i); [apply length_insert|reflexivity]. Qed.

Lemma pageWord_nonzero_range (page : PageBuffer) (i : Z) :
  pageWord page i <> 0 -> 0 <= i < Z.of_nat (length page).
Proof.
  unfold pageWord. destruct (lookupZ i page) as [w|] eqn:Hl; simpl.
  - intros _. eapply lookupZ_Some_range; eauto.
  - intros H. contradiction.
Qed.

Lemma getPage_nonempty_range (h : Handle) (s : Program) :
  getPage h s <> [] -> 0 <= pageIndex h < Z.of_nat (length (pageMemory s)).
Proof.
  unfold getPage. destruct (lookupZ _ _) as [pg|] eqn:Hl; simpl.
  - intros _. eapply lookupZ_Some_range; eauto.
  - intros H. contradiction.
Qed.

Lemma getPage_pokeWord (i v : Z) (h : Handle) (s : Program) :
  0 <= pageIndex h < Z.of_nat (length (pageMemory s)) ->
  getPage h (pokeWord i v h s) = insertZ i v (getPage h s).
Proof.
  intros Hr. unfold getPage at 1, pokeWord. simpl.
  rewrite lookupZ_insertZ_eq by exact Hr. reflexivity.
Qed.

Lemma incremental_expected (k : Z) :
  0 <= k < 256 -> wrap32 (100 + 8 * k / 8) = 100 + k.
Proof.
  intros Hk. rewrite (Z.mul_comm 8 k), Z.div_mul by lia.
  unfold wrap32. apply Z.mod_small. lia.
Qed.

(** C6, as the code has it. With the incremental pattern and counter 100, a
    page whose every 8th word [i] holds [100 + i/8] passes: [checkErrors]
    returns [false] and changes nothing.  The same page with word 8 set to
    999 fails at word 8 and no further: [checkErrors] returns [true] and
    [mErrorCount] goes up by exactly one.  A line with offset 8, expected 101
    and actual 999 is appended to the error stream when the program is verbose
    and the new error count is below [MAX_RECORDED_ERRORS]; otherwise the
    error stream is left as it was. *)
Theorem incremental_check_counter_100 (s : Program) (h : Handle)
  (eventNumber : Z) :
  (forall k, 0 <= k < 256 -> pageWord (getPage h s) (8 * k) = 100 + k) ->
  checkErrors Incremental h eventNumber 100 s = Return false s
  /\ exists s',
       checkErrors Incremental h eventNumber 100 (pokeWord 8 999 h s)
       = Return true s'
       /\ mErrorCount s' = mErrorCount s + 1
       /\ mErrorStream s' =
          (if isVerbose (opts s) && (mErrorCount s + 1 <? MAX_RECORDED_ERRORS)
           then mErrorStream s
                ++ [mkErrorLine eventNumber (pageIndex h) 8 101 999]
           else mErrorStream s)
       /\ pageMemory s' = pageMemory (pokeWord 8 999 h s)
       /\ trace s' = trace s.
Proof.
  intros Hgood. split.
  - unfold checkErrors, check. change 0 with (8 * 0) at 1.
    apply checkLoop_clean; [lia | apply check_budget |].
    intros j Hj. rewrite incremental_expected by lia. apply Hgood. lia.
  - assert (H8 : 0 <= 8 < Z.of_nat (length (getPage h s))).
    { apply pageWord_nonzero_range.
      pose proof (Hgood 1 ltac:(lia)) as H1. change (8 * 1) with 8 in H1.
      rewrite H1. lia. }
    assert (Hp : 0 <= pageIndex h < Z.of_nat (length (pageMemory s))).
    { apply getPage_nonempty_range. intros E. rewrite E in H8. simpl in H8. lia. }
    set (bad := pokeWord 8 999 h s).
    assert (Hw0 : pageWord (getPage h bad) (8 * 0) = 100).
    { unfold bad. rewrite getPage_pokeWord by exact Hp. unfold pageWord.
      rewrite lookupZ_insertZ_ne by lia. apply (Hgood 0). lia. }
    assert (Hw8 : pageWord (getPage h bad) (8 * 1) = 999).
    { unfold bad. rewrite getPage_pokeWord by exact Hp. unfold pageWord.
      change (8 * 1) with 8. rewrite lookupZ_insertZ_eq by exact H8.
      reflexivity. }
    exists (reportError eventNumber h 8 101 999 bad). split.
    + unfold checkErrors, check. change 0 with (8 * 0) at 1.
      rewrite (checkLoop_first_mismatch _ h eventNumber bad 1).
      * rewrite Hw8. reflexivity.
      * lia.
      * lia.
      * change DMA_PAGE_SIZE_32 with 2048. lia.
      * intros j Hj. assert (j = 0) as -> by lia.
        rewrite Hw0. reflexivity.
      * rewrite Hw8. rewrite incremental_expected by lia. lia.
    + unfold reportError. simpl.
      destruct (isVerbose (opts s) && (mErrorCount s + 1 <? MAX_RECORDED_ERRORS));
        simpl; repeat split; reflexivity.
Qed.

(** ** What one operation changes *)

Lemma program_eta (s : Program) :
  s = Build_Program (opts s) (mInfinitePages s) (mPageAddresses s)
        (mFifoAddress s) (statusEntries s) (descriptorEntries s) (pageMemory s)
        (mPushCounter s) (mReadoutCounter s) (mDataGeneratorCounter s)
        (mDescriptorCounter s) (mPageIndexCounter s) (mErrorCount s)
        (mErrorStream s) (mDmaLoopBreak s) (mHandlingSigint s)
        (mHandlingSigintStart s) (mPushEnabled s) (mLowPriorityCounter s)
        (mQueue s) (mLastFillSize s) (trace s) (barCalls s).
Proof. destruct s. reflexivity. Qed.

Lemma reportError_effect eventNumber h i x y s :
  exists es, reportError eventNumber h i x y s = withErrors (mErrorCount s + 1) es s.
Proof.
  unfold reportError, withErrors. simpl.
  destruct (isVerbose (opts s) && (mErrorCount s + 1 <? MAX_RECORDED_ERRORS));
    eexists; destruct s; reflexivity.
Qed.

Lemma checkErrors_effect p h eventNumber counter s hasError s' :
  checkErrors p h eventNumber counter s = Return hasError s' ->
  recognized p = true /\ exists ec es, s' = withErrors ec es s.
Proof.
  intros Hret.
  destruct (recognized p) eqn:Hp.
  - split; [reflexivity|].
    destruct (checkErrors_recognized p h eventNumber counter s Hp)
      as [H|(i & x & H)]; rewrite H in Hret; inversion Hret; subst.
    + exists (mErrorCount s'), (mErrorStream s'). destruct s'. reflexivity.
    + destruct (reportError_effect eventNumber h i x
                  (pageWord (getPage h s) i) s) as [es Hes].
      eauto.
  - destruct p; try discriminate; simpl in Hret; discriminate.
Qed.

Lemma dataErrorChecking_effect h s s' :
  dataErrorChecking h s = Return tt s' ->
  recognized (generatorPattern (opts s)) = true
  /\ exists c ec es, s' = afterChecking h c ec es s.
Proof.
  unfold dataErrorChecking.
  rewrite bind_assoc, bind_get, bind_when_modify, bind_get, bind_modify.
  set (s1 := if mDataGeneratorCounter s =? -1 then syncCounter h s else s).
  assert (Hs1 : exists c, s1 = set_mDataGeneratorCounter c s).
  { unfold s1. destruct (mDataGeneratorCounter s =? -1).
    - eexists. reflexivity.
    - exists (mDataGeneratorCounter s). destruct s. reflexivity. }
  destruct Hs1 as [c1 Hs1]. clearbody s1. subst s1.
  unfold bind at 1.
  destruct (checkErrors _ _ _ _ _) as [b s2|e s2|s2] eqn:Hc; try discriminate.
  apply checkErrors_effect in Hc. destruct Hc as [Hrec (ec & es & ->)].
  simpl in Hrec. split; [exact Hrec|].
  rewrite when_modify in H. inversion H; subst s'.
  destruct (b && _);
    eexists _, _, _; unfold afterChecking, withErrors, syncCounter, emit;
    destruct s; reflexivity.
Qed.

(** Assignments and member reads, evaluated innermost first. *)
Ltac eval_members :=
  cbv beta iota delta
    [
     set_mInfinitePages set_mPageAddresses set_mFifoAddress
     set_statusEntries set_descriptorEntries set_pageMemory
     set_mPushCounter set_mReadoutCounter set_mDataGeneratorCounter
     set_mDescriptorCounter set_mPageIndexCounter set_mErrorCount
     set_mErrorStream set_mDmaLoopBreak set_mHandlingSigint
     set_mHandlingSigintStart set_mPushEnabled set_mLowPriorityCounter
     set_mQueue set_mLastFillSize set_trace
     opts mInfinitePages mPageAddresses mFifoAddress statusEntries
     descriptorEntries pageMemory mPushCounter mReadoutCounter
     mDataGeneratorCounter mDescriptorCounter mPageIndexCounter mErrorCount
     mErrorStream mDmaLoopBreak mHandlingSigint mHandlingSigintStart
     mPushEnabled mLowPriorityCounter mQueue mLastFillSize trace
     emit
    ].

(** Two program objects built from the same one by assignments are equal
    when their members are. *)
Ltac program_eq :=
  eval_members; rewrite <- ?app_assoc; simpl; reflexivity.

Lemma printToFile_effect h s :
  (if fileOutputAscii (opts s) || fileOutputBin (opts s)
   then printToFile h (mReadoutCounter s) s else s)
  = set_trace (trace s ++ fileEvents h s) s.
Proof.
  unfold printToFile, fileEvents, emit.
  destruct (fileOutputAscii (opts s)), (fileOutputBin (opts s)); simpl;
    rewrite ?app_nil_r; destruct s; reflexivity.
Qed.

Lemma readoutPage_effect h s s' :
  readoutPage h s = Return tt s' ->
  validatorCanRun s = true
  /\ exists c ec es, s' = afterReadoutPage h c ec es s.
Proof.
  unfold readoutPage, validatorCanRun. intros Hret.
  rewrite bind_assoc, bind_get, bind_when_modify, printToFile_effect in Hret.
  rewrite bind_assoc, bind_get in Hret. simpl opts in Hret.
  destruct (checkError (opts s)) eqn:Hce; simpl when in Hret.
  - apply bind_Return_inv in Hret. destruct Hret as ([] & s1 & Hchk & Hret).
    apply dataErrorChecking_effect in Hchk.
    destruct Hchk as [Hrec (c & ec & es & ->)].
    simpl in Hrec. split; [exact Hrec|].
    msimpl. rewrite !bind_modify in Hret. unfold modify in Hret.
    inversion Hret; subst s'. exists (c + 256), ec, es.
    unfold afterReadoutPage, readoutPageEvents, checkEvents, fileEvents,
      countReadout, resetStatusEntry, resetPage, afterChecking, withErrors,
      emit, getPage.
    rewrite Hce. destruct s. program_eq.
  - split; [reflexivity|].
    rewrite bind_ret, !bind_modify in Hret. unfold modify in Hret.
    inversion Hret; subst s'.
    exists (mDataGeneratorCounter s + 256), (mErrorCount s), (mErrorStream s).
    unfold afterReadoutPage, readoutPageEvents, checkEvents, fileEvents,
      countReadout, resetStatusEntry, resetPage, withErrors, emit, getPage.
    rewrite Hce. destruct s. program_eq.
Qed.

Lemma dataErrorChecking_total h s :
  recognized (generatorPattern (opts s)) = true ->
  exists s', dataErrorChecking h s = Return tt s'.
Proof.
  intros Hrec. unfold dataErrorChecking.
  rewrite bind_assoc, bind_get, bind_when_modify, bind_get, bind_modify.
  set (s1 := if mDataGeneratorCounter s =? -1 then syncCounter h s else s).
  assert (Ho : opts s1 = opts s)
    by (unfold s1; destruct (_ =? _); reflexivity).
  rewrite Ho. unfold bind.
  edestruct (checkErrors_recognized (generatorPattern (opts s)) h
               (mReadoutCounter s1) (wrap32 (mDataGeneratorCounter s1))
               (emit (EvCheckErrors (mReadoutCounter s1) h) s1) Hrec)
    as [H|(i & x & H)]; rewrite H, when_modify; eauto.
Qed.

Lemma readoutPage_total h s :
  validatorCanRun s = true -> exists s', readoutPage h s = Return tt s'.
Proof.
  unfold validatorCanRun, readoutPage. intros Hok.
  rewrite bind_assoc, bind_get, bind_when_modify, printToFile_effect.
  rewrite bind_assoc, bind_get. simpl opts.
  destruct (checkError (opts s)) eqn:Hce; simpl in Hok; simpl when.
  - destruct (dataErrorChecking_total h (set_trace (trace s ++ fileEvents h s) s))
      as [s1 Hs1]; [exact Hok|].
    rewrite (bind_Return _ _ _ _ _ Hs1), !bind_modify. unfold modify. eauto.
  - rewrite bind_ret, !bind_modify. unfold modify. eauto.
Qed.

Lemma readoutAndAcknowledge_effect s s' h rest :
  mQueue s = h :: rest ->
  readoutAndAcknowledge s = Return tt s' ->
  validatorCanRun s = true
  /\ exists c ec es, s' = afterReadout h rest c ec es s.
Proof.
  intros Hq Hret. unfold readoutAndAcknowledge in Hret.
  rewrite bind_get, Hq in Hret.
  apply bind_Return_inv in Hret. destruct Hret as ([] & s1 & Hpage & Hret).
  apply readoutPage_effect in Hpage. destruct Hpage as [Hok (c & ec & es & ->)].
  split; [exact Hok|]. exists c, ec, es.
  rewrite bind_assoc, bind_get in Hret.
  unfold afterReadout, readoutEvents, ackEvents.
  simpl opts in Hret. simpl mReadoutCounter in Hret.
  destruct (legacyAck (opts s)).
  - rewrite bind_when_modify in Hret. unfold modify in Hret.
    inversion Hret; subst s'. unfold queuePop, acknowledgePage.
    destruct (Z.rem (mReadoutCounter s + 1) 4 =? 0); simpl mQueue; rewrite Hq;
      unfold afterReadoutPage, withErrors; destruct s; program_eq.
  - rewrite !bind_modify in Hret. unfold modify in Hret.
    inversion Hret; subst s'. unfold queuePop, acknowledgePage.
    simpl mQueue; rewrite Hq;
      unfold afterReadoutPage, withErrors; destruct s; program_eq.
Qed.

Lemma readoutAndAcknowledge_total s h rest :
  mQueue s = h :: rest ->
  validatorCanRun s = true ->
  exists c ec es,
    readoutAndAcknowledge s = Return tt (afterReadout h rest c ec es s).
Proof.
  intros Hq Hok.
  assert (Hret : exists s', readoutAndAcknowledge s = Return tt s').
  { unfold readoutAndAcknowledge. rewrite bind_get, Hq.
    destruct (readoutPage_total h s Hok) as [s1 Hs1].
    rewrite (bind_Return _ _ _ _ _ Hs1), bind_assoc, bind_get.
    destruct (legacyAck (opts s1)).
    - rewrite bind_when_modify. unfold modify. eauto.
    - rewrite !bind_modify. unfold modify. eauto. }
  destruct Hret as [s' Hret].
  destruct (readoutAndAcknowledge_effect s s' h rest Hq Hret)
    as [_ (c & ec & es & ->)].
  eauto.
Qed.

Lemma pushPage_effect s s' :
  pushPage s = Return tt s' ->
  exists a, lookupZ (mPageIndexCounter s) (mPageAddresses s) = Some a
            /\ s' = afterPush a s.
Proof.
  unfold pushPage, setDescriptor. unfold_m. simpl.
  destruct (lookupZ _ _) as [a|]; [|discriminate].
  intros H. inversion H. eauto.
Qed.

Lemma pushPage_total s a :
  lookupZ (mPageIndexCounter s) (mPageAddresses s) = Some a ->
  pushPage s = Return tt (afterPush a s).
Proof.
  intros Ha. unfold pushPage, setDescriptor. unfold_m. simpl.
  rewrite Ha. reflexivity.
Qed.

(** ** The history of a run *)

Lemma pushes_app t u : pushes (t ++ u) = pushes t ++ pushes u.
Proof. apply omap_app. Qed.
Lemma pops_app t u : pops (t ++ u) = pops t ++ pops u.
Proof. apply omap_app. Qed.
Lemma acks_app t u : acks (t ++ u) = acks t ++ acks u.
Proof. apply omap_app. Qed.

Lemma pushes_readoutEvents h s : pushes (readoutEvents h s) = [].
Proof.
  unfold readoutEvents, readoutPageEvents, fileEvents, checkEvents, ackEvents.
  destruct (fileOutputAscii (opts s)), (fileOutputBin (opts s)),
    (checkError (opts s)), (legacyAck (opts s)),
    (Z.rem (mReadoutCounter s + 1) 4 =? 0); reflexivity.
Qed.

Lemma pops_readoutEvents h s : pops (readoutEvents h s) = [h].
Proof.
  unfold readoutEvents, readoutPageEvents, fileEvents, checkEvents, ackEvents.
  destruct (fileOutputAscii (opts s)), (fileOutputBin (opts s)),
    (checkError (opts s)), (legacyAck (opts s)),
    (Z.rem (mReadoutCounter s + 1) 4 =? 0); reflexivity.
Qed.

Lemma acks_readoutEvents h s :
  acks (readoutEvents h s) = acks (ackEvents s).
Proof.
  unfold readoutEvents, readoutPageEvents, fileEvents, checkEvents, ackEvents.
  destruct (fileOutputAscii (opts s)), (fileOutputBin (opts s)),
    (checkError (opts s)), (legacyAck (opts s)),
    (Z.rem (mReadoutCounter s + 1) 4 =? 0); reflexivity.
Qed.

Lemma ackSchedule_succ (legacy : bool) (n : Z) :
  0 <= n ->
  ackSchedule legacy (n + 1) =
  ackSchedule legacy n
  ++ (if legacy then if Z.rem (n + 1) 4 =? 0 then [n + 1] else []
      else [n + 1]).
Proof.
  intros Hn. unfold ackSchedule. destruct legacy.
  - rewrite Z.rem_mod_nonneg by lia.
    destruct (Z.eqb_spec ((n + 1) mod 4) 0) as [H0|H0].
    + replace (Z.to_nat ((n + 1) / 4)) with (S (Z.to_nat (n / 4)))
        by (Z.to_euclidean_division_equations; lia).
      rewrite seq_S, map_app. simpl. do 3 f_equal.
      Z.to_euclidean_division_equations; lia.
    + replace (Z.to_nat ((n + 1) / 4)) with (Z.to_nat (n / 4))
        by (Z.to_euclidean_division_equations; lia).
      rewrite app_nil_r. reflexivity.
  - replace (Z.to_nat (n + 1)) with (S (Z.to_nat n)) by lia.
    rewrite seq_S, map_app. simpl. do 3 f_equal. lia.
Qed.

(** ** The states of a run *)

Lemma shouldPushQueue_true s :
  shouldPushQueue s = true ->
  queueSize s < NUM_PAGES
  /\ (mInfinitePages s = true \/ mPushCounter s < maxPages (opts s))
  /\ mPushEnabled s = true.
Proof.
  unfold shouldPushQueue. rewrite !andb_true_iff, orb_true_iff.
  intros [[H1 H2] H3]. repeat split; [lia | | exact H3].
  destruct H2 as [H2|H2]; [left; exact H2 | right; lia].
Qed.

Lemma queuePush_room h q :
  Z.of_nat (length q) < NUM_PAGES -> queuePush h q = q ++ [h].
Proof.
  intros Hroom. unfold queuePush.
  destruct (Z.ltb_spec (Z.of_nat (length q)) NUM_PAGES); [reflexivity | lia].
Qed.

(** The low priority tasks leave the queue, the counters and the options
    alone, and print at most messages. *)
Lemma lowPriorityTasks_frame e s :
  opts (lowPriorityTasks e s) = opts s
  /\ mQueue (lowPriorityTasks e s) = mQueue s
  /\ mPushCounter (lowPriorityTasks e s) = mPushCounter s
  /\ mReadoutCounter (lowPriorityTasks e s) = mReadoutCounter s
  /\ exists msgs, trace (lowPriorityTasks e s) = trace s ++ map EvMessage msgs.
Proof.
  assert (Hnil : trace s = trace s ++ map EvMessage [])
    by (simpl; rewrite app_nil_r; reflexivity).
  unfold lowPriorityTasks, breakLoop, startHandlingSigint, queueSize.
  destruct (mLowPriorityCounter s <? LOW_PRIORITY_INTERVAL);
    [do 4 (split; [reflexivity|]); exists (@nil Message); exact Hnil|].
  destruct (isMaxExceeded e);
    [do 4 (split; [reflexivity|]); eexists (cons _ nil); reflexivity|].
  destruct (isSigInt e);
    [|do 4 (split; [reflexivity|]); exists (@nil Message); exact Hnil].
  cbv zeta. simpl. destruct (negb (mHandlingSigint s)); simpl;
    (destruct (Z.of_nat (length (mQueue s)) =? 0);
     [do 4 (split; [reflexivity|]); eexists (cons _ nil); reflexivity|]);
    (destruct (HANDLING_SIGINT_TIMEOUT <? _);
     [do 4 (split; [reflexivity|]); eexists (cons _ nil); reflexivity|]);
    do 4 (split; [reflexivity|]); exists (@nil Message); exact Hnil.
Qed.

Lemma pushes_messages msgs : pushes (map EvMessage msgs) = [].
Proof. induction msgs; [reflexivity | exact IHmsgs]. Qed.
Lemma pops_messages msgs : pops (map EvMessage msgs) = [].
Proof. induction msgs; [reflexivity | exact IHmsgs]. Qed.
Lemma acks_messages msgs : acks (map EvMessage msgs) = [].
Proof. induction msgs; [reflexivity | exact IHmsgs]. Qed.

Lemma readoutQueueHasPageAvailable_true s :
  readoutQueueHasPageAvailable s = true ->
  exists h rest, mQueue s = h :: rest /\ isPageArrived h s = true.
Proof.
  unfold readoutQueueHasPageAvailable.
  destruct (mQueue s) as [|h rest]; [discriminate | eauto].
Qed.

(** An event that is no push, pop or acknowledgment changes no history. *)
Lemma invariant_emit s0 s ev :
  pushedHandle ev = None -> poppedHandle ev = None ->
  acknowledgedCount ev = None ->
  RunInvariant s0 s -> RunInvariant s0 (emit ev s).
Proof.
  intros H1 H2 H3 [Io Ic If Ip Iq Ia].
  constructor; simpl; unfold pushes, pops, acks in *;
    rewrite ?omap_app; simpl; rewrite ?H1, ?H2, ?H3, ?app_nil_r; assumption.
Qed.

Lemma step_invariant s0 s s' :
  RunInvariant s0 s -> step s s' -> RunInvariant s0 s'.
Proof.
  intros Inv Hstep. destruct Hstep as
    [s s' Hguard Hpush | n s | e s | e s | s s' Hguard Hread | s | s | s].
  - (* pushPage *)
    destruct Inv as [Io Ic If Ip Iq Ia].
    apply pushPage_effect in Hpush. destruct Hpush as (a & _ & ->).
    apply shouldPushQueue_true in Hguard. destruct Hguard as (Hroom & _ & _).
    unfold queueSize in *.
    constructor; unfold queueSize; simpl;
      rewrite ?pushes_app, ?pops_app, ?acks_app, ?queuePush_room by exact Hroom;
      simpl; rewrite ?app_nil_r.
    + exact Io.
    + rewrite length_app. simpl. lia.
    + rewrite If, app_assoc. reflexivity.
    + rewrite length_app. simpl. lia.
    + exact Iq.
    + exact Ia.
  - (* mLastFillSize *)
    destruct Inv. constructor; assumption.
  - (* the card *)
    destruct Inv. constructor; assumption.
  - (* lowPriorityTasks *)
    destruct Inv as [Io Ic If Ip Iq Ia].
    destruct (lowPriorityTasks_frame e s) as (Ho & Hq & Hp & Hr & msgs & Ht).
    constructor; unfold queueSize; rewrite ?Ho, ?Hq, ?Hp, ?Hr, ?Ht,
      ?pushes_app, ?pops_app, ?acks_app, ?pushes_messages, ?pops_messages,
      ?acks_messages, ?app_nil_r; assumption.
  - (* readoutPage, acknowledgePage, pop *)
    destruct Inv as [Io Ic If Ip Iq Ia].
    apply readoutQueueHasPageAvailable_true in Hguard.
    destruct Hguard as (h & rest & Hq & _).
    destruct (readoutAndAcknowledge_effect s s' h rest Hq Hread)
      as [_ (c & ec & es & ->)].
    unfold queueSize in *. rewrite Hq in *. simpl length in Ic.
    constructor; unfold queueSize; simpl;
      rewrite ?pushes_app, ?pops_app, ?acks_app, ?pushes_readoutEvents,
        ?pops_readoutEvents, ?acks_readoutEvents, ?app_nil_r.
    + exact Io.
    + lia.
    + rewrite If, <- app_assoc. reflexivity.
    + exact Ip.
    + rewrite length_app. simpl. lia.
    + rewrite ackSchedule_succ by lia. rewrite Ia. f_equal.
      unfold ackEvents. destruct (legacyAck (opts s));
        [destruct (Z.rem (mReadoutCounter s + 1) 4 =? 0)|]; reflexivity.
  - apply invariant_emit; auto.
  - apply invariant_emit; auto.
  - apply invariant_emit; auto.
Qed.

Lemma start_invariant s0 : startOfRun s0 -> RunInvariant s0 s0.
Proof.
  intros (Hq & Ht & Hp & Hr).
  constructor; unfold queueSize; rewrite ?Hq, ?Ht, ?Hp, ?Hr; try reflexivity.
  - simpl. unfold NUM_PAGES, FIFO_ENTRIES, NUM_OF_BUFFERS. lia.
  - unfold ackSchedule. destruct (legacyAck (opts s0)); reflexivity.
Qed.

Lemma reachable_invariant s0 s :
  startOfRun s0 -> reachable s0 s -> RunInvariant s0 s.
Proof.
  intros Hstart Hreach. induction Hreach as [|s s' _ IH Hstep].
  - apply start_invariant. exact Hstart.
  - eapply step_invariant; eauto.
Qed.

(** ** The loop of [runDma] only takes steps *)

Section RunSteps.

Variable s0 : Program.

Lemma fillLoop_unfold fuel pushed s :
  fillLoop (S fuel) pushed s =
  if shouldPushQueue s then bind pushPage (fun _ => fillLoop fuel (pushed + 1)) s
  else Return pushed s.
Proof. simpl. rewrite bind_get. destruct (shouldPushQueue s); reflexivity. Qed.

Lemma fillLoop_reachable fuel :
  forall pushed s pushed' s',
    fillLoop fuel pushed s = Return pushed' s' ->
    reachable s0 s ->
    reachable s0 s' /\ shouldPushQueue s' = false.
Proof.
  induction fuel as [|fuel IH]; intros pushed s pushed' s' Hret Hreach;
    [discriminate|].
  rewrite fillLoop_unfold in Hret.
  destruct (shouldPushQueue s) eqn:Hguard.
  - apply bind_Return_inv in Hret. destruct Hret as ([] & s1 & Hpush & Hret).
    eapply IH; [exact Hret|].
    eapply reach_step; [exact Hreach | eapply step_push; eauto].
  - inversion Hret; subst. split; assumption.
Qed.

Lemma fillReadoutQueue_reachable s s' :
  fillReadoutQueue s = Return tt s' ->
  reachable s0 s ->
  reachable s0 s' /\ shouldPushQueue s' = false.
Proof.
  unfold fillReadoutQueue. intros Hret Hreach.
  apply bind_Return_inv in Hret. destruct Hret as (pushed & s1 & Hfill & Hret).
  destruct (fillLoop_reachable _ _ _ _ _ Hfill Hreach) as [Hr1 Hg1].
  rewrite when_modify in Hret. inversion Hret; subst s'.
  destruct (negb (pushed =? 0)); [|split; assumption].
  split; [eapply reach_step; [exact Hr1 | apply step_fill_size]|].
  exact Hg1.
Qed.

Lemma loopIteration_reachable e s r s' :
  loopIteration e s = Return r s' -> reachable s0 s -> reachable s0 s'.
Proof.
  unfold loopIteration. rewrite bind_get. intros Hret Hreach.
  destruct (negb (mInfinitePages s) && (maxPages (opts s) <=? mReadoutCounter s)).
  { rewrite bind_modify in Hret. inversion Hret; subst.
    eapply reach_step; [exact Hreach | apply step_page_limit]. }
  destruct (mDmaLoopBreak s).
  { inversion Hret; subst. exact Hreach. }
  rewrite bind_modify in Hret.
  apply bind_Return_inv in Hret. destruct Hret as ([] & s1 & Hfill & Hret).
  assert (Hr1 : reachable s0 s1).
  { eapply fillReadoutQueue_reachable; [exact Hfill|].
    eapply reach_step; [exact Hreach | apply step_low_priority]. }
  rewrite bind_assoc, bind_get in Hret.
  destruct (readoutQueueHasPageAvailable s1) eqn:Havail; simpl when in Hret.
  - apply bind_Return_inv in Hret. destruct Hret as ([] & s2 & Hread & Hret).
    inversion Hret; subst.
    eapply reach_step; [exact Hr1 | eapply step_readout; eauto].
  - inversion Hret; subst. exact Hr1.
Qed.

Lemma dmaLoop_reachable envs :
  forall s exit s',
    dmaLoop envs s = Return exit s' -> reachable s0 s -> reachable s0 s'.
Proof.
  induction envs as [|e envs IH]; intros s exit s' Hret Hreach;
    [discriminate|].
  simpl in Hret. rewrite bind_modify in Hret.
  apply bind_Return_inv in Hret. destruct Hret as (r & s1 & Hiter & Hret).
  assert (Hr1 : reachable s0 s1).
  { eapply loopIteration_reachable; [exact Hiter|].
    eapply reach_step; [exact Hreach | apply step_card]. }
  destruct r as [x|].
  - inversion Hret; subst. exact Hr1.
  - eapply IH; eauto.
Qed.

Lemma runDma_reachable envs exit s' :
  runDma envs s0 = Return exit s' -> reachable s0 s'.
Proof.
  unfold runDma, finishUp. intros Hret.
  apply bind_Return_inv in Hret. destruct Hret as ([] & s1 & Hfill & Hret).
  apply bind_Return_inv in Hret. destruct Hret as (x & s2 & Hloop & Hret).
  rewrite bind_assoc, !bind_modify in Hret. inversion Hret; subst.
  eapply reach_step; [|apply step_output_stats].
  eapply reach_step; [|apply step_output_errors].
  eapply dmaLoop_reachable; [exact Hloop|].
  eapply fillReadoutQueue_reachable; [exact Hfill | apply reach_start].
Qed.

End RunSteps.

(** ** Ring capacity *)

(** C1. In every state of a run, in infinite and in page-limited mode, with
    or without legacy acknowledgment, the readout queue holds at most
    [NUM_PAGES] = [FIFO_ENTRIES * NUM_OF_BUFFERS] = 128 handles: a push only
    happens under [shouldPushQueue], which asks for room in the queue, so that
    the push appends and the circular buffer never overwrites its front. *)
Theorem queue_within_ring_capacity (s0 s : Program) :
  startOfRun s0 ->
  reachable s0 s ->
  queueSize s <= NUM_PAGES
  /\ NUM_PAGES = FIFO_ENTRIES * NUM_OF_BUFFERS
  /\ NUM_PAGES = 128
  /\ (shouldPushQueue s = true -> queueSize s < NUM_PAGES)
  /\ (forall s', shouldPushQueue s = true -> pushPage s = Return tt s' ->
        mQueue s' = mQueue s
                    ++ [mkHandle (mDescriptorCounter s) (mPageIndexCounter s)]
        /\ queueSize s' <= NUM_PAGES).
Proof.
  intros Hstart Hreach.
  pose proof (reachable_invariant s0 s Hstart Hreach) as Inv.
  split; [apply (inv_capacity _ _ Inv)|].
  split; [reflexivity|]. split; [reflexivity|].
  split; [intros Hg; apply shouldPushQueue_true in Hg; tauto|].
  intros s' Hg Hpush.
  assert (Hstep : reachable s0 s')
    by (eapply reach_step; [exact Hreach | eapply step_push; eauto]).
  split; [|apply (inv_capacity s0 s'), reachable_invariant; assumption].
  apply pushPage_effect in Hpush. destruct Hpush as (a & _ & ->).
  apply shouldPushQueue_true in Hg. destruct Hg as (Hroom & _).
  simpl. apply queuePush_room. exact Hroom.
Qed.

(** ** First in, first out *)

Lemma ackIndexOf_monotone (t : list Event) (i j tj : nat) :
  (i <= j)%nat ->
  ackIndexOf t j = Some tj ->
  exists ti, ackIndexOf t i = Some ti /\ (ti <= tj)%nat.
Proof.
  unfold ackIndexOf. intros Hij Hj.
  destruct (list_find (fun n => Z.of_nat j < n) (acks t)) as [[tj' n]|] eqn:Hfj;
    [|discriminate].
  simpl in Hj. inversion Hj; subst tj'. clear Hj.
  apply list_find_Some in Hfj. destruct Hfj as (Hn & Hjn & _).
  destruct (list_find (fun n => Z.of_nat i < n) (acks t)) as [[ti m]|] eqn:Hfi.
  - exists ti. split; [reflexivity|].
    apply list_find_Some in Hfi. destruct Hfi as (_ & _ & Hfirst).
    destruct (decide (ti <= tj)%nat) as [Hle|Hgt]; [exact Hle|].
    exfalso. apply (Hfirst tj n Hn); lia.
  - exfalso. apply list_find_None in Hfi.
    rewrite list.Forall_forall in Hfi.
    apply (Hfi n); [eapply list_elem_of_lookup_2; exact Hn | lia].
Qed.

(** C3. Pages leave the queue in the order they were pushed, in per-page and
    in legacy mode: the handles popped so far followed by the queue are the
    handles pushed so far, in order; the acknowledgments sent are those of the
    schedule of the mode, each sent with more pages read out than the one
    before; so if A is pushed before B, the acknowledgment that covers A is
    sent no later than the one that covers B. *)
Theorem acknowledgments_in_push_order (s0 s : Program) :
  startOfRun s0 ->
  reachable s0 s ->
  pushes (trace s) = pops (trace s) ++ mQueue s
  /\ Z.of_nat (length (pops (trace s))) = mReadoutCounter s
  /\ acks (trace s) = ackSchedule (legacyAck (opts s0)) (mReadoutCounter s)
  /\ (forall a b n m, acks (trace s) !! a = Some n ->
        acks (trace s) !! b = Some m -> (a < b)%nat ->
        0 < n /\ n < m /\ m <= mReadoutCounter s)
  /\ (forall i j tj, (i <= j)%nat ->
        ackIndexOf (trace s) j = Some tj ->
        exists ti, ackIndexOf (trace s) i = Some ti /\ (ti <= tj)%nat).
Proof.
  intros Hstart Hreach.
  pose proof (reachable_invariant s0 s Hstart Hreach) as Inv.
  destruct Inv as [Io Ic If Ip Iq Ia].
  split; [exact If|]. split; [exact Iq|].
  split; [rewrite Ia, Io; reflexivity|].
  split; [|intros i j tj; apply ackIndexOf_monotone].
  intros a b n m Ha Hb Hab. rewrite Ia in Ha, Hb. unfold ackSchedule in Ha, Hb.
  assert (Hr : 0 <= mReadoutCounter s) by lia.
  destruct (legacyAck (opts s)).
  - rewrite list_lookup_fmap in Ha, Hb.
    destruct (seq _ _ !! a) as [x|] eqn:Hx; [|discriminate].
    destruct (seq _ _ !! b) as [y|] eqn:Hy; [|discriminate].
    apply lookup_seq in Hx, Hy. simpl in Ha, Hb.
    inversion Ha; inversion Hb; subst.
    Z.to_euclidean_division_equations; lia.
  - rewrite list_lookup_fmap in Ha, Hb.
    destruct (seq _ _ !! a) as [x|] eqn:Hx; [|discriminate].
    destruct (seq _ _ !! b) as [y|] eqn:Hy; [|discriminate].
    apply lookup_seq in Hx, Hy. simpl in Ha, Hb.
    inversion Ha; inversion Hb; subst. lia.
Qed.

(** ** Legacy acknowledgment *)

(** C10. In legacy mode a readout sends an acknowledgment exactly when the
    readout counter, once incremented for the page just read, is a multiple
    of four. In every state of a run the acknowledgments sent are those at
    counter values 4, 8, ..., one per four pages read and none before the
    fourth page; so of [n] pages read the last [n mod 4] are covered by no
    acknowledgment, also in the state [runDma] returns in. *)
Theorem legacy_ack_every_fourth_page (s0 s : Program) :
  startOfRun s0 ->
  legacyAck (opts s0) = true ->
  reachable s0 s ->
  acks (trace s)
  = map (fun k => 4 * Z.of_nat k) (seq 1 (Z.to_nat (mReadoutCounter s / 4)))
  /\ Z.of_nat (length (acks (trace s))) = mReadoutCounter s / 4
  /\ (forall n, n ∈ acks (trace s) ->
        4 <= n <= mReadoutCounter s - mReadoutCounter s mod 4)
  /\ (forall h rest s',
        mQueue s = h :: rest ->
        readoutAndAcknowledge s = Return tt s' ->
        mReadoutCounter s' = mReadoutCounter s + 1
        /\ acks (trace s') =
           acks (trace s)
           ++ (if Z.rem (mReadoutCounter s') 4 =? 0
               then [mReadoutCounter s'] else []))
  /\ (forall envs exit s',
        runDma envs s0 = Return exit s' ->
        acks (trace s')
        = map (fun k => 4 * Z.of_nat k)
            (seq 1 (Z.to_nat (mReadoutCounter s' / 4)))).
Proof.
  intros Hstart Hlegacy Hreach.
  pose proof (reachable_invariant s0 s Hstart Hreach) as Inv.
  destruct Inv as [Io Ic If Ip Iq Ia].
  rewrite Io, Hlegacy in Ia. unfold ackSchedule in Ia.
  assert (Hr : 0 <= mReadoutCounter s) by lia.
  split; [exact Ia|].
  split; [rewrite Ia, length_map, length_seq;
          Z.to_euclidean_division_equations; lia|].
  split.
  { intros n Hn. rewrite Ia in Hn. apply list_elem_of_fmap in Hn.
    destruct Hn as (k & -> & Hk). apply elem_of_seq in Hk.
    Z.to_euclidean_division_equations; lia. }
  split.
  { intros h rest s' Hq Hret.
    destruct (readoutAndAcknowledge_effect s s' h rest Hq Hret)
      as [_ (c & ec & es & ->)].
    simpl. split; [reflexivity|].
    rewrite acks_app, acks_readoutEvents. unfold ackEvents.
    rewrite Io, Hlegacy.
    destruct (Z.rem (mReadoutCounter s + 1) 4 =? 0); reflexivity. }
  intros envs exit s' Hrun.
  pose proof (reachable_invariant s0 s' Hstart (runDma_reachable _ _ _ _ Hrun))
    as Inv'.
  destruct Inv' as [Io' _ _ _ _ Ia'].
  rewrite Io', Hlegacy in Ia'. exact Ia'.
Qed.

(** ** The order of one readout *)

Lemma isPageArrived_after_reset h st :
  statusIsPageArrived (descriptorIndex h)
    (statusReset (descriptorIndex h) st) = false.
Proof.
  unfold statusIsPageArrived, statusReset.
  destruct (lookupZ (descriptorIndex h) st) as [b|] eqn:Hl.
  - apply lookupZ_Some_range in Hl. rewrite lookupZ_insertZ_eq by exact Hl.
    reflexivity.
  - unfold lookupZ, insertZ in *.
    destruct (0 <=? descriptorIndex h); [|reflexivity].
    apply lookup_ge_None in Hl. rewrite list_insert_ge by exact Hl.
    apply lookup_ge_None in Hl. rewrite Hl. reflexivity.
Qed.

(** C2, as the code has it. When the front of the queue has arrived (and the
    validator, if enabled, knows the pattern), the readout does, in this
    order: write the page to the file sink if one is enabled, run the validator
    if enabled, reset the page to the fill value, clear the status entry,
    increment the readout counter, send the acknowledgment (every page; in
    legacy mode only when the incremented counter is a multiple of four), pop
    the queue.  The page reset comes before the status clear, the status clear
    before the acknowledgment, and the pop is last. *)
Theorem readout_order (s : Program) (h : Handle) (rest : list Handle) :
  mQueue s = h :: rest ->
  isPageArrived h s = true ->
  validatorCanRun s = true ->
  exists s',
    readoutAndAcknowledge s = Return tt s'
    /\ trace s' =
       trace s
       ++ fileEvents h s
       ++ checkEvents h s
       ++ [EvResetPage (pageIndex h);
           EvStatusReset (descriptorIndex h);
           EvReadoutCounter (mReadoutCounter s + 1)]
       ++ ackEvents s
       ++ [EvPop h]
    /\ mReadoutCounter s' = mReadoutCounter s + 1
    /\ mQueue s' = rest
    /\ isPageArrived h s' = false
    /\ pageMemory s' =
       insertZ (pageIndex h) (resetPageWords (getPage h s)) (pageMemory s).
Proof.
  intros Hq _ Hok.
  destruct (readoutAndAcknowledge_total s h rest Hq Hok) as (c & ec & es & Hret).
  eexists. split; [exact Hret|].
  split.
  { simpl. unfold readoutEvents, readoutPageEvents.
    rewrite <- !app_assoc. reflexivity. }
  split; [reflexivity|]. split; [reflexivity|].
  split; [|reflexivity].
  unfold isPageArrived. simpl. apply isPageArrived_after_reset.
Qed.

Lemma checked_words_by_computation (page : PageBuffer) (counter : Z) :
  forallb (fun k => pageWord page (8 * Z.of_nat k) =? counter + Z.of_nat k)
    (seq 0 256) = true ->
  forall k, 0 <= k < 256 -> pageWord page (8 * k) = counter + k.
Proof.
  intros Hall k Hk. rewrite forallb_forall in Hall.
  specialize (Hall (Z.to_nat k)). rewrite Z2Nat.id in Hall by lia.
  apply Z.eqb_eq, Hall, in_seq. lia.
Qed.

(** Counterexample to C2 as stated (the counter is incremented last): one
    page is read out in per-page mode; the counter is incremented before the
    acknowledgment is sent and before the pop. *)
Lemma readout_counter_before_acknowledge :
  exists s',
    readoutAndAcknowledge onePageArrived = Return tt s'
    /\ trace s' = [EvPush handle0; EvResetPage 0; EvStatusReset 0;
                   EvReadoutCounter 1; EvAcknowledge 1; EvPop handle0]
    /\ ~ (exists n m,
            trace s' = [EvPush handle0; EvResetPage 0; EvStatusReset 0;
                        EvAcknowledge n; EvPop handle0; EvReadoutCounter m]).
Proof.
  exists (stateOf (readoutAndAcknowledge onePageArrived)).
  split; [vm_compute; reflexivity|].
  split; [vm_compute; reflexivity|].
  intros (n & m & H). vm_compute in H. discriminate H.
Qed.

Lemma readout_order_witness :
  exists s',
    readoutAndAcknowledge onePageArrived = Return tt s'
    /\ mReadoutCounter s' = 1 /\ mQueue s' = [].
Proof.
  destruct (readout_order onePageArrived handle0 [])
    as (s' & Hret & _ & Hc & Hq & _);
    [vm_compute; reflexivity | vm_compute; reflexivity
    | vm_compute; reflexivity |].
  exists s'. split; [exact Hret|]. split; [exact Hc | exact Hq].
Defined.

Lemma startOfRun_readyProgram o mem : startOfRun (readyProgram o mem).
Proof. repeat split; reflexivity. Qed.

Lemma fivePagesPushed_reachable :
  reachable (readyProgram (plainOptions 5 false) [])
    (stateOf (fillReadoutQueue (readyProgram (plainOptions 5 false) []))).
Proof.
  eapply fillReadoutQueue_reachable; [|apply reach_start].
  vm_compute. reflexivity.
Qed.

Lemma queue_within_ring_capacity_witness :
  queueSize (stateOf (fillReadoutQueue (readyProgram (plainOptions 5 false) [])))
  <= NUM_PAGES.
Proof.
  exact (proj1 (queue_within_ring_capacity _ _
                  (startOfRun_readyProgram _ _) fivePagesPushed_reachable)).
Defined.

Lemma legacyRunOfNine_reachable :
  reachable (readyProgram (plainOptions 9 true) []) (stateOf legacyRunOfNine).
Proof.
  apply (runDma_reachable _ (repeat (quietEnv [0; 1; 2; 3; 4; 5; 6; 7; 8]) 10)
           ExitPageLimit).
  vm_compute. reflexivity.
Qed.

Lemma acknowledgments_in_push_order_witness :
  pushes (trace (stateOf legacyRunOfNine))
  = pops (trace (stateOf legacyRunOfNine)) ++ mQueue (stateOf legacyRunOfNine)
  /\ length (pops (trace (stateOf legacyRunOfNine))) = 9%nat
  /\ acks (trace (stateOf legacyRunOfNine)) = [4; 8]
  /\ (0 < 4 /\ 4 < 8 /\ 8 <= mReadoutCounter (stateOf legacyRunOfNine))
  /\ ackIndexOf (trace (stateOf legacyRunOfNine)) 6 = Some 1%nat
  /\ (exists ti,
        ackIndexOf (trace (stateOf legacyRunOfNine)) 2 = Some ti
        /\ (ti <= 1)%nat).
Proof.
  destruct (acknowledgments_in_push_order _ _
              (startOfRun_readyProgram (plainOptions 9 true) [])
              legacyRunOfNine_reachable) as (Hf & Hq & Ha & Hord & Hidx).
  assert (Hacks : acks (trace (stateOf legacyRunOfNine)) = [4; 8])
    by (rewrite Ha; vm_compute; reflexivity).
  assert (Hix : ackIndexOf (trace (stateOf legacyRunOfNine)) 6 = Some 1%nat)
    by (unfold ackIndexOf; rewrite Hacks; reflexivity).
  split; [exact Hf|].
  split; [apply Nat2Z.inj; rewrite Hq; vm_compute; reflexivity|].
  split; [exact Hacks|].
  split; [apply (Hord 0%nat 1%nat); [rewrite Hacks; reflexivity
                                    | rewrite Hacks; reflexivity | lia]|].
  split; [exact Hix|].
  apply (Hidx 2%nat 6%nat 1%nat); [lia | exact Hix].
Defined.

Lemma legacy_ack_every_fourth_page_witness :
  mReadoutCounter (stateOf legacyRunOfFive) = 5
  /\ acks (trace (stateOf legacyRunOfFive)) = [4].
Proof.
  pose proof (legacy_ack_every_fourth_page
                (readyProgram (plainOptions 5 true) [])
                (readyProgram (plainOptions 5 true) [])
                (startOfRun_readyProgram _ _) eq_refl (reach_start _))
    as (_ & _ & _ & _ & Hrun).
  assert (Hret : runDma (repeat (quietEnv [0; 1; 2; 3; 4]) 6)
                   (readyProgram (plainOptions 5 true) [])
                 = Return ExitPageLimit (stateOf legacyRunOfFive))
    by (vm_compute; reflexivity).
  split; [vm_compute; reflexivity|].
  pose proof (Hrun _ _ _ Hret) as Hacks.
  rewrite Hacks. vm_compute. reflexivity.
Defined.

Lemma incremental_check_counter_100_witness :
  checkErrors Incremental handle0 0 100 (checkingProgram true)
  = Return false (checkingProgram true).
Proof.
  refine (proj1 (incremental_check_counter_100 (checkingProgram true)
                   handle0 0 _)).
  apply checked_words_by_computation. vm_compute. reflexivity.
Defined.

(** Counterexample to C6 as stated (the error is recorded): the program is
    not verbose; the mismatch at word 8 is counted and nothing is written to
    the error stream. *)
Lemma incremental_mismatch_not_recorded :
  exists s',
    checkErrors Incremental handle0 0 100
      (pokeWord 8 999 handle0 (checkingProgram false)) = Return true s'
    /\ mErrorCount s' = 1
    /\ mErrorStream s' = [].
Proof.
  exists (stateOf (checkErrors Incremental handle0 0 100
                     (pokeWord 8 999 handle0 (checkingProgram false)))).
  split; [vm_compute; reflexivity|]. split; vm_compute; reflexivity.
Qed.

(** ** Buffer partitioning *)

Lemma setDescriptor_total i d s a :
  lookupZ i (mPageAddresses s) = Some a ->
  exists t, setDescriptor i d s = Return tt (set_descriptorEntries t s).
Proof.
  intros Ha. unfold setDescriptor. rewrite bind_get, Ha.
  unfold modify. eauto.
Qed.

Lemma lookupZ_in_range {A} (i : Z) (l : list A) :
  0 <= i < Z.of_nat (length l) -> exists x, lookupZ i l = Some x.
Proof.
  intros Hi. unfold lookupZ. destruct (Z.leb_spec 0 i); [|lia].
  destruct (lookup_lt_is_Some_2 l (Z.to_nat i)) as [x Hx]; [lia|]. eauto.
Qed.

(** The safety pass over the descriptor table finds a page for every slot
    when there are at least as many pages as slots. *)
Lemma initDescriptors_total (n : nat) :
  forall (i : Z) (s : Program),
    0 <= i ->
    i + Z.of_nat n <= Z.of_nat (length (mPageAddresses s)) ->
    exists t, initDescriptors n i s = Return tt (set_descriptorEntries t s).
Proof.
  induction n as [|n IH]; intros i s Hi Hn.
  - exists (descriptorEntries s). simpl. unfold ret. f_equal.
    destruct s. reflexivity.
  - destruct (lookupZ_in_range i (mPageAddresses s)) as [a Ha]; [lia|].
    destruct (setDescriptor_total i i s a Ha) as [t Ht].
    simpl. rewrite (bind_Return _ _ _ _ _ Ht).
    destruct (IH (i + 1) (set_descriptorEntries t s)) as [t' Ht'];
      [lia | simpl; lia |].
    rewrite Ht'. exists t'. reflexivity.
Qed.

(** C5. [initFifo] throws the insufficient pages exception exactly when the
    partitioning produced no more than [NUM_PAGES] pages; it then has written
    neither a status entry nor a descriptor, and [run] ends with that
    exception before [runDma] is entered: nothing is pushed and nothing is
    emitted.  With more than [NUM_PAGES] pages (and a descriptor table of
    [NUM_PAGES] slots) [initFifo] returns. *)
Theorem initFifo_insufficient_pages
  (partition : PageAddress * list PageAddress) (s : Program) :
  Z.of_nat (length (descriptorEntries s)) = NUM_PAGES ->
  (Z.of_nat (length partition.2) <= NUM_PAGES
   <-> initFifo partition s
       = Throw InsufficientPages (addressesStored partition s))
  /\ (NUM_PAGES < Z.of_nat (length partition.2)
      <-> exists s', initFifo partition s = Return tt s')
  /\ (Z.of_nat (length partition.2) <= NUM_PAGES ->
      fileOutputAscii (opts s) && fileOutputBin (opts s) = false ->
      forall envs,
        exists s',
          run partition envs s = Throw InsufficientPages s'
          /\ statusEntries s' = statusEntries s
          /\ descriptorEntries s' = descriptorEntries s
          /\ mQueue s' = mQueue s
          /\ mPushCounter s' = mPushCounter s
          /\ trace s' = trace s).
Proof.
  intros Htable.
  assert (Hfew : Z.of_nat (length partition.2) <= NUM_PAGES ->
                 initFifo partition s
                 = Throw InsufficientPages (addressesStored partition s)).
  { intros Hle. unfold initFifo. rewrite bind_modify, bind_get. simpl.
    destruct (Z.leb_spec (Z.of_nat (length partition.2)) NUM_PAGES); [|lia].
    reflexivity. }
  assert (Hmany : NUM_PAGES < Z.of_nat (length partition.2) ->
                  exists s', initFifo partition s = Return tt s').
  { intros Hgt. unfold initFifo. rewrite bind_modify, bind_get. simpl.
    destruct (Z.leb_spec (Z.of_nat (length partition.2)) NUM_PAGES); [lia|].
    rewrite bind_modify.
    match goal with
    | |- exists s', initDescriptors ?n 0 ?s1 = _ =>
        destruct (initDescriptors_total n 0 s1) as [t Ht];
          [lia | simpl; lia | rewrite Ht; eauto]
    end. }
  split; [|split].
  - split; [exact Hfew|]. intros Hthrow.
    destruct (Z.le_gt_cases (Z.of_nat (length partition.2)) NUM_PAGES)
      as [Hle|Hgt]; [exact Hle|].
    destruct (Hmany Hgt) as [s' Hret]. rewrite Hret in Hthrow. discriminate.
  - split; [exact Hmany|]. intros [s' Hret].
    destruct (Z.le_gt_cases (Z.of_nat (length partition.2)) NUM_PAGES)
      as [Hle|Hgt]; [|exact Hgt].
    rewrite (Hfew Hle) in Hret. discriminate.
  - intros Hle Hfile envs. unfold run, initDma.
    rewrite bind_get, Hfile, bind_modify.
    unfold bind at 1. unfold bind at 1. unfold initFifo.
    rewrite bind_modify, bind_get. simpl.
    destruct (Z.leb_spec (Z.of_nat (length partition.2)) NUM_PAGES); [|lia].
    unfold throw. eexists. split; [reflexivity|]. repeat split.
Qed.

(** ** Runs that always return *)

Lemma toInt_small (x : Z) : 0 <= x < 2 ^ 31 -> toInt x = x.
Proof.
  intros Hx. unfold toInt. rewrite Z.mod_small; lia.
Qed.

Lemma afterPush_wellFormed a s : wellFormed s -> wellFormed (afterPush a s).
Proof.
  intros (Hlen & Hp & Hd). unfold wellFormed. simpl.
  unfold wrap64. rewrite (Z.mod_small (mPageIndexCounter s + 1)) by lia.
  assert (Hm : 0 <= (mPageIndexCounter s + 1)
                    mod Z.of_nat (length (mPageAddresses s))
               < Z.of_nat (length (mPageAddresses s)))
    by (apply Z.mod_pos_bound; lia).
  rewrite toInt_small by lia.
  split; [exact Hlen|]. split; [exact Hm|].
  unfold NUM_PAGES, FIFO_ENTRIES, NUM_OF_BUFFERS in *.
  rewrite Z.rem_mod_nonneg by lia. apply Z.mod_pos_bound. lia.
Qed.

Lemma pushPage_wellFormed s :
  wellFormed s ->
  exists a, pushPage s = Return tt (afterPush a s)
            /\ wellFormed (afterPush a s).
Proof.
  intros Hwf.
  destruct (lookupZ_in_range (mPageIndexCounter s) (mPageAddresses s))
    as [a Ha]; [apply Hwf|].
  exists a. split; [apply pushPage_total; exact Ha|].
  apply afterPush_wellFormed. exact Hwf.
Qed.

Lemma FillFrame_refl s :
  wellFormed s -> queueSize s <= NUM_PAGES -> FillFrame s s.
Proof.
  intros Hwf Hq. constructor; try reflexivity; try assumption.
  exists []. simpl. rewrite app_nil_r. reflexivity.
Qed.

Lemma FillFrame_push a s s' :
  queueSize s < NUM_PAGES ->
  FillFrame (afterPush a s) s' -> FillFrame s s'.
Proof.
  intros Hroom [Hwf Hc Hr He Hs Hq [t Ht]].
  constructor; try assumption.
  exists (mkHandle (mDescriptorCounter s) (mPageIndexCounter s) :: t).
  rewrite Ht. simpl. rewrite <- app_assoc. reflexivity.
Qed.

Lemma fillLoop_total (fuel : nat) :
  forall pushed s,
    wellFormed s ->
    queueSize s <= NUM_PAGES ->
    (Z.to_nat (NUM_PAGES - queueSize s) < fuel)%nat ->
    exists pushed' s',
      fillLoop fuel pushed s = Return pushed' s'
      /\ FillFrame s s'
      /\ (shouldPushQueue s = false -> s' = s /\ pushed' = pushed).
Proof.
  induction fuel as [|fuel IH]; intros pushed s Hwf Hq Hfuel; [lia|].
  rewrite fillLoop_unfold.
  destruct (shouldPushQueue s) eqn:Hguard.
  - apply shouldPushQueue_true in Hguard. destruct Hguard as (Hroom & _).
    destruct (pushPage_wellFormed s Hwf) as (a & Hpush & Hwf').
    rewrite (bind_Return _ _ _ _ _ Hpush).
    assert (Hq' : queueSize (afterPush a s) = queueSize s + 1).
    { unfold queueSize in *. simpl. rewrite queuePush_room by exact Hroom.
      rewrite length_app. simpl. lia. }
    destruct (IH (pushed + 1) (afterPush a s) Hwf') as (n' & s' & Hret & Hf & _);
      [lia | lia |].
    exists n', s'. split; [exact Hret|].
    split; [eapply FillFrame_push; eauto | discriminate].
  - exists pushed, s. split; [reflexivity|].
    split; [apply FillFrame_refl; assumption | auto].
Qed.

Lemma fill_budget s :
  0 <= queueSize s ->
  (Z.to_nat (NUM_PAGES - queueSize s) < S (Z.to_nat NUM_PAGES))%nat.
Proof. unfold NUM_PAGES, FIFO_ENTRIES, NUM_OF_BUFFERS. lia. Qed.

Lemma queueSize_nonneg s : 0 <= queueSize s.
Proof. unfold queueSize. lia. Qed.

Lemma FillFrame_fill_size n s s' :
  FillFrame s s' -> FillFrame s (set_mLastFillSize n s').
Proof. intros [Hwf Hc Hr He Hs Hq Ht]. constructor; assumption. Qed.

Lemma fillReadoutQueue_total s :
  wellFormed s ->
  queueSize s <= NUM_PAGES ->
  exists s',
    fillReadoutQueue s = Return tt s'
    /\ FillFrame s s'
    /\ (shouldPushQueue s = false -> s' = s).
Proof.
  intros Hwf Hq. unfold fillReadoutQueue.
  destruct (fillLoop_total (S (Z.to_nat NUM_PAGES)) 0 s Hwf Hq)
    as (n & s1 & Hret & Hframe & Hsame);
    [apply fill_budget, queueSize_nonneg|].
  rewrite (bind_Return _ _ _ _ _ Hret), when_modify.
  eexists. split; [reflexivity|]. split.
  - destruct (negb (n =? 0)); [apply FillFrame_fill_size|]; exact Hframe.
  - intros Hguard. destruct (Hsame Hguard) as [-> ->]. reflexivity.
Qed.

Lemma lowPriorityTasks_wellFormed e s :
  wellFormed s -> wellFormed (lowPriorityTasks e s).
Proof.
  unfold wellFormed, lowPriorityTasks, breakLoop, startHandlingSigint.
  cbv zeta.
  destruct (mLowPriorityCounter s <? LOW_PRIORITY_INTERVAL); [auto|].
  destruct (isMaxExceeded e); [auto|].
  destruct (isSigInt e); [|auto]. simpl.
  destruct (negb (mHandlingSigint s)); simpl;
    destruct (queueSize _ =? 0); auto;
    destruct (HANDLING_SIGINT_TIMEOUT <? _); auto.
Qed.

Lemma pushes_are_no_messages (t : list Handle) :
  Forall (fun ev => isMessage ev = false) (map EvPush t).
Proof. induction t; constructor; [reflexivity | assumption]. Qed.

Lemma readoutEvents_are_no_messages h s :
  Forall (fun ev => isMessage ev = false) (readoutEvents h s).
Proof.
  unfold readoutEvents, readoutPageEvents, fileEvents, checkEvents, ackEvents.
  destruct (fileOutputAscii (opts s)), (fileOutputBin (opts s)),
    (checkError (opts s)), (legacyAck (opts s)),
    (Z.rem (mReadoutCounter s + 1) 4 =? 0); simpl;
    repeat constructor.
Qed.

Lemma loopIteration_total e s :
  wellFormed s ->
  validatorCanRun s = true ->
  queueSize s <= NUM_PAGES ->
  exists r s', loopIteration e s = Return r s' /\ turnResult e s r s'.
Proof.
  intros Hwf Hok Hq. unfold loopIteration. rewrite bind_get.
  destruct (negb (mInfinitePages s) && (maxPages (opts s) <=? mReadoutCounter s))
    eqn:Hlimit.
  { apply andb_true_iff in Hlimit. destruct Hlimit as [Hinf Hmax].
    exists (Some ExitPageLimit). eexists. split; [reflexivity|]. simpl.
    split; [destruct (mInfinitePages s); [discriminate | reflexivity]|].
    split; [lia | reflexivity]. }
  destruct (mDmaLoopBreak s) eqn:Hbreak.
  { exists (Some ExitLoopBreak), s. split; [reflexivity|]. simpl.
    split; [exact Hbreak | reflexivity]. }
  rewrite bind_modify.
  destruct (lowPriorityTasks_frame e s) as (Ho & Hqueue & Hp & Hr & msgs & Ht).
  destruct (fillReadoutQueue_total (lowPriorityTasks e s)) as (s1 & Hfill & Hf & _).
  { apply lowPriorityTasks_wellFormed. exact Hwf. }
  { unfold queueSize. rewrite Hqueue. exact Hq. }
  rewrite (bind_Return _ _ _ _ _ Hfill), bind_assoc, bind_get.
  destruct Hf as [Hwf1 Hc1 Hr1 He1 Hs1 Hq1 [t1 Ht1]].
  assert (Hok1 : validatorCanRun s1 = true).
  { unfold validatorCanRun. replace (opts s1) with (opts s); [exact Hok|].
    rewrite <- Ho. unfold control in Hc1. congruence. }
  exists None.
  destruct (readoutQueueHasPageAvailable s1) eqn:Havail; simpl when.
  - apply readoutQueueHasPageAvailable_true in Havail.
    destruct Havail as (h & rest & Hq1' & _).
    destruct (readoutAndAcknowledge_total s1 h rest Hq1' Hok1)
      as (c & ec & es & Hread).
    rewrite (bind_Return _ _ _ _ _ Hread). eexists. split; [reflexivity|].
    simpl. split; [exact Hbreak|]. split; [exact Hc1|].
    split; [exact Hwf1|].
    split; [unfold queueSize in *; simpl; rewrite Hq1' in Hq1; simpl in Hq1; lia|].
    split; [simpl; lia|].
    exists (map EvPush t1 ++ readoutEvents h s1). simpl.
    split; [rewrite Ht1, <- app_assoc; reflexivity|].
    apply Forall_app. split;
      [apply pushes_are_no_messages | apply readoutEvents_are_no_messages].
  - exists s1. split; [reflexivity|]. simpl.
    split; [exact Hbreak|]. split; [exact Hc1|]. split; [exact Hwf1|].
    split; [exact Hq1|]. split; [lia|].
    exists (map EvPush t1). split; [exact Ht1 | apply pushes_are_no_messages].
Qed.

(** ** Thermal abort *)


Lemma dmaLoop_unfold e envs s :
  dmaLoop (e :: envs) s =
  match loopIteration e (card e s) with
  | Return (Some exit) s' => Return exit s'
  | Return None s' => dmaLoop envs s'
  | Throw ex s' => Throw ex s'
  | OutOfFuel s' => OutOfFuel s'
  end.
Proof.
  simpl. rewrite bind_modify. unfold bind.
  destruct (loopIteration e (card e s)) as [[x|] s'|ex s'|s']; reflexivity.
Qed.



Lemma control_eq s s' :
  control s' = control s ->
  opts s' = opts s /\ mInfinitePages s' = mInfinitePages s
  /\ mDmaLoopBreak s' = mDmaLoopBreak s
  /\ mHandlingSigint s' = mHandlingSigint s
  /\ mHandlingSigintStart s' = mHandlingSigintStart s
  /\ mPushEnabled s' = mPushEnabled s
  /\ mLowPriorityCounter s' = mLowPriorityCounter s.
Proof. unfold control. intros H. inversion H. repeat split; assumption. Qed.

Lemma validatorCanRun_opts s s' :
  opts s' = opts s -> validatorCanRun s' = validatorCanRun s.
Proof. unfold validatorCanRun. intros ->. reflexivity. Qed.



(** ** The drain scenario: a page limit, and every page arrives *)

Lemma statusIsPageArrived_insert_same d st :
  0 <= d < Z.of_nat (length st) ->
  statusIsPageArrived d (cardMarksArrived d st) = true.
Proof.
  intros Hd. unfold statusIsPageArrived, cardMarksArrived.
  rewrite lookupZ_insertZ_eq by exact Hd. reflexivity.
Qed.

Lemma statusIsPageArrived_insert_other d x b st :
  x <> d ->
  statusIsPageArrived d (insertZ x b st) = statusIsPageArrived d st.
Proof.
  intros Hne. unfold statusIsPageArrived.
  rewrite lookupZ_insertZ_ne by exact Hne. reflexivity.
Qed.

Lemma card_status_length e s :
  length (statusEntries (card e s)) = length (statusEntries s).
Proof.
  simpl. induction (hwArrived e) as [|x l IH]; [reflexivity|].
  simpl. unfold cardMarksArrived at 1. rewrite length_insertZ. exact IH.
Qed.

Lemma card_status_monotone e s d :
  statusIsPageArrived d (statusEntries s) = true ->
  statusIsPageArrived d (statusEntries (card e s)) = true.
Proof.
  intros Hd. simpl. induction (hwArrived e) as [|x l IH]; [exact Hd|].
  simpl. destruct (decide (x = d)) as [->|Hne].
  - apply statusIsPageArrived_insert_same.
    unfold statusIsPageArrived in IH.
    destruct (lookupZ d _) as [b|] eqn:Hl; [|discriminate].
    eapply lookupZ_Some_range. exact Hl.
  - unfold cardMarksArrived at 1.
    rewrite statusIsPageArrived_insert_other by exact Hne. exact IH.
Qed.

Lemma card_status_arrived e s d :
  0 <= d < Z.of_nat (length (statusEntries s)) ->
  In d (hwArrived e) ->
  statusIsPageArrived d (statusEntries (card e s)) = true.
Proof.
  intros Hd Hin. pose proof (card_status_length e s) as Hlen. simpl in *.
  induction (hwArrived e) as [|x l IH]; [contradiction|].
  simpl in *. destruct (decide (x = d)) as [->|Hne].
  - apply statusIsPageArrived_insert_same.
    unfold cardMarksArrived in Hlen at 1. rewrite length_insertZ in Hlen. lia.
  - unfold cardMarksArrived at 1.
    rewrite statusIsPageArrived_insert_other by exact Hne.
    unfold cardMarksArrived in Hlen at 1. rewrite length_insertZ in Hlen.
    apply IH; [|exact Hlen]. destruct Hin as [Hx|Hin]; [contradiction | exact Hin].
Qed.

(** A turn without temperature alarm or interrupt only counts the turn. *)
Lemma lowPriorityTasks_quiet e s :
  isMaxExceeded e = false -> isSigInt e = false ->
  lowPriorityTasks e s =
  set_mLowPriorityCounter
    (if mLowPriorityCounter s <? LOW_PRIORITY_INTERVAL
     then mLowPriorityCounter s + 1 else 0) s.
Proof.
  intros Ht Hi. unfold lowPriorityTasks. rewrite Ht, Hi.
  destruct (mLowPriorityCounter s <? LOW_PRIORITY_INTERVAL); reflexivity.
Qed.

(** In page-limited mode, with [r] pages left to push and room for them, the
    fill loop pushes exactly those, on consecutive descriptors. *)
Lemma fillLoop_limited (r : nat) :
  forall fuel pushed s,
    wellFormed s ->
    mInfinitePages s = false ->
    mPushEnabled s = true ->
    mPushCounter s + Z.of_nat r = maxPages (opts s) ->
    queueSize s + Z.of_nat r <= NUM_PAGES ->
    mDescriptorCounter s + Z.of_nat r <= NUM_PAGES ->
    (r < fuel)%nat ->
    exists s',
      fillLoop fuel pushed s = Return (pushed + Z.of_nat r) s'
      /\ map descriptorIndex (mQueue s')
         = map descriptorIndex (mQueue s)
           ++ map (fun j => mDescriptorCounter s + Z.of_nat j) (seq 0 r)
      /\ mPushCounter s' = maxPages (opts s).
Proof.
  induction r as [|r IH]; intros fuel pushed s Hwf Hinf Hen Hleft Hroom Hdesc Hfuel;
    (destruct fuel as [|fuel]; [lia|]); rewrite fillLoop_unfold.
  - assert (Hguard : shouldPushQueue s = false).
    { unfold shouldPushQueue. rewrite Hinf, Hen.
      destruct (Z.ltb_spec (mPushCounter s) (maxPages (opts s))); [lia|].
      destruct (queueSize s <? NUM_PAGES); reflexivity. }
    rewrite Hguard. exists s. rewrite Z.add_0_r, app_nil_r.
    split; [reflexivity|]. split; [reflexivity | lia].
  - assert (Hguard : shouldPushQueue s = true).
    { unfold shouldPushQueue. rewrite Hinf, Hen.
      destruct (Z.ltb_spec (mPushCounter s) (maxPages (opts s))); [|lia].
      destruct (Z.ltb_spec (queueSize s) NUM_PAGES); [reflexivity | lia]. }
    rewrite Hguard.
    destruct (pushPage_wellFormed s Hwf) as (a & Hpush & Hwf').
    rewrite (bind_Return _ _ _ _ _ Hpush).
    assert (Hq : mQueue (afterPush a s)
                 = mQueue s
                   ++ [mkHandle (mDescriptorCounter s) (mPageIndexCounter s)]).
    { simpl. apply queuePush_room. unfold queueSize in Hroom. lia. }
    assert (Hd : mDescriptorCounter (afterPush a s)
                 = Z.rem (mDescriptorCounter s + 1) NUM_PAGES) by reflexivity.
    destruct Hwf as (_ & _ & Hdc).
    destruct (IH fuel (pushed + 1) (afterPush a s)) as (s' & Hret & Hlist & Hcount);
      try assumption; try reflexivity.
    { simpl. lia. }
    { unfold queueSize in *. rewrite Hq, length_app. simpl. lia. }
    { rewrite Hd. rewrite Z.rem_mod_nonneg by (unfold NUM_PAGES, FIFO_ENTRIES,
        NUM_OF_BUFFERS in *; lia).
      destruct (decide (mDescriptorCounter s + 1 = NUM_PAGES)) as [He|Hne].
      - rewrite He, Z_mod_same_full. lia.
      - rewrite Z.mod_small by lia. lia. }
    { lia. }
    exists s'. split; [rewrite Hret; f_equal; lia|].
    split; [|exact Hcount].
    rewrite Hlist, Hq, map_app, <- app_assoc. f_equal. simpl.
    rewrite Z.add_0_r. f_equal.
    rewrite <- seq_shift, map_map.
    destruct r as [|r]; [reflexivity|].
    apply map_ext. intros j.
    rewrite Z.rem_mod_nonneg by (unfold NUM_PAGES, FIFO_ENTRIES,
      NUM_OF_BUFFERS in *; lia).
    rewrite Z.mod_small by lia. lia.
Qed.

Section DrainScenario.

(** The page limit, and what the card and the other threads do in turn [i]
    of the loop. *)
Variable N : nat.
Variable env : nat -> Env.
Variable s0 : Program.

Hypothesis limit_fits : Z.of_nat N <= NUM_PAGES.
Hypothesis limit_set : maxPages (opts s0) = Z.of_nat N.
Hypothesis validator_ok : validatorCanRun s0 = true.

(** No temperature alarm and no interrupt. *)
Hypothesis quiet :
  forall i, isMaxExceeded (env i) = false /\ isSigInt (env i) = false.

Lemma draining_queueSize k i s : Draining N env s0 k i s -> queueSize s = Z.of_nat (N - k).
Proof.
  intros D. unfold queueSize.
  rewrite <- (length_map descriptorIndex), (dr_queue D).
  rewrite length_map, length_seq. reflexivity.
Qed.

Lemma draining_no_push k i s :
  Draining N env s0 k i s -> shouldPushQueue s = false.
Proof.
  intros D. unfold shouldPushQueue.
  rewrite (dr_finite D), (dr_pushed D), (dr_opts D), limit_set.
  rewrite Z.ltb_irrefl. destruct (queueSize s <? NUM_PAGES); reflexivity.
Qed.

(** The card acts at the start of turn [i]. *)
Lemma draining_card k i s :
  Draining N env s0 k i s ->
  Draining N env s0 k i (card (env i) s)
  /\ forall d, (k <= d < N)%nat ->
       statusIsPageArrived (Z.of_nat d) (statusEntries (card (env i) s)) = true
       \/ exists j, (S i <= j)%nat /\ In (Z.of_nat d) (hwArrived (env j)).
Proof.
  intros D.
  assert (Harr : forall d, (k <= d < N)%nat ->
       statusIsPageArrived (Z.of_nat d) (statusEntries (card (env i) s)) = true
       \/ exists j, (S i <= j)%nat /\ In (Z.of_nat d) (hwArrived (env j))).
  { intros d Hd. destruct (dr_arrival D d Hd) as [Hnow|(j & Hj & Hin)].
    - left. apply card_status_monotone. exact Hnow.
    - destruct (decide (j = i)) as [->|Hne].
      + left. apply card_status_arrived; [|exact Hin].
        rewrite (dr_status_length D). lia.
      + right. exists j. split; [lia | exact Hin]. }
  split; [|exact Harr].
  destruct D as [D1 D2 D3 D4 D5 D6 D7 D8 D9 D10 D11 D12].
  constructor; try assumption.
  - rewrite card_status_length. exact D11.
  - intros d Hd. destruct (Harr d Hd) as [H|(j & Hj & Hin)];
      [left; exact H | right; exists j; split; [lia | exact Hin]].
Qed.

(** One turn with pages still to read: the front is read out if it has
    arrived, and the loop goes on. *)
Lemma draining_turn k i s :
  Draining N env s0 k i s ->
  (k < N)%nat ->
  exists s',
    loopIteration (env i) (card (env i) s) = Return None s'
    /\ (if statusIsPageArrived (Z.of_nat k) (statusEntries (card (env i) s))
        then Draining N env s0 (S k) (S i) s' else Draining N env s0 k (S i) s').
Proof.
  intros D Hk.
  destruct (draining_card k i s D) as [D1 Harr].
  set (s1 := card (env i) s) in *.
  destruct (quiet i) as [Hthermal Hsigint].
  unfold loopIteration. rewrite bind_get.
  rewrite (dr_finite D1), (dr_opts D1), limit_set,
    (dr_readout D1), (dr_no_break D1).
  destruct (Z.leb_spec (Z.of_nat N) (Z.of_nat k)); [lia|].
  cbn [negb andb]. rewrite bind_modify.
  rewrite (lowPriorityTasks_quiet _ _ Hthermal Hsigint).
  set (c := if mLowPriorityCounter s1 <? LOW_PRIORITY_INTERVAL
            then mLowPriorityCounter s1 + 1 else 0).
  set (s2 := set_mLowPriorityCounter c s1).
  assert (D2 : Draining N env s0 k i s2).
  { destruct D1 as [A1 A2 A3 A4 A5 A6 A7 A8 A9 A10 A11 A12].
    constructor; assumption. }
  destruct (fillReadoutQueue_total s2) as (s3 & Hfill & _ & Hsame).
  { apply (dr_wellFormed D2). }
  { rewrite (draining_queueSize _ _ _ D2). lia. }
  rewrite (Hsame (draining_no_push _ _ _ D2)) in Hfill. clear Hsame s3.
  rewrite (bind_Return _ _ _ _ _ Hfill), bind_assoc, bind_get.
  pose proof (dr_queue D2) as Hq.
  replace (N - k)%nat with (S (N - S k)) in Hq by lia.
  destruct (mQueue s2) as [|h rest] eqn:Hqueue; [discriminate|].
  simpl in Hq. inversion Hq as [[Hh Hrest]].
  unfold readoutQueueHasPageAvailable. rewrite Hqueue.
  unfold isPageArrived. rewrite Hh.
  change (statusEntries s2) with (statusEntries s1).
  destruct (statusIsPageArrived (Z.of_nat k) (statusEntries s1)) eqn:Harrived;
    simpl when.
  - destruct (readoutAndAcknowledge_total s2 h rest Hqueue)
      as (c' & ec & es & Hread).
    { rewrite (validatorCanRun_opts s0 s2 (dr_opts D2)). exact validator_ok. }
    rewrite (bind_Return _ _ _ _ _ Hread). eexists. split; [reflexivity|].
    destruct D2 as [A1 A2 A3 A4 A5 A6 A7 A8 A9 A10 A11 A12].
    constructor; try assumption.
    + change (mReadoutCounter s2 + 1 = Z.of_nat (S k)). rewrite A3. lia.
    + change (Z.of_nat (length (statusReset (descriptorIndex h)
                                  (statusEntries s2))) = NUM_PAGES).
      unfold statusReset. rewrite length_insertZ. exact A11.
    + intros d Hd.
      destruct (Harr d) as [Hnow|Hlater]; [lia | | right; exact Hlater].
      left.
      change (statusIsPageArrived (Z.of_nat d)
                (statusReset (descriptorIndex h) (statusEntries s1)) = true).
      unfold statusReset.
      rewrite statusIsPageArrived_insert_other by (rewrite Hh; lia).
      exact Hnow.
  - exists s2. split; [reflexivity|].
    destruct D2 as [A1 A2 A3 A4 A5 A6 A7 A8 A9 A10 A11 A12].
    constructor; assumption.
Qed.

(** The front page arrives at the latest in turn [i + m]: the loop waits for
    it and reads it out. *)
Lemma draining_wait (k : nat) :
  (k < N)%nat ->
  forall m i s,
    Draining N env s0 k i s ->
    statusIsPageArrived (Z.of_nat k) (statusEntries s) = true
    \/ In (Z.of_nat k) (hwArrived (env (i + m))) ->
    exists n s',
      (forall rest, dmaLoop (map env (seq i n) ++ rest) s = dmaLoop rest s')
      /\ Draining N env s0 (S k) (i + n) s'.
Proof.
  intros Hk. induction m as [|m IH]; intros i s D Hfront;
    destruct (draining_turn k i s D Hk) as (s' & Hturn & Hres);
    destruct (statusIsPageArrived (Z.of_nat k) (statusEntries (card (env i) s)))
      eqn:Harrived.
  - exists 1%nat, s'. split.
    + intros rest. cbn [seq map app]. rewrite dmaLoop_unfold, Hturn.
      reflexivity.
    + replace (i + 1)%nat with (S i) by lia. exact Hres.
  - exfalso. destruct Hfront as [Hnow|Hin].
    + rewrite (card_status_monotone _ _ _ Hnow) in Harrived. discriminate.
    + rewrite Nat.add_0_r in Hin.
      rewrite card_status_arrived in Harrived; [discriminate | | exact Hin].
      rewrite (dr_status_length D). lia.
  - exists 1%nat, s'. split.
    + intros rest. cbn [seq map app]. rewrite dmaLoop_unfold, Hturn.
      reflexivity.
    + replace (i + 1)%nat with (S i) by lia. exact Hres.
  - destruct Hfront as [Hnow|Hin].
    + rewrite (card_status_monotone _ _ _ Hnow) in Harrived. discriminate.
    + destruct (IH (S i) s' Hres) as (n & s'' & Hloop & D').
      { right. replace (S i + m)%nat with (i + S m)%nat by lia. exact Hin. }
      exists (S n), s''. split.
      * intros rest. cbn [seq map app]. rewrite dmaLoop_unfold, Hturn.
        apply Hloop.
      * replace (i + S n)%nat with (S i + n)%nat by lia. exact D'.
Qed.

(** With all pages read out the next turn leaves the loop at the page limit
    test. *)
Lemma draining_exit i s :
  Draining N env s0 N i s ->
  exists s',
    (forall rest, dmaLoop (env i :: rest) s = Return ExitPageLimit s')
    /\ drained N s'.
Proof.
  intros D. destruct (draining_card N i s D) as [D1 _].
  exists (emit (EvMessage MsgMaximumPagesReached) (card (env i) s)). split.
  - intros rest. rewrite dmaLoop_unfold. unfold loopIteration.
    rewrite bind_get.
    rewrite (dr_finite D1), (dr_opts D1), limit_set,
      (dr_readout D1), Z.leb_refl.
    reflexivity.
  - pose proof (dr_queue D) as Hq. rewrite Nat.sub_diag in Hq.
    simpl in Hq. apply map_eq_nil in Hq.
    destruct D as [A1 A2 A3 A4 A5 A6 A7 A8 A9 A10 A11 A12].
    repeat split; assumption.
Qed.

Lemma draining_finishes (r : nat) :
  forall k i s,
    (N - k = r)%nat ->
    Draining N env s0 k i s ->
    exists n s',
      (forall rest,
         dmaLoop (map env (seq i n) ++ rest) s = Return ExitPageLimit s')
      /\ drained N s'.
Proof.
  induction r as [|r IH]; intros k i s Hr D.
  - assert (k = N) as -> by (pose proof (dr_le D); lia).
    destruct (draining_exit i s D) as (s' & Hexit & Hfinal).
    exists 1%nat, s'. split; [intros rest; apply Hexit | exact Hfinal].
  - assert (Hk : (k < N)%nat) by lia.
    assert (Hfront : exists m,
               statusIsPageArrived (Z.of_nat k) (statusEntries s) = true
               \/ In (Z.of_nat k) (hwArrived (env (i + m)))).
    { destruct (dr_arrival D k) as [Hnow|(j & Hj & Hin)]; [lia | |].
      - exists 0%nat. left. exact Hnow.
      - exists (j - i)%nat. right.
        replace (i + (j - i))%nat with j by lia. exact Hin. }
    destruct Hfront as [m Hfront].
    destruct (draining_wait k Hk m i s D Hfront) as (n1 & s1 & Hloop1 & D1).
    destruct (IH (S k) (i + n1)%nat s1) as (n2 & s2 & Hloop2 & Hfinal);
      [lia | exact D1 |].
    exists (n1 + n2)%nat, s2. split; [|exact Hfinal].
    intros rest. rewrite seq_app, map_app, <- app_assoc, Hloop1. apply Hloop2.
Qed.

(** Every pushed page arrives. *)
Hypothesis arrives :
  forall d, (d < N)%nat -> exists j, In (Z.of_nat d) (hwArrived (env j)).

Hypothesis ready : readyForRun (Z.of_nat N) s0.

(** The first [fillReadoutQueue] pushes the [N] pages. *)
Lemma first_fill :
  exists s1, fillReadoutQueue s0 = Return tt s1 /\ Draining N env s0 0 0 s1.
Proof.
  destruct ready as ((Hq0 & Ht0 & Hp0 & Hr0) & Hwf & Hd0 & Hinf & Hmax & Hen
                     & Hbr & Hsig & Hval & Hst).
  assert (Hsize : queueSize s0 = 0) by (unfold queueSize; rewrite Hq0; reflexivity).
  destruct (fillLoop_limited N (S (Z.to_nat NUM_PAGES)) 0 s0)
    as (s1 & Hloop & Hlist & Hcount); try assumption; try lia.
  destruct (fillLoop_total (S (Z.to_nat NUM_PAGES)) 0 s0 Hwf)
    as (n' & s1' & Hloop' & Hframe & _); [lia | apply fill_budget; lia |].
  rewrite Hloop in Hloop'. inversion Hloop'; subst n' s1'. clear Hloop'.
  unfold fillReadoutQueue. rewrite (bind_Return _ _ _ _ _ Hloop), when_modify.
  eexists. split; [reflexivity|].
  destruct Hframe as [F1 F2 F3 F4 F5 F6 F7].
  apply control_eq in F2.
  destruct F2 as (Go & Gi & Gb & Gh & _ & Gp & _).
  assert (D : Draining N env s0 0 0 s1).
  { constructor; try congruence.
    - lia.
    - rewrite Hlist, Hq0, Hd0, Nat.sub_0_r. simpl.
      apply map_ext. intros j. lia.
    - rewrite F3. exact Hr0.
    - intros d Hd. right. destruct (arrives d) as [j Hj]; [lia|].
      exists j. split; [lia | exact Hj]. }
  destruct (negb (0 + Z.of_nat N =? 0)); [|exact D].
  destruct D as [A1 A2 A3 A4 A5 A6 A7 A8 A9 A10 A11 A12].
  constructor; assumption.
Qed.

Lemma drain_run :
  exists n s',
    (forall rest,
       runDma (map env (seq 0 n) ++ rest) s0
       = Return ExitPageLimit (outputStats (outputErrors s')))
    /\ drained N s'.
Proof.
  destruct first_fill as (s1 & Hfill & D).
  destruct (draining_finishes N 0 0 s1) as (n & s' & Hloop & Hfinal);
    [lia | exact D |].
  exists n, s'. split; [|exact Hfinal].
  intros rest. unfold runDma.
  rewrite (bind_Return _ _ _ _ _ Hfill), (bind_Return _ _ _ _ _ (Hloop rest)).
  reflexivity.
Qed.

End DrainScenario.

(** C4. With a page limit of 5, no temperature alarm, no interrupt, and every
    pushed page arriving at some turn, [runDma] returns after finitely many
    turns (and the same with any turns supplied beyond those): it has left the
    loop at the page limit test, with exactly 5 pages pushed, 5 read out and
    the queue empty; the loop break flag was never set and no SIGINT handling
    was started, so the drain timeout path was not taken. *)
Theorem page_limit_five_drains (env : nat -> Env) (s0 : Program) :
  readyForRun 5 s0 ->
  (forall i, isMaxExceeded (env i) = false /\ isSigInt (env i) = false) ->
  (forall d, 0 <= d < 5 -> exists j, In d (hwArrived (env j))) ->
  exists n s',
    (forall rest,
       runDma (map env (seq 0 n) ++ rest) s0 = Return ExitPageLimit s')
    /\ mPushCounter s' = 5
    /\ length (pushes (trace s')) = 5%nat
    /\ mReadoutCounter s' = 5
    /\ mQueue s' = []
    /\ mDmaLoopBreak s' = false
    /\ mHandlingSigint s' = false
    /\ mPushEnabled s' = true.
Proof.
  intros Hready Hquiet Harrive.
  pose proof Hready as (Hstart & _ & _ & _ & Hmax & _ & _ & _ & Hval & _).
  destruct (drain_run 5 env s0) as (n & s' & Hrun & Hfinal);
    try assumption.
  { unfold NUM_PAGES, FIFO_ENTRIES, NUM_OF_BUFFERS. lia. }
  { intros d Hd. apply Harrive. lia. }
  destruct Hfinal as (Hr & Hp & Hq & Hb & Hs & He).
  exists n, (outputStats (outputErrors s')).
  split; [exact Hrun|].
  pose proof (reachable_invariant s0 _ Hstart
                (runDma_reachable s0 _ _ _ (Hrun []))) as Inv.
  pose proof (inv_pushed _ _ Inv) as Hpushed. simpl in Hpushed.
  split; [exact Hp|]. split; [simpl; lia|].
  split; [exact Hr|]. split; [exact Hq|]. split; [exact Hb|].
  split; [exact Hs | exact He].
Qed.

Lemma readyProgram_wellFormed o mem : wellFormed (readyProgram o mem).
Proof. unfold wellFormed. simpl. unfold NUM_PAGES, FIFO_ENTRIES, NUM_OF_BUFFERS. lia. Qed.

Lemma readyProgram_readyForRun :
  readyForRun 5 (readyProgram (plainOptions 5 false) []).
Proof.
  split; [apply startOfRun_readyProgram|].
  split; [apply readyProgram_wellFormed|].
  repeat split; reflexivity.
Qed.

Lemma page_limit_five_drains_witness :
  exists n s',
    runDma (map allArriveEnv (seq 0 n)) (readyProgram (plainOptions 5 false) [])
    = Return ExitPageLimit s'
    /\ mReadoutCounter s' = 5 /\ mQueue s' = [].
Proof.
  destruct (page_limit_five_drains allArriveEnv
              (readyProgram (plainOptions 5 false) []))
    as (n & s' & Hrun & _ & _ & Hr & Hq & _).
  - apply readyProgram_readyForRun.
  - intros i. split; reflexivity.
  - intros d Hd. exists 0%nat. simpl. lia.
  - exists n, s'. split; [|split; assumption].
    rewrite <- (app_nil_r (map allArriveEnv (seq 0 n))). apply Hrun.
Defined.

Lemma initFifo_insufficient_pages_witness :
  initFifo shortPartition freshProgram
  = Throw InsufficientPages (addressesStored shortPartition freshProgram).
Proof.
  destruct (initFifo_insufficient_pages shortPartition freshProgram)
    as ([Hthrow _] & _); [reflexivity|].
  apply Hthrow. vm_compute. discriminate.
Defined.


(** * Further properties of the program *)

(** ** The configured pattern *)

(** X4. [getCurrentGeneratorPattern] answers [Incremental] for every register
    value other than zero and [Unknown] for zero: it never answers
    [Alternating] or [Constant], whatever the two pattern bits are. *)
Theorem getCurrentGeneratorPattern_two_answers (register : Z) :
  getCurrentGeneratorPattern register
  = (if wrap32 register =? 0 then Unknown else Incremental)
  /\ getCurrentGeneratorPattern register <> Alternating
  /\ getCurrentGeneratorPattern register <> Constant
  /\ getCurrentGeneratorPattern 2 = Incremental
  /\ getCurrentGeneratorPattern 3 = Incremental.
Proof.
  unfold getCurrentGeneratorPattern.
  destruct (wrap32 register =? 0); simpl; repeat split; discriminate.
Qed.

(** ** Resetting a page *)

Lemma length_resetWords (n : nat) :
  forall i page, length (resetWords n i page) = length page.
Proof.
  induction n as [|n IH]; intros i page; [reflexivity|].
  simpl. rewrite IH. apply length_insertZ.
Qed.

(** Word [j] after [resetWords n i]: the fill value inside the window of [n]
    words from [i], the old word outside. *)
Lemma resetWords_lookup (n : nat) :
  forall (i : Z) (page : PageBuffer) (j : nat),
    0 <= i ->
    resetWords n i page !! j =
    if decide ((Z.to_nat i <= j < Z.to_nat i + n)%nat /\ (j < length page)%nat)
    then Some BUFFER_DEFAULT_VALUE else page !! j.
Proof.
  induction n as [|n IH]; intros i page j Hi.
  - simpl. destruct (decide _) as [[H _]|_]; [lia | reflexivity].
  - simpl. rewrite IH by lia. rewrite length_insertZ.
    unfold insertZ. destruct (Z.leb_spec 0 i); [|lia].
    replace (Z.to_nat (i + 1)) with (S (Z.to_nat i)) by lia.
    destruct (decide (j = Z.to_nat i)) as [->|Hne].
    + destruct (decide (_ /\ _)) as [[H1 H2]|H1]; [lia|].
      destruct (decide (_ /\ _)) as [[H3 H4]|H3].
      * apply list_lookup_insert_eq. exact H4.
      * rewrite list_insert_ge by lia. reflexivity.
    + destruct (decide (_ /\ _)) as [[H1 H2]|H1];
        destruct (decide (_ /\ _)) as [[H3 H4]|H3];
        first [ reflexivity | lia | apply list_lookup_insert_ne; lia ].
Qed.

(** X1. [resetPage] writes the fill value into the 2048 words of the page and
    nothing else: the page keeps its length, every word of it below 2048 holds
    [BUFFER_DEFAULT_VALUE] afterwards, a word beyond is untouched, and
    resetting twice is the same as resetting once. *)
Theorem resetPage_fills_and_is_idempotent (page : PageBuffer) :
  length (resetPageWords page) = length page
  /\ (forall i, 0 <= i < DMA_PAGE_SIZE_32 -> i < Z.of_nat (length page) ->
        pageWord (resetPageWords page) i = BUFFER_DEFAULT_VALUE)
  /\ (forall i, DMA_PAGE_SIZE_32 <= i ->
        pageWord (resetPageWords page) i = pageWord page i)
  /\ resetPageWords (resetPageWords page) = resetPageWords page
  /\ (Z.of_nat (length page) = DMA_PAGE_SIZE_32 ->
      resetPageWords page
      = replicate (Z.to_nat DMA_PAGE_SIZE_32) BUFFER_DEFAULT_VALUE).
Proof.
  unfold resetPageWords. change DMA_PAGE_SIZE_32 with 2048.
  split; [apply length_resetWords|].
  split.
  { intros i Hi Hlen. unfold pageWord, lookupZ.
    destruct (Z.leb_spec 0 i); [|lia].
    rewrite resetWords_lookup by lia.
    destruct (decide _) as [_|H']; [reflexivity | lia]. }
  split.
  { intros i Hi. unfold pageWord, lookupZ.
    destruct (Z.leb_spec 0 i); [|lia].
    rewrite resetWords_lookup by lia.
    destruct (decide _) as [H'|_]; [lia | reflexivity]. }
  split.
  { apply list_eq. intros j. rewrite (resetWords_lookup _ 0 (resetWords _ _ _)) by lia.
    rewrite length_resetWords.
    destruct (decide _) as [H'|_]; [|reflexivity].
    rewrite resetWords_lookup by lia.
    destruct (decide _) as [_|H'']; [reflexivity | contradiction]. }
  intros Hlen. apply list_eq. intros j.
  rewrite resetWords_lookup by lia.
  destruct (decide _) as [H'|H'].
  - rewrite lookup_replicate_2 by lia. reflexivity.
  - rewrite (proj1 (lookup_replicate_None _ _ _)) by lia.
    apply lookup_ge_None. lia.
Qed.

(** ** The verdict of the validator *)

Lemma checkErrors_check p h eventNumber counter :
  recognized p = true ->
  checkErrors p h eventNumber counter
  = check (expectedWord p counter) h eventNumber.
Proof. destruct p; try discriminate; reflexivity. Qed.

(** Below [n], a test passes everywhere or fails somewhere first. *)
Lemma first_failure (P : Z -> bool) (n : nat) :
  (forall j, 0 <= j < Z.of_nat n -> P j = true)
  \/ exists k, 0 <= k < Z.of_nat n /\ P k = false
               /\ forall j, 0 <= j < k -> P j = true.
Proof.
  induction n as [|n [IH|(k & Hk & Hfail & Hbefore)]].
  - left. intros j Hj. lia.
  - destruct (P (Z.of_nat n)) eqn:Hn.
    + left. intros j Hj.
      destruct (decide (j = Z.of_nat n)) as [->|Hne]; [exact Hn | apply IH; lia].
    + right. exists (Z.of_nat n). split; [lia|]. split; [exact Hn|].
      intros j Hj. apply IH. lia.
  - right. exists k. split; [lia|]. split; assumption.
Qed.

Lemma pagePasses_true p counter page :
  pagePasses p counter page = true
  <-> forall k, 0 <= k < 256 -> wordPasses p counter page k = true.
Proof.
  unfold pagePasses. rewrite forallb_forall. split.
  - intros H k Hk. replace k with (Z.of_nat (Z.to_nat k)) by lia.
    apply H. apply in_seq. lia.
  - intros H k Hk. apply in_seq in Hk. apply H. lia.
Qed.

Lemma pagePasses_false p counter page k :
  0 <= k < 256 -> wordPasses p counter page k = false ->
  pagePasses p counter page = false.
Proof.
  intros Hk Hfail. destruct (pagePasses p counter page) eqn:Hp; [|reflexivity].
  rewrite (proj1 (pagePasses_true p counter page) Hp k Hk) in Hfail.
  discriminate.
Qed.

(** The validator passes the page and changes nothing, or stops at the first
    checked word that differs and reports it. *)
Lemma checkErrors_cases p h eventNumber counter s :
  recognized p = true ->
  (pagePasses p counter (getPage h s) = true
   /\ checkErrors p h eventNumber counter s = Return false s)
  \/ (pagePasses p counter (getPage h s) = false
      /\ exists k,
           0 <= k < 256
           /\ (forall j, 0 <= j < k ->
                 wordPasses p counter (getPage h s) j = true)
           /\ wordPasses p counter (getPage h s) k = false
           /\ checkErrors p h eventNumber counter s
              = Return true
                  (reportError eventNumber h (8 * k)
                     (expectedWord p counter (8 * k))
                     (pageWord (getPage h s) (8 * k)) s)).
Proof.
  intros Hp. rewrite checkErrors_check by exact Hp. unfold check.
  destruct (first_failure (wordPasses p counter (getPage h s)) 256)
    as [Hall|(k & Hk & Hfail & Hbefore)].
  - left. split; [apply pagePasses_true; exact Hall|].
    apply (checkLoop_clean _ h eventNumber s _ 0); [lia | apply check_budget |].
    intros j Hj. apply Z.eqb_eq. apply (Hall j). lia.
  - right. split; [eapply pagePasses_false; eauto|].
    exists k. split; [lia|]. split; [exact Hbefore|]. split; [exact Hfail|].
    apply (checkLoop_first_mismatch _ h eventNumber s k _ 0).
    + lia.
    + lia.
    + change DMA_PAGE_SIZE_32 with 2048. lia.
    + intros j Hj. apply Z.eqb_eq. apply (Hbefore j). lia.
    + apply Z.eqb_neq. exact Hfail.
Qed.

Lemma mErrorCount_reportError eventNumber h i x y s :
  mErrorCount (reportError eventNumber h i x y s) = mErrorCount s + 1.
Proof.
  unfold reportError. simpl.
  destruct (isVerbose (opts s) && (mErrorCount s + 1 <? MAX_RECORDED_ERRORS));
    reflexivity.
Qed.

(** X2. For the three recognized patterns the verdict of [checkErrors] is
    decided by the 256 words of the page at offsets 0, 8, 16, ...: it is
    [false], and the program object is untouched, exactly when each of them
    holds the expected value; otherwise it is [true], the first of them that
    differs is the one reported, and the error count goes up by exactly one
    however many words differ.  The other words of the page have no part in
    it. *)
Theorem checkErrors_verdict (p : GeneratorPattern) (h : Handle)
  (eventNumber counter : Z) (s : Program) :
  recognized p = true ->
  exists s',
    checkErrors p h eventNumber counter s
    = Return (negb (pagePasses p counter (getPage h s))) s'
    /\ (pagePasses p counter (getPage h s) = true -> s' = s)
    /\ (pagePasses p counter (getPage h s) = false ->
        mErrorCount s' = mErrorCount s + 1
        /\ exists k,
             0 <= k < 256
             /\ (forall j, 0 <= j < k ->
                   pageWord (getPage h s) (8 * j)
                   = expectedWord p counter (8 * j))
             /\ pageWord (getPage h s) (8 * k)
                <> expectedWord p counter (8 * k)
             /\ s' = reportError eventNumber h (8 * k)
                       (expectedWord p counter (8 * k))
                       (pageWord (getPage h s) (8 * k)) s)
    /\ (forall page',
          (forall k, 0 <= k < 256 ->
             pageWord page' (8 * k) = pageWord (getPage h s) (8 * k)) ->
          pagePasses p counter page' = pagePasses p counter (getPage h s)).
Proof.
  intros Hp.
  assert (Hsame : forall page',
            (forall k, 0 <= k < 256 ->
               pageWord page' (8 * k) = pageWord (getPage h s) (8 * k)) ->
            pagePasses p counter page' = pagePasses p counter (getPage h s)).
  { intros page' Hw. apply Bool.eq_iff_eq_true. rewrite !pagePasses_true.
    unfold wordPasses.
    split; intros H k Hk;
      [rewrite <- Hw by exact Hk | rewrite Hw by exact Hk]; apply H; exact Hk. }
  destruct (checkErrors_cases p h eventNumber counter s Hp)
    as [[Hpass Hret]|(Hpass & k & Hk & Hbefore & Hfail & Hret)];
    rewrite Hpass, Hret; simpl.
  - exists s. split; [reflexivity|]. split; [reflexivity|].
    split; [discriminate|].
    intros page' Hw. rewrite (Hsame page' Hw). exact Hpass.
  - eexists. split; [reflexivity|]. split; [discriminate|].
    split; [|intros page' Hw; rewrite (Hsame page' Hw); exact Hpass].
    intros _. split; [apply mErrorCount_reportError|].
    exists k. split; [exact Hk|]. split.
    + intros j Hj. apply Z.eqb_eq. apply (Hbefore j Hj).
    + split; [apply Z.eqb_neq; exact Hfail | reflexivity].
Qed.

Lemma checkErrors_verdict_witness :
  exists s',
    checkErrors Constant handle0 0 0 (checkingProgram true) = Return true s'
    /\ mErrorCount s' = 1.
Proof.
  destruct (checkErrors_verdict Constant handle0 0 0 (checkingProgram true))
    as (s' & Hret & _ & Hfail & _); [reflexivity|].
  exists s'. split; [exact Hret|].
  apply Hfail. vm_compute. reflexivity.
Defined.

(** ** A page that was read out and not written again *)

Lemma pageWord_resetPageWords (page : PageBuffer) (i : Z) :
  0 <= i < DMA_PAGE_SIZE_32 -> i < Z.of_nat (length page) ->
  pageWord (resetPageWords page) i = BUFFER_DEFAULT_VALUE.
Proof.
  change DMA_PAGE_SIZE_32 with 2048. intros Hi Hlen.
  unfold resetPageWords, pageWord, lookupZ.
  change DMA_PAGE_SIZE_32 with 2048.
  destruct (Z.leb_spec 0 i); [|lia].
  rewrite resetWords_lookup by lia.
  destruct (decide _) as [_|H']; [reflexivity | lia].
Qed.

Lemma getPage_resetPage (h : Handle) (s : Program) :
  0 <= pageIndex h < Z.of_nat (length (pageMemory s)) ->
  getPage h (resetPage h s) = resetPageWords (getPage h s).
Proof.
  intros Hr. unfold getPage at 1, resetPage. simpl.
  rewrite lookupZ_insertZ_eq by exact Hr. reflexivity.
Qed.

(** Of the first two checked words of a reset page, one differs from what
    any of the three patterns expects. *)
Lemma reset_words_fail (p : GeneratorPattern) (counter : Z) (page : PageBuffer) :
  recognized p = true ->
  (8 < length page)%nat ->
  wordPasses p counter (resetPageWords page) 0 = false
  \/ wordPasses p counter (resetPageWords page) 1 = false.
Proof.
  intros Hp Hlen. unfold wordPasses.
  rewrite !pageWord_resetPageWords by (change DMA_PAGE_SIZE_32 with 2048; lia).
  destruct p; try discriminate; simpl expectedWord.
  - left. reflexivity.
  - left. reflexivity.
  - change (8 * 0 / 8) with 0. change (8 * 1 / 8) with 1.
    rewrite Z.add_0_r. unfold wrap32, BUFFER_DEFAULT_VALUE.
    destruct (Z.eqb_spec 0xCcccCccc (counter mod 2 ^ 32)) as [H0|H0];
      [|left; reflexivity].
    right. apply Z.eqb_neq. rewrite Zplus_mod, <- H0. discriminate.
Qed.

(** X3. A page that [resetPage] has filled never passes the validator: for
    each of the three recognized patterns and whatever the counter, one of the
    first two checked words (offset 0 or 8) of the reset page differs from the
    expected value, so that reading out a page the card has not written again
    is reported as an error. *)
Theorem stale_page_fails_validation (p : GeneratorPattern) (h : Handle)
  (eventNumber counter : Z) (s : Program) :
  recognized p = true ->
  (8 < length (getPage h s))%nat ->
  pagePasses p counter (getPage h (resetPage h s)) = false
  /\ exists k,
       0 <= k <= 1
       /\ checkErrors p h eventNumber counter (resetPage h s)
          = Return true
              (reportError eventNumber h (8 * k)
                 (expectedWord p counter (8 * k)) BUFFER_DEFAULT_VALUE
                 (resetPage h s)).
Proof.
  intros Hp Hlen.
  assert (Hr : 0 <= pageIndex h < Z.of_nat (length (pageMemory s))).
  { apply getPage_nonempty_range. intros E. rewrite E in Hlen. simpl in Hlen. lia. }
  pose proof (getPage_resetPage h s Hr) as Hpage.
  pose proof (reset_words_fail p counter (getPage h s) Hp Hlen) as Hfail.
  rewrite <- Hpage in Hfail.
  destruct (checkErrors_cases p h eventNumber counter (resetPage h s) Hp)
    as [[Hpass _]|(Hpass & k & Hk & Hbefore & Hk' & Hret)].
  - rewrite pagePasses_true in Hpass.
    destruct Hfail as [H|H]; rewrite Hpass in H by lia; discriminate.
  - split; [exact Hpass|].
    assert (Hk1 : k <= 1).
    { destruct (Z.le_gt_cases k 1) as [|Hgt]; [assumption|].
      destruct Hfail as [H|H]; rewrite Hbefore in H by lia; discriminate. }
    exists k. split; [lia|]. rewrite Hret. do 2 f_equal.
    rewrite Hpage. apply pageWord_resetPageWords.
    + change DMA_PAGE_SIZE_32 with 2048. lia.
    + lia.
Qed.

Lemma stale_page_fails_validation_witness :
  pagePasses Incremental 100
    (getPage handle0 (resetPage handle0 (checkingProgram true))) = false.
Proof.
  apply (stale_page_fails_validation Incremental handle0 0 100
           (checkingProgram true)).
  - reflexivity.
  - apply Nat.ltb_lt. vm_compute. reflexivity.
Defined.

(** ** The descriptor table after initialization *)

Lemma setDescriptor_Return i d s a :
  lookupZ i (mPageAddresses s) = Some a ->
  setDescriptor i d s
  = Return tt
      (set_descriptorEntries
         (insertZ d (safeDescriptor d (bus a)) (descriptorEntries s)) s).
Proof.
  intros Ha. unfold setDescriptor. rewrite bind_get, Ha. reflexivity.
Qed.

(** The loop of [initFifo] over the slots [i] to [i + n - 1]: each slot gets
    the bus address of the page of the same index, the others are left as
    they were. *)
Lemma initDescriptors_table (n : nat) :
  forall (i : Z) (s : Program),
    0 <= i ->
    i + Z.of_nat n <= Z.of_nat (length (mPageAddresses s)) ->
    exists t,
      initDescriptors n i s = Return tt (set_descriptorEntries t s)
      /\ length t = length (descriptorEntries s)
      /\ (forall d a,
            i <= d < i + Z.of_nat n ->
            d < Z.of_nat (length (descriptorEntries s)) ->
            lookupZ d (mPageAddresses s) = Some a ->
            lookupZ d t = Some (safeDescriptor d (bus a)))
      /\ (forall d, ~ i <= d < i + Z.of_nat n ->
            lookupZ d t = lookupZ d (descriptorEntries s)).
Proof.
  induction n as [|n IH]; intros i s Hi Hn.
  - exists (descriptorEntries s). split.
    { simpl. unfold ret. f_equal. destruct s. reflexivity. }
    split; [reflexivity|]. split; [intros d a Hd; lia | reflexivity].
  - destruct (lookupZ_in_range i (mPageAddresses s)) as [a Ha]; [lia|].
    simpl. rewrite (bind_Return _ _ _ _ _ (setDescriptor_Return i i s a Ha)).
    set (t1 := insertZ i (safeDescriptor i (bus a)) (descriptorEntries s)).
    destruct (IH (i + 1) (set_descriptorEntries t1 s))
      as (t & Hret & Hlen & Hin & Hout); [lia | simpl; lia |].
    simpl descriptorEntries in Hlen, Hin, Hout.
    simpl mPageAddresses in Hin.
    assert (Hlen1 : length t1 = length (descriptorEntries s))
      by apply length_insertZ.
    exists t. split; [rewrite Hret; reflexivity|].
    split; [congruence|]. split.
    + intros d a' Hd Hdl Ha'.
      destruct (decide (d = i)) as [->|Hne].
      * rewrite Hout by lia. unfold t1.
        rewrite lookupZ_insertZ_eq by lia. congruence.
      * apply Hin; [lia | lia | exact Ha'].
    + intros d Hd. rewrite Hout by lia. unfold t1.
      apply lookupZ_insertZ_ne. lia.
Qed.

Lemma initFifo_returns (partition : PageAddress * list PageAddress)
  (s : Program) :
  Z.of_nat (length (descriptorEntries s)) = NUM_PAGES ->
  NUM_PAGES < Z.of_nat (length partition.2) ->
  exists table,
    initFifo partition s = Return tt (afterInitFifo partition table s)
    /\ Z.of_nat (length table) = NUM_PAGES
    /\ (forall d, 0 <= d < NUM_PAGES ->
          exists a,
            lookupZ d partition.2 = Some a
            /\ lookupZ d table = Some (safeDescriptor d (bus a))).
Proof.
  intros Htable Hmany. unfold initFifo.
  rewrite bind_modify, bind_get. simpl.
  destruct (Z.leb_spec (Z.of_nat (length partition.2)) NUM_PAGES); [lia|].
  rewrite bind_modify.
  match goal with
  | |- context [initDescriptors ?n 0 ?s1] =>
      destruct (initDescriptors_table n 0 s1)
        as (t & Hret & Hlen & Hin & _); [lia | simpl; lia |]
  end.
  simpl descriptorEntries in Hlen, Hin. simpl mPageAddresses in Hin.
  exists t. split; [rewrite Hret; reflexivity|].
  split; [lia|].
  intros d Hd.
  destruct (lookupZ_in_range d partition.2) as [a Ha]; [lia|].
  exists a. split; [exact Ha|]. apply Hin; [lia | lia | exact Ha].
Qed.

(** X5. With more than [NUM_PAGES] pages in the buffer, [initFifo] returns
    and leaves a "valid" address in every slot of the descriptor table:
    slot [d] describes a transfer of one whole page from the card buffer
    [d % NUM_OF_BUFFERS] to the bus address of page [d] of the buffer, so
    that slots 32 apart share a card buffer and no slot is left as it was
    found.  Nothing but the addresses, the status entries (all reset) and the
    descriptor table is written. *)
Theorem initFifo_fills_descriptor_table
  (partition : PageAddress * list PageAddress) (s : Program) :
  Z.of_nat (length (descriptorEntries s)) = NUM_PAGES ->
  NUM_PAGES < Z.of_nat (length partition.2) ->
  exists table,
    initFifo partition s = Return tt (afterInitFifo partition table s)
    /\ Z.of_nat (length table) = NUM_PAGES
    /\ (forall d, 0 <= d < NUM_PAGES ->
          exists a,
            lookupZ d partition.2 = Some a
            /\ lookupZ d table = Some (safeDescriptor d (bus a)))
    /\ (forall d d' x x',
          lookupZ d table = Some x -> lookupZ d' table = Some x' ->
          d mod NUM_OF_BUFFERS = d' mod NUM_OF_BUFFERS ->
          dSource x = dSource x'
          /\ 0 <= dSource x < NUM_OF_BUFFERS * DMA_PAGE_SIZE
          /\ dLength x = DMA_PAGE_SIZE_32).
Proof.
  intros Htable Hmany.
  destruct (initFifo_returns partition s Htable Hmany)
    as (t & Hret & Hlen & Hslot).
  exists t. split; [exact Hret|]. split; [exact Hlen|].
  split; [exact Hslot|].
  intros d d' x x' Hx Hx' Hmod.
  pose proof (lookupZ_Some_range _ _ _ Hx) as Hd.
  pose proof (lookupZ_Some_range _ _ _ Hx') as Hd'.
  destruct (Hslot d) as (a & _ & Ha); [lia|].
  destruct (Hslot d') as (a' & _ & Ha'); [lia|].
  rewrite Hx in Ha. rewrite Hx' in Ha'.
  inversion Ha; subst x. inversion Ha'; subst x'. simpl.
  rewrite !Z.rem_mod_nonneg by (unfold NUM_OF_BUFFERS; lia).
  rewrite Hmod. split; [reflexivity|]. split; [|reflexivity].
  pose proof (Z.mod_pos_bound d' NUM_OF_BUFFERS ltac:(reflexivity)).
  unfold DMA_PAGE_SIZE, NUM_OF_BUFFERS in *. lia.
Qed.

Lemma initFifo_fills_descriptor_table_witness :
  exists table,
    initFifo (fifoAddressOf, pageAddressesOf 130) freshProgram
    = Return tt
        (afterInitFifo (fifoAddressOf, pageAddressesOf 130) table freshProgram)
    /\ Z.of_nat (length table) = NUM_PAGES.
Proof.
  destruct (initFifo_fills_descriptor_table
              (fifoAddressOf, pageAddressesOf 130) freshProgram)
    as (table & Hret & Hlen & _).
  - reflexivity.
  - vm_compute. reflexivity.
  - exists table. split; assumption.
Defined.

(** ** The rings of descriptors and pages *)

(** The low priority tasks write the members that steer the loop, and
    nothing of the rings, the validator or the pages. *)
Lemma lowPriorityTasks_data e s :
  mPageAddresses (lowPriorityTasks e s) = mPageAddresses s
  /\ mDescriptorCounter (lowPriorityTasks e s) = mDescriptorCounter s
  /\ mPageIndexCounter (lowPriorityTasks e s) = mPageIndexCounter s
  /\ mInfinitePages (lowPriorityTasks e s) = mInfinitePages s
  /\ mErrorCount (lowPriorityTasks e s) = mErrorCount s
  /\ mErrorStream (lowPriorityTasks e s) = mErrorStream s.
Proof.
  unfold lowPriorityTasks, breakLoop, startHandlingSigint, queueSize.
  destruct (mLowPriorityCounter s <? LOW_PRIORITY_INTERVAL);
    [repeat split|].
  destruct (isMaxExceeded e); [repeat split|].
  destruct (isSigInt e); [|repeat split].
  cbv zeta. simpl. destruct (negb (mHandlingSigint s)); simpl;
    (destruct (Z.of_nat (length (mQueue s)) =? 0); [repeat split|]);
    (destruct (HANDLING_SIGINT_TIMEOUT <? _); repeat split).
Qed.

Lemma pushes_emit_other ev s :
  pushedHandle ev = None -> pushes (trace (emit ev s)) = pushes (trace s).
Proof.
  intros Hev. simpl. rewrite pushes_app. simpl. unfold pushes at 2. simpl.
  rewrite Hev. apply app_nil_r.
Qed.

Lemma ring_start s0 : ringsAtStart s0 -> RingInvariant s0 s0.
Proof.
  intros ((Hq & Ht & Hp & Hr) & Hpages & Hd & Hi).
  constructor; rewrite ?Hp, ?Hd, ?Hi, ?Ht; reflexivity.
Qed.

Lemma ring_step s0 s s' :
  0 < pageCount s0 < 2 ^ 31 ->
  RingInvariant s0 s -> step s s' -> RingInvariant s0 s'.
Proof.
  intros Hpages Inv Hstep. destruct Hstep as
    [s s' Hguard Hpush | n s | e s | e s | s s' Hguard Hread | s | s | s].
  - (* pushPage *)
    destruct Inv as [Ia Ip Id Ii It].
    apply pushPage_effect in Hpush. destruct Hpush as (a & _ & ->).
    assert (Hi : 0 <= mPageIndexCounter s < pageCount s0)
      by (rewrite Ii; apply Z.mod_pos_bound; lia).
    constructor; simpl.
    + exact Ia.
    + lia.
    + rewrite Id. unfold NUM_PAGES, FIFO_ENTRIES, NUM_OF_BUFFERS.
      rewrite Z.rem_mod_nonneg by (Z.to_euclidean_division_equations; lia).
      rewrite Zplus_mod_idemp_l. reflexivity.
    + rewrite Ia. fold (pageCount s0).
      unfold wrap64. rewrite (Z.mod_small (mPageIndexCounter s + 1)) by lia.
      rewrite toInt_small
        by (pose proof (Z.mod_pos_bound (mPageIndexCounter s + 1)
                          (pageCount s0)); lia).
      rewrite Ii, Zplus_mod_idemp_l. reflexivity.
    + rewrite pushes_app, It. simpl.
      replace (Z.to_nat (mPushCounter s + 1))
        with (S (Z.to_nat (mPushCounter s))) by lia.
      rewrite seq_S, map_app. simpl. do 2 f_equal.
      unfold handleOfPush. rewrite Z2Nat.id by lia.
      rewrite <- Id, <- Ii. reflexivity.
  - destruct Inv. constructor; assumption.
  - destruct Inv. constructor; assumption.
  - (* lowPriorityTasks *)
    destruct Inv as [Ia Ip Id Ii It].
    destruct (lowPriorityTasks_frame e s) as (_ & _ & Hp & _ & msgs & Ht).
    destruct (lowPriorityTasks_data e s) as (Ha & Hd & Hi & _).
    constructor; rewrite ?Ha, ?Hd, ?Hi, ?Hp, ?Ht, ?pushes_app,
      ?pushes_messages, ?app_nil_r; assumption.
  - (* readoutPage, acknowledgePage, pop *)
    destruct Inv as [Ia Ip Id Ii It].
    apply readoutQueueHasPageAvailable_true in Hguard.
    destruct Hguard as (h & rest & Hq & _).
    destruct (readoutAndAcknowledge_effect s s' h rest Hq Hread)
      as [_ (c & ec & es & ->)].
    constructor; simpl;
      rewrite ?pushes_app, ?pushes_readoutEvents, ?app_nil_r; assumption.
  - destruct Inv. constructor; try assumption.
    rewrite pushes_emit_other by reflexivity. assumption.
  - destruct Inv. constructor; try assumption.
    unfold outputErrors. rewrite pushes_emit_other by reflexivity. assumption.
  - destruct Inv. constructor; try assumption.
    unfold outputStats. rewrite pushes_emit_other by reflexivity. assumption.
Qed.

Lemma reachable_rings s0 s :
  ringsAtStart s0 -> reachable s0 s -> RingInvariant s0 s.
Proof.
  intros Hstart Hreach. induction Hreach as [|s s' _ IH Hstep].
  - apply ring_start. exact Hstart.
  - eapply ring_step; [apply Hstart | exact IH | exact Hstep].
Qed.

(** X6. In every state of a run the two ring counters are functions of the
    push counter: [mDescriptorCounter] is [mPushCounter % 128] (the remark in
    the declaration of the member) and [mPageIndexCounter] is [mPushCounter]
    modulo the number of pages of the buffer.  So both stay inside their
    rings, and the [k]-th page pushed, counted from 0, went to descriptor
    [k % 128] and page [k % pages]. *)
Theorem ring_counters_follow_push_counter (s0 s : Program) :
  ringsAtStart s0 ->
  reachable s0 s ->
  mDescriptorCounter s = mPushCounter s mod NUM_PAGES
  /\ mPageIndexCounter s = mPushCounter s mod pageCount s
  /\ NUM_PAGES = 128
  /\ wellFormed s
  /\ Z.of_nat (length (pushes (trace s))) = mPushCounter s
  /\ (forall k h, pushes (trace s) !! k = Some h ->
        descriptorIndex h = Z.of_nat k mod NUM_PAGES
        /\ pageIndex h = Z.of_nat k mod pageCount s).
Proof.
  intros Hstart Hreach.
  destruct (reachable_rings s0 s Hstart Hreach) as [Ia Ip Id Ii It].
  destruct Hstart as (_ & Hpages & _).
  assert (Hc : pageCount s = pageCount s0) by (unfold pageCount; rewrite Ia; reflexivity).
  rewrite Hc.
  split; [exact Id|]. split; [exact Ii|]. split; [reflexivity|].
  split.
  { unfold wellFormed. fold (pageCount s). rewrite Hc, Id, Ii.
    split; [exact Hpages|].
    split; apply Z.mod_pos_bound; [lia | reflexivity]. }
  split.
  { rewrite It, length_map, length_seq. lia. }
  intros k h Hk. rewrite It in Hk.
  apply list_lookup_fmap_Some in Hk. destruct Hk as (k' & -> & Hk').
  apply lookup_seq in Hk'. destruct Hk' as [-> _].
  split; reflexivity.
Qed.

Lemma ringsAtStart_readyProgram o mem : ringsAtStart (readyProgram o mem).
Proof.
  split; [apply startOfRun_readyProgram|].
  split; [vm_compute; split; reflexivity|]. split; reflexivity.
Qed.

Lemma ring_counters_follow_push_counter_witness :
  mDescriptorCounter
    (stateOf (fillReadoutQueue (readyProgram (plainOptions 5 false) [])))
  = 5 mod NUM_PAGES.
Proof.
  destruct (ring_counters_follow_push_counter
              (readyProgram (plainOptions 5 false) [])
              (stateOf (fillReadoutQueue (readyProgram (plainOptions 5 false) []))))
    as (Hd & _).
  - apply ringsAtStart_readyProgram.
  - apply fivePagesPushed_reachable.
  - exact Hd.
Defined.

(** ** The pages in flight *)

(** Numbers less than [m] apart with the same remainder modulo [m] are
    equal. *)
Lemma mod_window_inj (m : Z) (r n x y : nat) :
  0 < m -> Z.of_nat n <= m ->
  x ∈ seq r n -> y ∈ seq r n ->
  Z.of_nat x mod m = Z.of_nat y mod m -> x = y.
Proof.
  intros Hm Hn Hx Hy Hmod.
  apply elem_of_seq in Hx. apply elem_of_seq in Hy.
  pose proof (Z.div_mod (Z.of_nat x) m ltac:(lia)) as Ex.
  pose proof (Z.div_mod (Z.of_nat y) m ltac:(lia)) as Ey.
  rewrite Hmod in Ex.
  assert (Hq : Z.of_nat x / m = Z.of_nat y / m) by nia.
  rewrite Hq in Ex. lia.
Qed.

Lemma NoDup_mod_window (m : Z) (r n : nat) :
  0 < m -> Z.of_nat n <= m ->
  NoDup (map (fun k => Z.of_nat k mod m) (seq r n)).
Proof.
  intros Hm Hn.
  apply (NoDup_fmap_2_strong (fun k => Z.of_nat k mod m)); [|apply NoDup_seq].
  intros x y Hx Hy Hxy. eapply mod_window_inj; eauto.
Qed.

(** The queue holds the handles of the pushes that are not read out yet. *)
Lemma queue_is_window s0 s :
  ringsAtStart s0 -> reachable s0 s ->
  mQueue s
  = map (handleOfPush (pageCount s0))
      (seq (Z.to_nat (mReadoutCounter s)) (length (mQueue s))).
Proof.
  intros Hstart Hreach.
  destruct (reachable_rings s0 s Hstart Hreach) as [_ _ _ _ It].
  destruct (reachable_invariant s0 s (proj1 Hstart) Hreach)
    as [_ _ If Ip Iq _].
  assert (Hlen : length (pushes (trace s))
                 = (length (pops (trace s)) + length (mQueue s))%nat)
    by (rewrite If, length_app; reflexivity).
  rewrite <- (drop_app_length (pops (trace s)) (mQueue s)) at 1.
  rewrite <- If, It, skipn_map, drop_seq. f_equal. f_equal; lia.
Qed.

(** In page-limited mode no push passes the limit. *)
Lemma reachable_limit s0 s :
  startOfRun s0 ->
  reachable s0 s ->
  mInfinitePages s = mInfinitePages s0
  /\ (mInfinitePages s0 = false -> 0 <= maxPages (opts s0) ->
      mPushCounter s <= maxPages (opts s0)).
Proof.
  intros Hstart Hreach.
  induction Hreach as [|s s' Hreach IH Hstep].
  - split; [reflexivity|]. intros _ Hmax.
    destruct Hstart as (_ & _ & -> & _). exact Hmax.
  - destruct IH as [IHf IHp].
    pose proof (inv_opts _ _ (reachable_invariant s0 s Hstart Hreach)) as Ho.
    destruct Hstep as
      [s s' Hguard Hpush | n s | e s | e s | s s' Hguard Hread | s | s | s];
      try (split; assumption).
    + apply pushPage_effect in Hpush. destruct Hpush as (a & _ & ->).
      apply shouldPushQueue_true in Hguard.
      destruct Hguard as (_ & Hmode & _).
      split; [exact IHf|]. intros Hfinite Hmax. simpl.
      destruct Hmode as [Hinf|Hlt]; [congruence | rewrite <- Ho; lia].
    + destruct (lowPriorityTasks_frame e s) as (_ & _ & Hp & _).
      destruct (lowPriorityTasks_data e s) as (_ & _ & _ & Hi & _).
      rewrite Hp, Hi. split; assumption.
    + apply readoutQueueHasPageAvailable_true in Hguard.
      destruct Hguard as (h & rest & Hq & _).
      destruct (readoutAndAcknowledge_effect s s' h rest Hq Hread)
        as [_ (c & ec & es & ->)].
      split; assumption.
Qed.

(** X7. In every state of a run each page pushed is either read out or in
    the queue: [mPushCounter = mReadoutCounter + mQueue.size()], so that the
    readout counter never passes the push counter and at most 128 pages are
    in flight; and in page-limited mode the push counter, hence also the
    readout counter, never passes [maxPages]. *)
Theorem pushed_pages_are_read_or_queued (s0 s : Program) :
  startOfRun s0 ->
  reachable s0 s ->
  mPushCounter s = mReadoutCounter s + queueSize s
  /\ 0 <= mReadoutCounter s <= mPushCounter s
  /\ mPushCounter s <= mReadoutCounter s + NUM_PAGES
  /\ (mInfinitePages s0 = false -> 0 <= maxPages (opts s0) ->
      mInfinitePages s = false
      /\ mPushCounter s <= maxPages (opts s0)
      /\ mReadoutCounter s <= maxPages (opts s0)).
Proof.
  intros Hstart Hreach.
  destruct (reachable_invariant s0 s Hstart Hreach) as [_ Ic If Ip Iq _].
  assert (Hsum : mPushCounter s = mReadoutCounter s + queueSize s).
  { rewrite <- Ip, <- Iq, If, length_app. unfold queueSize. lia. }
  pose proof (queueSize_nonneg s) as Hq0.
  split; [exact Hsum|]. split; [lia|]. split; [lia|].
  intros Hfinite Hmax.
  destruct (reachable_limit s0 s Hstart Hreach) as [Hf Hp].
  split; [congruence|]. split; [apply Hp; assumption|].
  pose proof (Hp Hfinite Hmax). lia.
Qed.

Lemma pushed_pages_are_read_or_queued_witness :
  mPushCounter (stateOf legacyRunOfFive)
  = mReadoutCounter (stateOf legacyRunOfFive)
    + queueSize (stateOf legacyRunOfFive)
  /\ mReadoutCounter (stateOf legacyRunOfFive) <= 5.
Proof.
  destruct (pushed_pages_are_read_or_queued
              (readyProgram (plainOptions 5 true) []) (stateOf legacyRunOfFive))
    as (Hsum & _ & _ & Hlimit).
  - apply startOfRun_readyProgram.
  - apply (runDma_reachable _ (repeat (quietEnv [0; 1; 2; 3; 4]) 6)
             ExitPageLimit).
    vm_compute. reflexivity.
  - split; [exact Hsum|]. apply Hlimit; [reflexivity | vm_compute; discriminate].
Defined.

(** X8. In every state of a run the queue holds the handles of the pushes
    number [mReadoutCounter] to [mPushCounter - 1], oldest first, and no two
    of them name the same descriptor; when the buffer has at least
    [NUM_PAGES] pages, which [initFifo] insists on, no two of them name the
    same page either: the card is never given one page, or one descriptor,
    for two transfers at a time. *)
Theorem queued_handles_are_distinct (s0 s : Program) :
  ringsAtStart s0 ->
  reachable s0 s ->
  mQueue s
  = map (handleOfPush (pageCount s))
      (seq (Z.to_nat (mReadoutCounter s)) (length (mQueue s)))
  /\ NoDup (map descriptorIndex (mQueue s))
  /\ (NUM_PAGES <= pageCount s -> NoDup (map pageIndex (mQueue s))).
Proof.
  intros Hstart Hreach.
  pose proof (queue_is_window s0 s Hstart Hreach) as Hq.
  pose proof (inv_capacity _ _ (reachable_invariant s0 s (proj1 Hstart) Hreach))
    as Hcap.
  pose proof (ring_addresses _ _ (reachable_rings s0 s Hstart Hreach)) as Ha.
  assert (Hc : pageCount s = pageCount s0)
    by (unfold pageCount; rewrite Ha; reflexivity).
  unfold queueSize in Hcap. rewrite Hc.
  split; [exact Hq|].
  split.
  - rewrite Hq, map_map. simpl.
    apply NoDup_mod_window; [reflexivity | exact Hcap].
  - intros Hmany. rewrite Hq, map_map. simpl.
    destruct Hstart as (_ & Hpages & _).
    apply NoDup_mod_window; lia.
Qed.

Lemma queued_handles_are_distinct_witness :
  NoDup (map descriptorIndex
           (mQueue (stateOf (fillReadoutQueue
                               (readyProgram (plainOptions 5 false) []))))).
Proof.
  apply (queued_handles_are_distinct (readyProgram (plainOptions 5 false) [])).
  - apply ringsAtStart_readyProgram.
  - apply fivePagesPushed_reachable.
Defined.

(** ** Stopping *)

Ltac latch :=
  simpl; repeat split; intros;
  first [reflexivity | assumption | discriminate | congruence | solve [auto]].

(** What the low priority tasks switch, they switch one way. *)
Lemma lowPriorityTasks_latches e s :
  (mPushEnabled s = false -> mPushEnabled (lowPriorityTasks e s) = false)
  /\ (mHandlingSigint s = true ->
      mHandlingSigint (lowPriorityTasks e s) = true
      /\ mHandlingSigintStart (lowPriorityTasks e s) = mHandlingSigintStart s)
  /\ (mDmaLoopBreak s = true -> mDmaLoopBreak (lowPriorityTasks e s) = true)
  /\ ((mHandlingSigint s = true -> mPushEnabled s = false) ->
      mHandlingSigint (lowPriorityTasks e s) = true ->
      mPushEnabled (lowPriorityTasks e s) = false).
Proof.
  unfold lowPriorityTasks, breakLoop, startHandlingSigint, queueSize.
  destruct (mLowPriorityCounter s <? LOW_PRIORITY_INTERVAL); [latch|].
  destruct (isMaxExceeded e); [latch|].
  destruct (isSigInt e); [|latch].
  cbv zeta. simpl. destruct (mHandlingSigint s) eqn:Hh; simpl;
    (destruct (Z.of_nat (length (mQueue s)) =? 0); [latch|]);
    (destruct (HANDLING_SIGINT_TIMEOUT <? _); latch).
Qed.

Lemma step_latches s s' :
  step s s' ->
  (mPushEnabled s = false ->
   mPushEnabled s' = false /\ mPushCounter s' = mPushCounter s
   /\ queueSize s' <= queueSize s)
  /\ (mHandlingSigint s = true ->
      mHandlingSigint s' = true
      /\ mHandlingSigintStart s' = mHandlingSigintStart s)
  /\ (mDmaLoopBreak s = true -> mDmaLoopBreak s' = true)
  /\ ((mHandlingSigint s = true -> mPushEnabled s = false) ->
      mHandlingSigint s' = true -> mPushEnabled s' = false).
Proof.
  intros Hstep. destruct Hstep as
    [s s' Hguard Hpush | n s | e s | e s | s s' Hguard Hread | s | s | s].
  - apply pushPage_effect in Hpush. destruct Hpush as (a & _ & ->).
    apply shouldPushQueue_true in Hguard. destruct Hguard as (_ & _ & Hpe).
    split; [intros H; rewrite Hpe in H; discriminate|].
    split; [latch|]. split; [latch|].
    intros Hinv H. apply Hinv. exact H.
  - unfold queueSize. latch.
  - unfold queueSize. latch.
  - destruct (lowPriorityTasks_latches e s) as (Hpe & Hh & Hb & Hinv).
    destruct (lowPriorityTasks_frame e s) as (_ & Hq & Hp & _).
    unfold queueSize. rewrite Hq, Hp.
    split; [intros H; split; [apply Hpe; exact H | split; reflexivity]|].
    split; [assumption|]. split; assumption.
  - apply readoutQueueHasPageAvailable_true in Hguard.
    destruct Hguard as (h & rest & Hq & _).
    destruct (readoutAndAcknowledge_effect s s' h rest Hq Hread)
      as [_ (c & ec & es & ->)].
    unfold queueSize. rewrite Hq. simpl.
    split; [intros H; split; [exact H | split; [reflexivity | lia]]|].
    split; [intros H; split; [exact H | reflexivity]|].
    split; [intros H; exact H|]. intros Hinv H. apply Hinv. exact H.
  - unfold queueSize. latch.
  - unfold queueSize. latch.
  - unfold queueSize. latch.
Qed.

(** X10. What stops a run is final.  From a state in which pushing is
    disabled no page is pushed any more, pushing is never enabled again and
    the queue only shrinks; once SIGINT is being handled it stays so, and the
    start time of the handling, from which the timeout counts, is never taken
    again; the loop break flag, once set, is never cleared; and as SIGINT
    handling and the end of pushing are switched together, a run in which
    SIGINT is being handled does not push. *)
Theorem stopping_is_final (s s' : Program) :
  reachable s s' ->
  (mPushEnabled s = false ->
   mPushEnabled s' = false /\ mPushCounter s' = mPushCounter s
   /\ queueSize s' <= queueSize s)
  /\ (mHandlingSigint s = true ->
      mHandlingSigint s' = true
      /\ mHandlingSigintStart s' = mHandlingSigintStart s)
  /\ (mDmaLoopBreak s = true -> mDmaLoopBreak s' = true)
  /\ ((mHandlingSigint s = true -> mPushEnabled s = false) ->
      mHandlingSigint s' = true -> mPushEnabled s' = false).
Proof.
  intros Hreach. induction Hreach as [|s1 s2 _ IH Hstep].
  - split; [intros H; split; [exact H | split; [reflexivity | lia]]|].
    split; [intros H; split; [exact H | reflexivity]|].
    split; [intros H; exact H | intros Hinv H; apply Hinv; exact H].
  - destruct IH as (IHp & IHh & IHb & IHi).
    destruct (step_latches s1 s2 Hstep) as (Sp & Sh & Sb & Si).
    split; [|split; [|split]].
    + intros H. destruct (IHp H) as (H1 & H2 & H3).
      destruct (Sp H1) as (H4 & H5 & H6).
      split; [exact H4|]. split; [congruence | lia].
    + intros H. destruct (IHh H) as (H1 & H2).
      destruct (Sh H1) as (H3 & H4). split; [exact H3 | congruence].
    + intros H. apply Sb, IHb, H.
    + intros Hinv. apply Si. apply IHi. exact Hinv.
Qed.

Lemma stopping_is_final_witness :
  mPushEnabled (card (quietEnv [0]) (lowPriorityTasks sigintEnv checkDue))
  = false
  /\ mHandlingSigint (card (quietEnv [0]) (lowPriorityTasks sigintEnv checkDue))
     = true.
Proof.
  destruct (stopping_is_final (lowPriorityTasks sigintEnv checkDue)
              (card (quietEnv [0]) (lowPriorityTasks sigintEnv checkDue)))
    as (Hpe & Hh & _).
  - eapply reach_step; [apply reach_start | apply step_card].
  - split; [apply Hpe | apply Hh]; reflexivity.
Defined.

(** ** The period of the low priority check *)

Lemma set_mLowPriorityCounter_same s :
  set_mLowPriorityCounter (mLowPriorityCounter s) s = s.
Proof. destruct s. reflexivity. Qed.

(** X11. [lowPriorityTasks] looks at the temperature flag and at SIGINT on
    every 10001st call only: while the counter is below
    [LOW_PRIORITY_INTERVAL] a call does nothing but count, whatever the
    flags are, so that from a counter of 0 the first 10000 calls leave the
    program object as it was but for the counter, and the next call resets
    the counter and acts on the flags (here: sets the loop break flag when
    the temperature flag is up). *)
Theorem low_priority_check_period (envs : list Env) (s : Program) :
  mLowPriorityCounter s + Z.of_nat (length envs) <= LOW_PRIORITY_INTERVAL ->
  lowPriorityCalls envs s
  = set_mLowPriorityCounter (mLowPriorityCounter s + Z.of_nat (length envs)) s
  /\ (mLowPriorityCounter s + Z.of_nat (length envs) = LOW_PRIORITY_INTERVAL ->
      forall e,
        mLowPriorityCounter (lowPriorityTasks e (lowPriorityCalls envs s)) = 0
        /\ (isMaxExceeded e = true ->
            mDmaLoopBreak (lowPriorityTasks e (lowPriorityCalls envs s)) = true)).
Proof.
  intros Hlen.
  assert (Hcalls : lowPriorityCalls envs s
                   = set_mLowPriorityCounter
                       (mLowPriorityCounter s + Z.of_nat (length envs)) s).
  { revert s Hlen. induction envs as [|e envs IH]; intros s Hlen.
    - simpl. rewrite Z.add_0_r. symmetry. apply set_mLowPriorityCounter_same.
    - simpl length in *. unfold lowPriorityCalls in *. simpl foldl.
      assert (Hone : lowPriorityTasks e s
                     = set_mLowPriorityCounter (mLowPriorityCounter s + 1) s).
      { unfold lowPriorityTasks.
        destruct (Z.ltb_spec (mLowPriorityCounter s) LOW_PRIORITY_INTERVAL);
          [reflexivity | lia]. }
      rewrite Hone, IH by (simpl; lia). simpl.
      replace (mLowPriorityCounter s + 1 + Z.of_nat (length envs))
        with (mLowPriorityCounter s + Z.of_nat (S (length envs))) by lia.
      destruct s. reflexivity. }
  split; [exact Hcalls|].
  intros Hdue e. rewrite Hcalls, Hdue. unfold lowPriorityTasks. simpl.
  destruct (isMaxExceeded e); [split; reflexivity|].
  split; [|discriminate].
  unfold startHandlingSigint, breakLoop, queueSize.
  destruct (isSigInt e); [|reflexivity].
  simpl. destruct (negb (mHandlingSigint s)); simpl;
    (destruct (Z.of_nat (length (mQueue s)) =? 0); [reflexivity|]);
    (destruct (HANDLING_SIGINT_TIMEOUT <? _); reflexivity).
Qed.

Lemma low_priority_check_period_witness :
  mDmaLoopBreak
    (lowPriorityTasks hotEnv
       (lowPriorityCalls (repeat hotEnv (Z.to_nat LOW_PRIORITY_INTERVAL))
          (readyProgram (plainOptions 0 false) []))) = true.
Proof.
  destruct (low_priority_check_period
              (repeat hotEnv (Z.to_nat LOW_PRIORITY_INTERVAL))
              (readyProgram (plainOptions 0 false) [])) as [_ Hdue].
  - rewrite repeat_length. vm_compute. discriminate.
  - apply Hdue; [rewrite repeat_length|]; reflexivity.
Defined.

(** ** SIGINT *)

(** The turn that finds the loop break flag set leaves the loop. *)
Lemma dmaLoop_break_turn e envs s :
  mDmaLoopBreak s = true ->
  dmaLoop (e :: envs) s =
  if negb (mInfinitePages s) && (maxPages (opts s) <=? mReadoutCounter s)
  then Return ExitPageLimit (emit (EvMessage MsgMaximumPagesReached) (card e s))
  else Return ExitLoopBreak (card e s).
Proof.
  intros Hb. rewrite dmaLoop_unfold. unfold loopIteration. rewrite bind_get.
  change (mInfinitePages (card e s)) with (mInfinitePages s).
  change (opts (card e s)) with (opts s).
  change (mReadoutCounter (card e s)) with (mReadoutCounter s).
  change (mDmaLoopBreak (card e s)) with (mDmaLoopBreak s).
  rewrite Hb.
  destruct (negb (mInfinitePages s) && (maxPages (opts s) <=? mReadoutCounter s));
    [rewrite bind_modify|]; reflexivity.
Qed.

(** A turn in which pushing is disabled pushes nothing: it runs the low
    priority tasks and reads out at most the page at the front. *)
Lemma loopIteration_push_disabled e s :
  wellFormed s -> validatorCanRun s = true -> queueSize s <= NUM_PAGES ->
  mDmaLoopBreak s = false ->
  negb (mInfinitePages s) && (maxPages (opts s) <=? mReadoutCounter s) = false ->
  mPushEnabled (lowPriorityTasks e s) = false ->
  exists s',
    loopIteration e s = Return None s'
    /\ (s' = lowPriorityTasks e s
        \/ exists h rest c ec es,
             mQueue s = h :: rest
             /\ s' = afterReadout h rest c ec es (lowPriorityTasks e s)).
Proof.
  intros Hwf Hok Hq Hbreak Hlimit Hpe. unfold loopIteration.
  rewrite bind_get, Hlimit, Hbreak, bind_modify.
  destruct (lowPriorityTasks_frame e s) as (Ho & Hqueue & _).
  destruct (fillReadoutQueue_total (lowPriorityTasks e s))
    as (s1 & Hfill & _ & Hsame).
  { apply lowPriorityTasks_wellFormed. exact Hwf. }
  { unfold queueSize. rewrite Hqueue. exact Hq. }
  rewrite Hsame in Hfill
    by (unfold shouldPushQueue; rewrite Hpe; apply andb_false_r).
  rewrite (bind_Return _ _ _ _ _ Hfill), bind_assoc, bind_get.
  destruct (readoutQueueHasPageAvailable (lowPriorityTasks e s)) eqn:Havail;
    simpl when.
  - apply readoutQueueHasPageAvailable_true in Havail.
    destruct Havail as (h & rest & Hq' & _).
    destruct (readoutAndAcknowledge_total (lowPriorityTasks e s) h rest Hq')
      as (c & ec & es & Hread).
    { rewrite (validatorCanRun_opts _ _ Ho). exact Hok. }
    rewrite (bind_Return _ _ _ _ _ Hread). eexists. split; [reflexivity|].
    right. exists h, rest, c, ec, es. split; [congruence | reflexivity].
  - eexists. split; [reflexivity|]. left. reflexivity.
Qed.

(** The low priority check that finds SIGINT raised, and the queue empty or
    the time for draining it over. *)
Lemma lowPriorityTasks_sigint_stop e s :
  LOW_PRIORITY_INTERVAL <= mLowPriorityCounter s ->
  isMaxExceeded e = false -> isSigInt e = true ->
  (mHandlingSigint s = true -> mPushEnabled s = false) ->
  (queueSize s = 0
   \/ HANDLING_SIGINT_TIMEOUT
      < nowTimeoutCheck e
        - (if mHandlingSigint s then mHandlingSigintStart s
           else nowSigintStart e)) ->
  mPushEnabled (lowPriorityTasks e s) = false
  /\ mHandlingSigint (lowPriorityTasks e s) = true
  /\ mDmaLoopBreak (lowPriorityTasks e s) = true
  /\ trace (lowPriorityTasks e s)
     = trace s
       ++ [EvMessage (if queueSize s =? 0 then MsgInterrupted
                      else MsgInterruptedDidNotFinish)].
Proof.
  intros Hdue Hcool Hsig Hinv Hstop. unfold lowPriorityTasks.
  destruct (Z.ltb_spec (mLowPriorityCounter s) LOW_PRIORITY_INTERVAL); [lia|].
  rewrite Hcool, Hsig. unfold startHandlingSigint, breakLoop, queueSize in *.
  cbv zeta. simpl.
  destruct (mHandlingSigint s) eqn:Hh; simpl;
    (destruct (Z.eqb_spec (Z.of_nat (length (mQueue s))) 0) as [Hq|Hq];
     [repeat split; first [apply Hinv; reflexivity | assumption | reflexivity]|]);
    (destruct (Z.ltb_spec HANDLING_SIGINT_TIMEOUT
                 (nowTimeoutCheck e - mHandlingSigintStart s));
     destruct (Z.ltb_spec HANDLING_SIGINT_TIMEOUT
                 (nowTimeoutCheck e - nowSigintStart e));
     try (repeat split;
          first [apply Hinv; reflexivity | assumption | reflexivity]);
     destruct Hstop; lia).
Qed.

(** What one readout in [runDma] writes of the members the loop is steered
    by, of the counters and of the history. *)
Lemma afterReadout_members h rest c ec es s :
  control (afterReadout h rest c ec es s) = control s
  /\ mPushCounter (afterReadout h rest c ec es s) = mPushCounter s
  /\ mReadoutCounter (afterReadout h rest c ec es s) = mReadoutCounter s + 1
  /\ trace (afterReadout h rest c ec es s) = trace s ++ readoutEvents h s.
Proof. destruct s. repeat split. Qed.

(** The card writes pages and status entries only. *)
Lemma card_members e s :
  control (card e s) = control s
  /\ mPushCounter (card e s) = mPushCounter s
  /\ mReadoutCounter (card e s) = mReadoutCounter s
  /\ trace (card e s) = trace s
  /\ mQueue (card e s) = mQueue s.
Proof. destruct s. repeat split. Qed.

Lemma emit_members ev s :
  control (emit ev s) = control s
  /\ mPushCounter (emit ev s) = mPushCounter s
  /\ mReadoutCounter (emit ev s) = mReadoutCounter s
  /\ trace (emit ev s) = trace s ++ [ev].
Proof. destruct s. repeat split. Qed.

(** The turn that finds the loop break flag set: what the loop is left
    with. *)
Lemma dmaLoop_break_exit e envs s :
  mDmaLoopBreak s = true ->
  exists exit s' t,
    dmaLoop (e :: envs) s = Return exit s'
    /\ control s' = control s
    /\ mPushCounter s' = mPushCounter s
    /\ mReadoutCounter s' = mReadoutCounter s
    /\ trace s' = trace s ++ t
    /\ pushes t = []
    /\ (negb (mInfinitePages s) && (maxPages (opts s) <=? mReadoutCounter s)
        = false -> exit = ExitLoopBreak /\ t = []).
Proof.
  intros Hb. rewrite (dmaLoop_break_turn e envs s Hb).
  destruct (card_members e s) as (Cc & Cp & Cr & Ct & _).
  destruct (negb (mInfinitePages s) && (maxPages (opts s) <=? mReadoutCounter s)).
  - destruct (emit_members (EvMessage MsgMaximumPagesReached) (card e s))
      as (Ec & Ep & Er & Et).
    exists ExitPageLimit,
      (emit (EvMessage MsgMaximumPagesReached) (card e s)),
      [EvMessage MsgMaximumPagesReached].
    split; [reflexivity|]. split; [congruence|]. split; [congruence|].
    split; [congruence|]. split; [congruence|].
    split; [reflexivity | discriminate].
  - exists ExitLoopBreak, (card e s), [].
    split; [reflexivity|]. split; [exact Cc|]. split; [exact Cp|].
    split; [exact Cr|]. split; [rewrite app_nil_r; exact Ct|].
    split; [reflexivity|]. intros _. split; reflexivity.
Qed.

(** X12. A SIGINT that the low priority check finds with the queue empty, or
    with the time for draining the queue over (more than
    [HANDLING_SIGINT_TIMEOUT] after the start time taken at the first check
    that saw it), ends the loop in the next turn.  No page is pushed any
    more, at most one more page is read out, the message for the empty queue
    or the one for the queue that was not finished is printed accordingly,
    and with the queue empty the loop is left through the loop break flag
    with nothing read out in between. *)
Theorem sigint_stops_loop (e1 e2 : Env) (envs : list Env) (s : Program) :
  wellFormed s ->
  validatorCanRun s = true ->
  queueSize s <= NUM_PAGES ->
  LOW_PRIORITY_INTERVAL <= mLowPriorityCounter s ->
  mDmaLoopBreak s = false ->
  negb (mInfinitePages s) && (maxPages (opts s) <=? mReadoutCounter s) = false ->
  isMaxExceeded e1 = false ->
  isSigInt e1 = true ->
  (mHandlingSigint s = true -> mPushEnabled s = false) ->
  (queueSize s = 0
   \/ HANDLING_SIGINT_TIMEOUT
      < nowTimeoutCheck e1
        - (if mHandlingSigint s then mHandlingSigintStart s
           else nowSigintStart e1)) ->
  exists exit s' t,
    dmaLoop (e1 :: e2 :: envs) s = Return exit s'
    /\ trace s'
       = trace s
         ++ [EvMessage (if queueSize s =? 0 then MsgInterrupted
                        else MsgInterruptedDidNotFinish)]
         ++ t
    /\ pushes t = []
    /\ mPushEnabled s' = false
    /\ mHandlingSigint s' = true
    /\ mDmaLoopBreak s' = true
    /\ mPushCounter s' = mPushCounter s
    /\ mReadoutCounter s <= mReadoutCounter s' <= mReadoutCounter s + 1
    /\ (queueSize s = 0 ->
        exit = ExitLoopBreak /\ mReadoutCounter s' = mReadoutCounter s).
Proof.
  intros Hwf Hok Hq Hdue Hbreak Hlimit Hcool Hsig Hinv Hstop.
  destruct (lowPriorityTasks_sigint_stop e1 (card e1 s) Hdue Hcool Hsig Hinv
              Hstop)
    as (Lpe & Lh & Lb & Lt).
  destruct (lowPriorityTasks_frame e1 (card e1 s)) as (Lo & Lq & Lp & Lr & _).
  destruct (lowPriorityTasks_data e1 (card e1 s)) as (_ & _ & _ & Li & _).
  destruct (loopIteration_push_disabled e1 (card e1 s) Hwf Hok Hq Hbreak Hlimit Lpe)
    as (s1 & Hturn & Hs1).
  destruct (card_members e1 s) as (Cc & Cp & Cr & Ct & Cq).
  apply control_eq in Cc. destruct Cc as (Co & Ci & _).
  unfold queueSize in Lt. rewrite Cq, Ct in Lt. fold (queueSize s) in Lt.
  rewrite Co in Lo. rewrite Cq in Lq. rewrite Cp in Lp. rewrite Cr in Lr.
  rewrite Ci in Li. rewrite Cq in Hs1.
  rewrite dmaLoop_unfold, Hturn. clear Hturn.
  set (L := lowPriorityTasks e1 (card e1 s)) in *. clearbody L.
  assert (Hs1' : exists t1,
             control s1 = control L
             /\ mPushCounter s1 = mPushCounter s
             /\ mReadoutCounter s <= mReadoutCounter s1 <= mReadoutCounter s + 1
             /\ trace s1 = trace L ++ t1
             /\ pushes t1 = []
             /\ (queueSize s = 0 -> s1 = L)).
  { destruct Hs1 as [->|(h & rest & c & ec & es & Hqueue & ->)].
    - exists []. split; [reflexivity|]. split; [exact Lp|]. split; [lia|].
      split; [rewrite app_nil_r; reflexivity|]. split; reflexivity.
    - destruct (afterReadout_members h rest c ec es L) as (Hc1 & Hp1 & Hr1 & Ht1).
      exists (readoutEvents h L). split; [exact Hc1|].
      split; [congruence|]. split; [lia|]. split; [exact Ht1|].
      split; [apply pushes_readoutEvents|].
      unfold queueSize. rewrite Hqueue. simpl. lia. }
  clear Hs1. destruct Hs1' as (t1 & Hc1 & Hp1 & Hr1 & Ht1 & Hpush1 & Hempty).
  apply control_eq in Hc1.
  destruct Hc1 as (Ho1 & Hi1 & Hb1 & Hh1 & _ & Hpe1 & _).
  rewrite Lb in Hb1. rewrite Lh in Hh1. rewrite Lpe in Hpe1.
  destruct (dmaLoop_break_exit e2 envs s1 Hb1)
    as (exit & s' & t2 & Hloop & Hc2 & Hp2 & Hr2 & Ht2 & Hpush2 & Hexit).
  apply control_eq in Hc2.
  destruct Hc2 as (_ & _ & Hb2 & Hh2 & _ & Hpe2 & _).
  exists exit, s', (t1 ++ t2).
  split; [exact Hloop|].
  split; [rewrite Ht2, Ht1, Lt, <- !app_assoc; reflexivity|].
  split; [rewrite pushes_app, Hpush1, Hpush2; reflexivity|].
  split; [congruence|]. split; [congruence|]. split; [congruence|].
  split; [congruence|]. split; [lia|].
  intros Hq0. rewrite (Hempty Hq0), Lo, Li, Lr in Hexit.
  destruct (Hexit Hlimit) as (-> & _).
  split; [reflexivity|]. rewrite Hr2, (Hempty Hq0). exact Lr.
Qed.

Lemma sigint_stops_loop_witness :
  exists s',
    dmaLoop [sigintEnv; sigintEnv] checkDue = Return ExitLoopBreak s'
    /\ mPushEnabled s' = false.
Proof.
  destruct (sigint_stops_loop sigintEnv sigintEnv [] checkDue)
    as (exit & s' & t & Hloop & _ & _ & Hpe & _ & _ & _ & _ & Hexit).
  - apply (readyProgram_wellFormed (plainOptions 0 false) []).
  - reflexivity.
  - vm_compute. discriminate.
  - vm_compute. discriminate.
  - reflexivity.
  - reflexivity.
  - reflexivity.
  - reflexivity.
  - intros H. vm_compute in H. discriminate.
  - left. reflexivity.
  - destruct Hexit as [-> _]; [reflexivity|].
    exists s'. split; assumption.
Defined.

(** ** The error log *)

Lemma errorLog_reportError eventNumber h i x y s :
  errorLog (reportError eventNumber h i x y s)
  = oneMoreError (mkErrorLine eventNumber (pageIndex h) i x y) (errorLog s).
Proof.
  unfold reportError, oneMoreError, errorLog. simpl.
  destruct (isVerbose (opts s) && (mErrorCount s + 1 <? MAX_RECORDED_ERRORS));
    reflexivity.
Qed.

Lemma checkErrors_log p h eventNumber counter s hasError s' :
  checkErrors p h eventNumber counter s = Return hasError s' ->
  logStep (errorLog s) (errorLog s').
Proof.
  intros Hret.
  destruct (checkErrors_effect _ _ _ _ _ _ _ Hret) as [Hp _].
  destruct (checkErrors_recognized p h eventNumber counter s Hp)
    as [H|(i & x & H)]; rewrite H in Hret; inversion Hret; subst.
  - left. reflexivity.
  - right. eexists. apply errorLog_reportError.
Qed.

Lemma errorLog_syncCounter h s : errorLog (syncCounter h s) = errorLog s.
Proof. destruct s. reflexivity. Qed.

Lemma errorLog_emit ev s : errorLog (emit ev s) = errorLog s.
Proof. destruct s. reflexivity. Qed.

Lemma errorLog_set_trace t s : errorLog (set_trace t s) = errorLog s.
Proof. destruct s. reflexivity. Qed.

Lemma dataErrorChecking_log h s s' :
  dataErrorChecking h s = Return tt s' ->
  logStep (errorLog s) (errorLog s').
Proof.
  unfold dataErrorChecking.
  rewrite bind_assoc, bind_get, bind_when_modify, bind_get, bind_modify.
  set (s1 := if mDataGeneratorCounter s =? -1 then syncCounter h s else s).
  assert (Hs1 : errorLog s1 = errorLog s).
  { unfold s1. destruct (mDataGeneratorCounter s =? -1);
      [apply errorLog_syncCounter | reflexivity]. }
  clearbody s1. intros Hret.
  apply bind_Return_inv in Hret. destruct Hret as (b & s2 & Hchk & Hret).
  apply checkErrors_log in Hchk. rewrite errorLog_emit, Hs1 in Hchk.
  rewrite when_modify in Hret. inversion Hret; subst s'.
  destruct (b && resyncCounter (opts s1));
    [rewrite errorLog_syncCounter|]; exact Hchk.
Qed.

Lemma errorLog_after_page h s :
  errorLog (countReadout (resetStatusEntry h (resetPage h s))) = errorLog s
  /\ mReadoutCounter (countReadout (resetStatusEntry h (resetPage h s)))
     = mReadoutCounter s + 1.
Proof. destruct s. split; reflexivity. Qed.

(** Reading out a page reports at most one error, and none when checking
    is off. *)
Lemma readoutPage_log h s s' :
  readoutPage h s = Return tt s' ->
  mReadoutCounter s' = mReadoutCounter s + 1
  /\ (errorLog s' = errorLog s
      \/ checkError (opts s) = true
         /\ exists line, errorLog s' = oneMoreError line (errorLog s)).
Proof.
  unfold readoutPage. intros Hret.
  rewrite bind_assoc, bind_get, bind_when_modify, printToFile_effect in Hret.
  rewrite bind_assoc, bind_get in Hret.
  set (s0 := set_trace (trace s ++ fileEvents h s) s) in *.
  assert (Hs0 : errorLog s0 = errorLog s /\ opts s0 = opts s
                /\ mReadoutCounter s0 = mReadoutCounter s)
    by (unfold s0; destruct s; repeat split).
  destruct Hs0 as (Hl0 & Ho0 & Hr0). clearbody s0. rewrite Ho0 in Hret.
  destruct (checkError (opts s)) eqn:Hce; simpl when in Hret.
  - apply bind_Return_inv in Hret. destruct Hret as ([] & s1 & Hchk & Hret).
    pose proof (dataErrorChecking_log h s0 s1 Hchk) as Hlog.
    apply dataErrorChecking_effect in Hchk.
    destruct Hchk as [_ (c & ec & es & Hs1)].
    assert (Hr1 : mReadoutCounter s1 = mReadoutCounter s0)
      by (rewrite Hs1; destruct s0; reflexivity).
    clear Hs1.
    rewrite !bind_modify in Hret. unfold modify in Hret.
    inversion Hret; subst s'.
    destruct (errorLog_after_page h s1) as [-> ->].
    split; [lia|]. rewrite Hl0 in Hlog.
    destruct Hlog as [Hlog|Hlog]; [left; exact Hlog | right].
    split; [reflexivity | exact Hlog].
  - rewrite bind_ret, !bind_modify in Hret. unfold modify in Hret.
    inversion Hret; subst s'.
    destruct (errorLog_after_page h s0) as [-> ->].
    split; [lia | left; exact Hl0].
Qed.

Lemma errorLog_after_readout ack s :
  errorLog (queuePop (if ack : bool then acknowledgePage s else s)) = errorLog s
  /\ mReadoutCounter (queuePop (if ack then acknowledgePage s else s))
     = mReadoutCounter s.
Proof.
  unfold queuePop, acknowledgePage.
  destruct ack, s as [? ? ? ? ? ? ? ? ? ? ? ? ? ? ? ? ? ? ? q ? ?];
    destruct q; split; reflexivity.
Qed.

Lemma readoutAndAcknowledge_log s s' h rest :
  mQueue s = h :: rest ->
  readoutAndAcknowledge s = Return tt s' ->
  mReadoutCounter s' = mReadoutCounter s + 1
  /\ (errorLog s' = errorLog s
      \/ checkError (opts s) = true
         /\ exists line, errorLog s' = oneMoreError line (errorLog s)).
Proof.
  intros Hq Hret. unfold readoutAndAcknowledge in Hret.
  rewrite bind_get, Hq in Hret.
  apply bind_Return_inv in Hret. destruct Hret as ([] & s1 & Hpage & Hret).
  apply readoutPage_log in Hpage. destruct Hpage as [Hr1 Hlog].
  rewrite bind_assoc, bind_get in Hret.
  assert (Hs' : exists ack, s' = queuePop (if ack : bool then acknowledgePage s1
                                           else s1)).
  { destruct (legacyAck (opts s1)).
    - rewrite bind_when_modify in Hret. unfold modify in Hret.
      inversion Hret. eexists. reflexivity.
    - rewrite !bind_modify in Hret. unfold modify in Hret.
      inversion Hret. exists true. reflexivity. }
  destruct Hs' as [ack ->].
  destruct (errorLog_after_readout ack s1) as [-> ->].
  split; [exact Hr1 | exact Hlog].
Qed.

Lemma errorLog_afterPush a s :
  errorLog (afterPush a s) = errorLog s
  /\ mReadoutCounter (afterPush a s) = mReadoutCounter s.
Proof. destruct s. split; reflexivity. Qed.

Lemma errorLog_card e s :
  errorLog (card e s) = errorLog s
  /\ mReadoutCounter (card e s) = mReadoutCounter s.
Proof. destruct s. split; reflexivity. Qed.

Lemma errorLog_lowPriorityTasks e s :
  errorLog (lowPriorityTasks e s) = errorLog s
  /\ mReadoutCounter (lowPriorityTasks e s) = mReadoutCounter s.
Proof.
  destruct (lowPriorityTasks_frame e s) as (Ho & _ & _ & Hr & _).
  destruct (lowPriorityTasks_data e s) as (_ & _ & _ & _ & Hc & Hs).
  unfold errorLog. rewrite Ho, Hc, Hs. split; [reflexivity | exact Hr].
Qed.

(** A step reads out no page and leaves the log alone, or reads out one page
    and reports at most one error. *)
Lemma step_log s s' :
  step s s' ->
  (errorLog s' = errorLog s /\ mReadoutCounter s' = mReadoutCounter s)
  \/ (mReadoutCounter s' = mReadoutCounter s + 1
      /\ (errorLog s' = errorLog s
          \/ checkError (opts s) = true
             /\ exists line, errorLog s' = oneMoreError line (errorLog s))).
Proof.
  intros Hstep. destruct Hstep as
    [s s' Hguard Hpush | n s | e s | e s | s s' Hguard Hread | s | s | s].
  - apply pushPage_effect in Hpush. destruct Hpush as (a & _ & ->).
    left. apply errorLog_afterPush.
  - left. destruct s. split; reflexivity.
  - left. apply errorLog_card.
  - left. apply errorLog_lowPriorityTasks.
  - apply readoutQueueHasPageAvailable_true in Hguard.
    destruct Hguard as (h & rest & Hq & _).
    right. eapply readoutAndAcknowledge_log; eauto.
  - left. destruct s. split; reflexivity.
  - left. destruct s. split; reflexivity.
  - left. destruct s. split; reflexivity.
Qed.

Lemma log_invariant_kept s s' :
  errorLog s' = errorLog s -> mReadoutCounter s <= mReadoutCounter s' ->
  ErrorLogInvariant s -> ErrorLogInvariant s'.
Proof.
  unfold errorLog. intros Hl Hr [Ic Il Iu]. inversion Hl as [[Ho Hc Hs]].
  constructor; rewrite ?Ho, ?Hc, ?Hs; [lia | exact Il | exact Iu].
Qed.

Lemma log_invariant_step s s' :
  ErrorLogInvariant s -> step s s' -> ErrorLogInvariant s'.
Proof.
  intros Inv Hstep.
  destruct (step_log s s' Hstep) as [[Hl Hr]|[Hr [Hl|(Hce & line & Hl)]]].
  - eapply log_invariant_kept; eauto. lia.
  - eapply log_invariant_kept; eauto. lia.
  - destruct Inv as [Ic Il Iu].
    unfold errorLog, oneMoreError in Hl. simpl in Hl.
    injection Hl as Ho Hc Hs.
    constructor; rewrite ?Ho, ?Hc, ?Hr.
    + lia.
    + rewrite Hs. unfold recordedErrors, MAX_RECORDED_ERRORS in *.
      destruct (isVerbose (opts s)); simpl.
      * destruct (Z.ltb_spec (mErrorCount s + 1) 1000);
          [rewrite length_app; simpl|]; lia.
      * exact Il.
    + intros H. rewrite Hce in H. discriminate.
Qed.

Lemma reachable_log s0 s :
  mReadoutCounter s0 = 0 -> mErrorCount s0 = 0 -> mErrorStream s0 = [] ->
  reachable s0 s -> ErrorLogInvariant s.
Proof.
  intros Hr Hc Hs Hreach. induction Hreach as [|s s' _ IH Hstep].
  - constructor; rewrite ?Hr, ?Hc, ?Hs.
    + lia.
    + unfold recordedErrors. destruct (isVerbose (opts s0)); reflexivity.
    + reflexivity.
  - eapply log_invariant_step; eauto.
Qed.

(** X13. In every state of a run that started with an empty error log, at
    most one error is counted per page read out, and none when checking is
    off; the error stream holds one line for each of the first 999 errors
    when the program is verbose and nothing otherwise, so that it never
    reaches [MAX_RECORDED_ERRORS] = 1000 lines; and the errors file written
    at the end of [runDma] is that stream. *)
Theorem error_log_is_bounded (s0 s : Program) :
  startOfRun s0 ->
  mErrorCount s0 = 0 ->
  mErrorStream s0 = [] ->
  reachable s0 s ->
  0 <= mErrorCount s <= mReadoutCounter s
  /\ Z.of_nat (length (mErrorStream s))
     = (if isVerbose (opts s0) then Z.min (mErrorCount s) 999 else 0)
  /\ Z.of_nat (length (mErrorStream s)) < MAX_RECORDED_ERRORS
  /\ (checkError (opts s0) = false -> mErrorCount s = 0)
  /\ (forall envs exit, runDma envs s0 = Return exit s ->
        exists t, trace s
                  = t ++ [EvErrorsFile (mErrorStream s);
                          EvSummary (mReadoutCounter s)
                            (if 0 <? mReadoutCounter s
                             then Some (mErrorCount s) else None)]).
Proof.
  intros Hstart Hc Hs Hreach.
  pose proof (inv_opts _ _ (reachable_invariant s0 s Hstart Hreach)) as Ho.
  destruct Hstart as (_ & _ & _ & Hr).
  destruct (reachable_log s0 s Hr Hc Hs Hreach) as [Ic Il Iu].
  rewrite Ho in Il, Iu. unfold recordedErrors, MAX_RECORDED_ERRORS in *.
  split; [exact Ic|]. split; [exact Il|].
  split; [destruct (isVerbose (opts s0)); lia|].
  split; [exact Iu|].
  intros envs exit Hret. unfold runDma, finishUp in Hret.
  apply bind_Return_inv in Hret. destruct Hret as ([] & s1 & _ & Hret).
  apply bind_Return_inv in Hret. destruct Hret as (x & s2 & _ & Hret).
  rewrite bind_assoc, !bind_modify in Hret. inversion Hret; subst.
  exists (trace s2). destruct s2. simpl. rewrite <- app_assoc. reflexivity.
Qed.

Lemma error_log_is_bounded_witness :
  0 <= mErrorCount (stateOf legacyRunOfFive)
  <= mReadoutCounter (stateOf legacyRunOfFive).
Proof.
  apply (error_log_is_bounded (readyProgram (plainOptions 5 true) [])
           (stateOf legacyRunOfFive)).
  - apply startOfRun_readyProgram.
  - reflexivity.
  - reflexivity.
  - apply (runDma_reachable _ (repeat (quietEnv [0; 1; 2; 3; 4]) 6)
             ExitPageLimit).
    vm_compute. reflexivity.
Defined.

(** ** Keeping the queue filled *)

Lemma shouldPushQueue_false s :
  shouldPushQueue s = false ->
  NUM_PAGES <= queueSize s
  \/ (mInfinitePages s = false /\ maxPages (opts s) <= mPushCounter s)
  \/ mPushEnabled s = false.
Proof.
  unfold shouldPushQueue. rewrite !andb_false_iff, orb_false_iff.
  intros [[H|[H1 H2]]|H].
  - left. lia.
  - right. left. split; [exact H1 | lia].
  - right. right. exact H.
Qed.

Lemma filled_nearlyFilled s : shouldPushQueue s = false -> nearlyFilled s.
Proof.
  intros H. apply shouldPushQueue_false in H. unfold nearlyFilled.
  destruct H as [H|[[H1 H2]|H]]; [left; lia | right; left; split; [assumption | lia]
                                 | right; right; assumption].
Qed.

Lemma afterPush_filling a s :
  queueSize s < NUM_PAGES ->
  queueSize (afterPush a s) = queueSize s + 1
  /\ mPushCounter (afterPush a s) = mPushCounter s + 1
  /\ control (afterPush a s) = control s
  /\ mLastFillSize (afterPush a s) = mLastFillSize s.
Proof.
  intros Hroom. unfold queueSize in *.
  assert (Hq : mQueue (afterPush a s)
               = queuePush (mkHandle (mDescriptorCounter s) (mPageIndexCounter s))
                   (mQueue s)) by (destruct s; reflexivity).
  rewrite Hq, queuePush_room by exact Hroom.
  rewrite length_app. simpl. split; [lia|]. destruct s. repeat split.
Qed.

(** One push fills a nearly filled queue. *)
Lemma afterPush_filled a s :
  nearlyFilled s -> shouldPushQueue s = true ->
  shouldPushQueue (afterPush a s) = false.
Proof.
  intros Hnear Hguard. apply shouldPushQueue_true in Hguard.
  destruct Hguard as (Hroom & _ & Hpe).
  destruct (afterPush_filling a s Hroom) as (Hq & Hp & Hc & _).
  apply control_eq in Hc. destruct Hc as (Ho & Hi & _ & _ & _ & Hpe' & _).
  unfold shouldPushQueue. rewrite Hq, Hp, Ho, Hi, Hpe'.
  destruct Hnear as [H|[[H1 H2]|H]].
  - destruct (Z.ltb_spec (queueSize s + 1) NUM_PAGES); [lia | reflexivity].
  - rewrite H1. simpl.
    destruct (Z.ltb_spec (mPushCounter s + 1) (maxPages (opts s))); [lia|].
    rewrite andb_false_r. reflexivity.
  - congruence.
Qed.

(** [fillReadoutQueue] on a nearly filled queue pushes one page at most. *)
Lemma fillReadoutQueue_nearlyFilled s s' :
  nearlyFilled s ->
  fillReadoutQueue s = Return tt s' ->
  shouldPushQueue s' = false
  /\ (s' = s
      \/ exists a, shouldPushQueue s = true
                   /\ s' = set_mLastFillSize 1 (afterPush a s)).
Proof.
  intros Hnear Hret. unfold fillReadoutQueue in Hret.
  apply bind_Return_inv in Hret. destruct Hret as (pushed & s1 & Hfill & Hret).
  rewrite fillLoop_unfold in Hfill.
  destruct (shouldPushQueue s) eqn:Hguard.
  - apply bind_Return_inv in Hfill. destruct Hfill as ([] & s2 & Hpush & Hfill).
    apply pushPage_effect in Hpush. destruct Hpush as (a & _ & ->).
    pose proof (afterPush_filled a s Hnear Hguard) as Hfilled.
    change (Z.to_nat NUM_PAGES) with (S (Z.to_nat (NUM_PAGES - 1))) in Hfill.
    rewrite fillLoop_unfold, Hfilled in Hfill. inversion Hfill; subst.
    rewrite when_modify in Hret. change (negb (0 + 1 =? 0)) with true in Hret.
    inversion Hret; subst.
    split; [|right; exists a; split; reflexivity].
    revert Hfilled. generalize (afterPush a s). intros s2 Hfilled.
    destruct s2. exact Hfilled.
  - inversion Hfill; subst. rewrite when_modify in Hret.
    change (negb (0 =? 0)) with false in Hret. inversion Hret; subst.
    split; [exact Hguard | left; reflexivity].
Qed.

(** What one turn of the loop does, read off a turn that returned. *)
Lemma loopIteration_inv e s r s' :
  loopIteration e s = Return r s' ->
  (r = Some ExitPageLimit /\ s' = emit (EvMessage MsgMaximumPagesReached) s
   /\ mInfinitePages s = false /\ maxPages (opts s) <= mReadoutCounter s)
  \/ (r = Some ExitLoopBreak /\ s' = s /\ mDmaLoopBreak s = true)
  \/ (r = None
      /\ exists s1,
           fillReadoutQueue (lowPriorityTasks e s) = Return tt s1
           /\ (s' = s1
               \/ exists h rest c ec es,
                    mQueue s1 = h :: rest
                    /\ s' = afterReadout h rest c ec es s1)).
Proof.
  unfold loopIteration. rewrite bind_get. intros Hret.
  destruct (negb (mInfinitePages s) && (maxPages (opts s) <=? mReadoutCounter s))
    eqn:Hlimit.
  { rewrite bind_modify in Hret. inversion Hret; subst. left.
    apply andb_true_iff in Hlimit. destruct Hlimit as [Hinf Hmax].
    split; [reflexivity|]. split; [reflexivity|].
    split; [destruct (mInfinitePages s); [discriminate | reflexivity] | lia]. }
  destruct (mDmaLoopBreak s) eqn:Hbreak.
  { inversion Hret; subst. right. left. repeat split; assumption. }
  rewrite bind_modify in Hret.
  apply bind_Return_inv in Hret. destruct Hret as ([] & s1 & Hfill & Hret).
  rewrite bind_assoc, bind_get in Hret.
  right. right.
  destruct (readoutQueueHasPageAvailable s1) eqn:Havail; simpl when in Hret.
  - apply bind_Return_inv in Hret. destruct Hret as ([] & s2 & Hread & Hret).
    inversion Hret; subst.
    apply readoutQueueHasPageAvailable_true in Havail.
    destruct Havail as (h & rest & Hq & _).
    destruct (readoutAndAcknowledge_effect s1 s' h rest Hq Hread)
      as [_ (c & ec & es & ->)].
    split; [reflexivity|]. exists s1. split; [exact Hfill|].
    right. exists h, rest, c, ec, es. split; [exact Hq | reflexivity].
  - inversion Hret; subst. split; [reflexivity|].
    exists s'. split; [exact Hfill | left; reflexivity].
Qed.

Lemma nearlyFilled_members s s' :
  queueSize s <= queueSize s' ->
  mInfinitePages s' = mInfinitePages s -> opts s' = opts s ->
  mPushCounter s' = mPushCounter s ->
  (mPushEnabled s = false -> mPushEnabled s' = false) ->
  nearlyFilled s -> nearlyFilled s'.
Proof.
  unfold nearlyFilled. intros Hq Hi Ho Hp Hpe [H|[[H1 H2]|H]].
  - left. lia.
  - right. left. rewrite Hi, Ho, Hp. split; assumption.
  - right. right. apply Hpe. exact H.
Qed.

Lemma afterReadout_filling h rest c ec es s :
  mQueue s = h :: rest ->
  queueSize (afterReadout h rest c ec es s) = queueSize s - 1
  /\ mLastFillSize (afterReadout h rest c ec es s) = mLastFillSize s.
Proof.
  intros Hq. unfold queueSize. rewrite Hq.
  replace (mQueue (afterReadout h rest c ec es s)) with rest
    by (destruct s; reflexivity).
  simpl length. split; [lia | destruct s; reflexivity].
Qed.

Lemma set_mLastFillSize_members v s :
  mPushCounter (set_mLastFillSize v s) = mPushCounter s
  /\ mLastFillSize (set_mLastFillSize v s) = v.
Proof. destruct s. split; reflexivity. Qed.

(** A turn of the loop that starts with a nearly filled queue pushes one
    page at most, and ends with a nearly filled queue. *)
Lemma loopIteration_nearlyFilled e s r s' :
  nearlyFilled s ->
  loopIteration e s = Return r s' ->
  nearlyFilled s'
  /\ mPushCounter s <= mPushCounter s' <= mPushCounter s + 1
  /\ (mLastFillSize s' = mLastFillSize s \/ mLastFillSize s' = 1).
Proof.
  intros Hnear Hret.
  destruct (loopIteration_inv e s r s' Hret)
    as [(_ & -> & _)|[(_ & -> & _)|(_ & s1 & Hfill & Hs')]].
  - split; [|split; [simpl; lia | left; reflexivity]].
    revert Hnear. apply nearlyFilled_members; try reflexivity; auto.
  - split; [exact Hnear|]. split; [lia | left; reflexivity].
  - destruct (lowPriorityTasks_frame e s) as (Lo & Lq & Lp & _).
    destruct (lowPriorityTasks_data e s) as (_ & _ & _ & Li & _).
    destruct (lowPriorityTasks_latches e s) as (Lpe & _).
    assert (Hl : mLastFillSize (lowPriorityTasks e s) = mLastFillSize s).
    { unfold lowPriorityTasks, breakLoop, startHandlingSigint, queueSize.
      destruct (mLowPriorityCounter s <? LOW_PRIORITY_INTERVAL); [reflexivity|].
      destruct (isMaxExceeded e); [reflexivity|].
      destruct (isSigInt e); [|reflexivity].
      cbv zeta. simpl. destruct (negb (mHandlingSigint s)); simpl;
        (destruct (Z.of_nat (length (mQueue s)) =? 0); [reflexivity|]);
        (destruct (HANDLING_SIGINT_TIMEOUT <? _); reflexivity). }
    assert (HnearL : nearlyFilled (lowPriorityTasks e s)).
    { revert Hnear. apply nearlyFilled_members; try assumption.
      unfold queueSize. rewrite Lq. lia. }
    set (L := lowPriorityTasks e s) in *. clearbody L.
    destruct (fillReadoutQueue_nearlyFilled L s1 HnearL Hfill) as [Hfilled Hs1].
    assert (H1 : mPushCounter s <= mPushCounter s1 <= mPushCounter s + 1
                 /\ (mLastFillSize s1 = mLastFillSize s \/ mLastFillSize s1 = 1)).
    { destruct Hs1 as [->|(a & Hguard & ->)].
      - split; [lia | left; exact Hl].
      - apply shouldPushQueue_true in Hguard. destruct Hguard as (Hroom & _).
        destruct (afterPush_filling a L Hroom) as (_ & Hp & _).
        destruct (set_mLastFillSize_members 1 (afterPush a L)) as (Hsp & Hsl).
        rewrite Hsp, Hsl, Hp. split; [lia | right; reflexivity]. }
    clear Hs1. destruct H1 as [Hp1 Hl1].
    destruct Hs' as [->|(h & rest & c & ec & es & Hq & ->)].
    + split; [apply filled_nearlyFilled; exact Hfilled|]. split; assumption.
    + destruct (afterReadout_members h rest c ec es s1) as (Hc & Hp & _).
      destruct (afterReadout_filling h rest c ec es s1 Hq) as (Hqs & Hlf).
      apply control_eq in Hc. destruct Hc as (Ho & Hi & _ & _ & _ & Hpe & _).
      rewrite Hp, Hlf. split; [|split; assumption].
      apply shouldPushQueue_false in Hfilled. unfold nearlyFilled.
      rewrite Hqs, Hi, Ho, Hp, Hpe.
      destruct Hfilled as [H|[[H1 H2]|H]];
        [left; lia | right; left; split; [assumption | lia]
        | right; right; assumption].
Qed.

Lemma dmaLoop_nearlyFilled envs :
  forall s exit s',
    nearlyFilled s ->
    dmaLoop envs s = Return exit s' ->
    nearlyFilled s'
    /\ (mLastFillSize s' = mLastFillSize s \/ mLastFillSize s' = 1).
Proof.
  induction envs as [|e envs IH]; intros s exit s' Hnear Hret; [discriminate|].
  rewrite dmaLoop_unfold in Hret.
  destruct (loopIteration e (card e s)) as [r s1|x s1|s1] eqn:Hturn;
    try discriminate.
  assert (HnearC : nearlyFilled (card e s)).
  { destruct (card_members e s) as (Cc & Cp & _ & _ & Cq).
    apply control_eq in Cc. destruct Cc as (Co & Ci & _ & _ & _ & Cpe & _).
    revert Hnear. apply nearlyFilled_members; try assumption.
    - unfold queueSize. rewrite Cq. lia.
    - intros H. rewrite Cpe. exact H. }
  assert (HlC : mLastFillSize (card e s) = mLastFillSize s)
    by (destruct s; reflexivity).
  destruct (loopIteration_nearlyFilled e (card e s) r s1 HnearC Hturn)
    as (Hnear1 & _ & Hl1).
  rewrite HlC in Hl1. clear Hturn HnearC HlC.
  destruct r as [x|].
  - inversion Hret; subst. split; assumption.
  - destruct (IH s1 exit s' Hnear1 Hret) as (Hnear' & Hl').
    split; [exact Hnear'|].
    destruct Hl' as [Hl'|Hl']; [rewrite Hl'; exact Hl1 | right; exact Hl'].
Qed.

(** X9. The loop keeps the queue filled one page at a time.  At the start
    of every turn at most one push is missing for [shouldPushQueue] to say
    no, so a turn pushes one page at most (it has read out one page at most
    since the queue was last filled).  Hence when [runDma] returns,
    [mLastFillSize] is 1, or it is what the fill in front of the loop left:
    it is never greater than 1 because of a fill inside the loop. *)
Theorem loop_pushes_one_page_per_turn (envs : list Env) (s0 : Program)
  (exit : LoopExit) (s' : Program) :
  runDma envs s0 = Return exit s' ->
  exists s1,
    fillReadoutQueue s0 = Return tt s1
    /\ shouldPushQueue s1 = false
    /\ (mLastFillSize s' = mLastFillSize s1 \/ mLastFillSize s' = 1)
    /\ (forall e s r s2,
          nearlyFilled s -> loopIteration e s = Return r s2 ->
          nearlyFilled s2
          /\ mPushCounter s <= mPushCounter s2 <= mPushCounter s + 1).
Proof.
  intros Hret. unfold runDma, finishUp in Hret.
  apply bind_Return_inv in Hret. destruct Hret as ([] & s1 & Hfill & Hret).
  apply bind_Return_inv in Hret. destruct Hret as (x & s2 & Hloop & Hret).
  rewrite bind_assoc, !bind_modify in Hret. inversion Hret; subst.
  destruct (fillReadoutQueue_reachable s0 s0 s1 Hfill (reach_start s0))
    as [_ Hfilled].
  destruct (dmaLoop_nearlyFilled envs s1 exit s2
              (filled_nearlyFilled s1 Hfilled) Hloop) as [_ Hl].
  exists s1. split; [exact Hfill|]. split; [exact Hfilled|].
  split.
  - replace (mLastFillSize (outputStats (outputErrors s2)))
      with (mLastFillSize s2) by (destruct s2; reflexivity).
    exact Hl.
  - intros e s r s3 Hnear Hturn.
    destruct (loopIteration_nearlyFilled e s r s3 Hnear Hturn) as (H1 & H2 & _).
    split; assumption.
Qed.

Lemma loop_pushes_one_page_per_turn_witness :
  mLastFillSize (stateOf legacyRunOfFive) = 5
  \/ mLastFillSize (stateOf legacyRunOfFive) = 1.
Proof.
  destruct (loop_pushes_one_page_per_turn (repeat (quietEnv [0; 1; 2; 3; 4]) 6)
              (readyProgram (plainOptions 5 true) []) ExitPageLimit
              (stateOf legacyRunOfFive))
    as (s1 & Hfill & _ & Hl & _).
  - vm_compute. reflexivity.
  - assert (Hs1 : mLastFillSize s1 = 5).
    { assert (E : Return tt s1
                  = fillReadoutQueue (readyProgram (plainOptions 5 true) []))
        by (symmetry; exact Hfill).
      vm_compute in E. inversion E. reflexivity. }
    rewrite Hs1 in Hl. exact Hl.
Defined.

(** ** From [run] into the loop *)

Lemma afterInitDma_members partition table s :
  control (afterInitDma partition table s)
  = (opts s, maxPages (opts s) <=? 0, mDmaLoopBreak s, mHandlingSigint s,
     mHandlingSigintStart s, mPushEnabled s, mLowPriorityCounter s)
  /\ mFifoAddress (afterInitDma partition table s) = partition.1
  /\ mPageAddresses (afterInitDma partition table s) = partition.2
  /\ statusEntries (afterInitDma partition table s)
     = resetStatusEntries (statusEntries s)
  /\ descriptorEntries (afterInitDma partition table s) = table
  /\ pageMemory (afterInitDma partition table s)
     = imap (fun i page => if decide (i < length partition.2)%nat
                           then resetPageWords page else page) (pageMemory s)
  /\ (mQueue (afterInitDma partition table s), trace (afterInitDma partition table s))
     = (mQueue s, trace s)
  /\ (mPushCounter (afterInitDma partition table s),
      mReadoutCounter (afterInitDma partition table s),
      mDescriptorCounter (afterInitDma partition table s),
      mPageIndexCounter (afterInitDma partition table s))
     = (mPushCounter s, mReadoutCounter s, mDescriptorCounter s,
        mPageIndexCounter s)
  /\ (mErrorCount (afterInitDma partition table s),
      mErrorStream (afterInitDma partition table s),
      mDataGeneratorCounter (afterInitDma partition table s))
     = (mErrorCount s, mErrorStream s, mDataGeneratorCounter s).
Proof. destruct s, partition. repeat split. Qed.

Lemma barCall_after l c s :
  barCall c (set_barCalls (barCalls s ++ l) s)
  = set_barCalls (barCalls s ++ l ++ [c]) s.
Proof. destruct s. unfold barCall. cbn. rewrite <- app_assoc. reflexivity. Qed.

Lemma opts_set_barCalls v s : opts (set_barCalls v s) = opts s.
Proof. destruct s. reflexivity. Qed.

(** [initCard] with an aligned FIFO returns, the registers written. *)
Lemma initCard_aligned s :
  checkAlignment (bus (mFifoAddress s)) DMA_ALIGNMENT = true ->
  initCard s = Return tt (afterInitCard s).
Proof.
  intros Haligned. unfold initCard. rewrite bind_get, Haligned.
  cbn [negb]. rewrite !bind_modify, bind_get, when_modify.
  unfold afterInitCard, initCardCalls.
  change (barCall (SetFifoBusAddress (bus (mFifoAddress s))) s)
    with (set_barCalls
            (barCalls s ++ [SetFifoBusAddress (bus (mFifoAddress s))]) s).
  do 3 rewrite barCall_after. rewrite opts_set_barCalls.
  destruct (checkError (opts s)); [rewrite barCall_after|]; reflexivity.
Qed.

(** What [initCard] leaves alone: everything but the registers. *)
Lemma afterInitCard_members partition table s :
  control (afterInitCard (afterInitDma partition table s))
  = control (afterInitDma partition table s)
  /\ mPageAddresses (afterInitCard (afterInitDma partition table s))
     = mPageAddresses (afterInitDma partition table s)
  /\ statusEntries (afterInitCard (afterInitDma partition table s))
     = statusEntries (afterInitDma partition table s)
  /\ descriptorEntries (afterInitCard (afterInitDma partition table s))
     = descriptorEntries (afterInitDma partition table s)
  /\ pageMemory (afterInitCard (afterInitDma partition table s))
     = pageMemory (afterInitDma partition table s)
  /\ (mQueue (afterInitCard (afterInitDma partition table s)),
      trace (afterInitCard (afterInitDma partition table s)))
     = (mQueue (afterInitDma partition table s),
        trace (afterInitDma partition table s))
  /\ (mPushCounter (afterInitCard (afterInitDma partition table s)),
      mReadoutCounter (afterInitCard (afterInitDma partition table s)),
      mDescriptorCounter (afterInitCard (afterInitDma partition table s)),
      mPageIndexCounter (afterInitCard (afterInitDma partition table s)))
     = (mPushCounter (afterInitDma partition table s),
        mReadoutCounter (afterInitDma partition table s),
        mDescriptorCounter (afterInitDma partition table s),
        mPageIndexCounter (afterInitDma partition table s))
  /\ (mErrorCount (afterInitCard (afterInitDma partition table s)),
      mErrorStream (afterInitCard (afterInitDma partition table s)),
      mDataGeneratorCounter (afterInitCard (afterInitDma partition table s)))
     = (mErrorCount (afterInitDma partition table s),
        mErrorStream (afterInitDma partition table s),
        mDataGeneratorCounter (afterInitDma partition table s)).
Proof.
  generalize (afterInitDma partition table s). intros s1.
  destruct s1. repeat split.
Qed.

(** [run] up to the loop: the alignment check of [initCard] decides. *)
Lemma run_initDma partition envs s :
  Z.of_nat (length (descriptorEntries s)) = NUM_PAGES ->
  fileOutputAscii (opts s) && fileOutputBin (opts s) = false ->
  NUM_PAGES < Z.of_nat (length partition.2) ->
  exists table,
    run partition envs s
    = (if checkAlignment (bus partition.1) DMA_ALIGNMENT
       then runDma envs (afterInitCard (afterInitDma partition table s))
       else Throw FifoNotAligned (afterInitDma partition table s))
    /\ Z.of_nat (length table) = NUM_PAGES
    /\ (forall d, 0 <= d < NUM_PAGES ->
          exists a,
            lookupZ d partition.2 = Some a
            /\ lookupZ d table = Some (safeDescriptor d (bus a))).
Proof.
  intros Htable Hfile Hmany. unfold run, initDma.
  rewrite bind_get, Hfile, bind_modify.
  set (s1 := set_mInfinitePages (maxPages (opts s) <=? 0) s).
  assert (Htable1 : Z.of_nat (length (descriptorEntries s1)) = NUM_PAGES)
    by (unfold s1; destruct s; exact Htable).
  destruct (initFifo_returns partition s1 Htable1 Hmany)
    as (table & Hinit & Hlen & Hslot).
  exists table. split; [|split; assumption].
  rewrite !bind_assoc, (bind_Return _ _ _ _ _ Hinit), bind_assoc, bind_modify.
  unfold s1. fold (afterInitDma partition table s).
  destruct (afterInitDma_members partition table s) as (_ & Hf & _).
  destruct (checkAlignment (bus partition.1) DMA_ALIGNMENT) eqn:Haligned.
  - rewrite <- Hf in Haligned.
    rewrite (bind_Return _ _ _ _ _ (initCard_aligned _ Haligned)).
    reflexivity.
  - unfold initCard. rewrite bind_assoc, bind_get, Hf, Haligned. reflexivity.
Qed.

Lemma statusIsPageArrived_reset d st :
  statusIsPageArrived d (resetStatusEntries st) = false.
Proof.
  unfold statusIsPageArrived, resetStatusEntries, lookupZ.
  destruct (0 <=? d); [|reflexivity].
  change (map (fun _ : bool => false) st) with ((fun _ : bool => false) <$> st).
  rewrite list_lookup_fmap. destruct (st !! Z.to_nat d); reflexivity.
Qed.

(** X14. From a program object as constructed, with the two file outputs
    not both asked for, more than [NUM_PAGES] pages in the buffer and the
    FIFO page aligned, [run] goes on as [runDma] from a program object that
    is what the properties of a run start from: nothing pushed or read out,
    the ring counters at 0, the page index inside the buffer, an empty error
    log, pushing enabled, no stop pending, [mInfinitePages] set exactly when
    [maxPages <= 0], every page of the buffer reset, no status entry marked
    arrived and a page address in every descriptor. *)
Theorem run_enters_the_loop_ready (o : Options) (status : list bool)
  (descriptors : list Descriptor) (mem : list PageBuffer)
  (partition : PageAddress * list PageAddress) (envs : list Env) :
  Z.of_nat (length descriptors) = NUM_PAGES ->
  fileOutputAscii o && fileOutputBin o = false ->
  NUM_PAGES < Z.of_nat (length partition.2) < 2 ^ 31 ->
  checkAlignment (bus partition.1) DMA_ALIGNMENT = true ->
  exists s1,
    run partition envs (newProgram o status descriptors mem) = runDma envs s1
    /\ ringsAtStart s1
    /\ wellFormed s1
    /\ control s1 = (o, maxPages o <=? 0, false, false, 0, true, 0)
    /\ mErrorCount s1 = 0 /\ mErrorStream s1 = []
    /\ mDataGeneratorCounter s1 = -1
    /\ mPageAddresses s1 = partition.2
    /\ (forall d, isPageArrived d s1 = false)
    /\ (forall d, 0 <= d < NUM_PAGES ->
          exists a,
            lookupZ d partition.2 = Some a
            /\ lookupZ d (descriptorEntries s1)
               = Some (safeDescriptor d (bus a)))
    /\ (forall i page,
          (i < length partition.2)%nat -> mem !! i = Some page ->
          pageMemory s1 !! i = Some (resetPageWords page)).
Proof.
  intros Htable Hfile Hpages Haligned.
  destruct (run_initDma partition envs (newProgram o status descriptors mem))
    as (table & Hrun & Hlen & Hslot); [exact Htable | exact Hfile | lia|].
  rewrite Haligned in Hrun.
  destruct (afterInitDma_members partition table
              (newProgram o status descriptors mem))
    as (Hc & _ & Ha & Hs & Hd & Hm & Hq & Hn & He).
  destruct (afterInitCard_members partition table
              (newProgram o status descriptors mem))
    as (Kc & Ka & Ks & Kd & Km & Kq & Kn & Ke).
  rewrite <- Kc in Hc. rewrite <- Ka in Ha. rewrite <- Ks in Hs.
  rewrite <- Kd in Hd. rewrite <- Km in Hm. rewrite <- Kq in Hq.
  rewrite <- Kn in Hn. rewrite <- Ke in He.
  clear Kc Ka Ks Kd Km Kq Kn Ke.
  set (s1 := afterInitCard
               (afterInitDma partition table
                  (newProgram o status descriptors mem))) in *.
  clearbody s1. simpl in Hc, Hs, Hm, Hq, Hn, He.
  injection Hq as Hq Ht. injection Hn as Hp Hr Hdc Hpc.
  injection He as Hec Hes Hdg.
  exists s1. split; [exact Hrun|].
  assert (Hcount : 0 < pageCount s1 < 2 ^ 31).
  { unfold pageCount. rewrite Ha. unfold NUM_PAGES, FIFO_ENTRIES,
      NUM_OF_BUFFERS in Hpages. lia. }
  split; [repeat split; first [assumption | apply Hcount]|].
  split.
  { unfold wellFormed. fold (pageCount s1). rewrite Hpc, Hdc.
    split; [exact Hcount|]. split; [lia | split; [lia | reflexivity]]. }
  split; [exact Hc|]. split; [exact Hec|]. split; [exact Hes|].
  split; [exact Hdg|]. split; [exact Ha|].
  split; [intros d; unfold isPageArrived; rewrite Hs;
          apply statusIsPageArrived_reset|].
  split; [rewrite Hd; exact Hslot|].
  intros i page Hi Hpage. rewrite Hm, list_lookup_imap, Hpage. simpl.
  destruct (decide (i < length partition.2)%nat); [reflexivity | lia].
Qed.

Lemma run_enters_the_loop_ready_witness :
  exists s1,
    run (fifoAddressOf, pageAddressesOf 130)
      (repeat (quietEnv [0; 1; 2; 3; 4]) 6) freshProgram
    = runDma (repeat (quietEnv [0; 1; 2; 3; 4]) 6) s1
    /\ ringsAtStart s1.
Proof.
  destruct (run_enters_the_loop_ready (plainOptions 5 false) (repeat false 128)
              (repeat (mkDescriptor 0 0 0) 128) []
              (fifoAddressOf, pageAddressesOf 130)
              (repeat (quietEnv [0; 1; 2; 3; 4]) 6))
    as (s1 & Hrun & Hstart & _).
  - reflexivity.
  - reflexivity.
  - vm_compute. split; reflexivity.
  - reflexivity.
  - exists s1. split; [exact Hrun | exact Hstart].
Defined.

(** X15. [run] reports what is wrong before the loop is entered, in the
    order of the checks: asking for both the ASCII and the binary file output
    is refused first, whatever the buffer is, and leaves the program object
    as it was; a FIFO page that is not aligned to [DMA_ALIGNMENT] = 32 bytes
    is refused after the buffer was partitioned and reset, so only when the
    options and the number of pages were accepted.  In both cases nothing has
    been pushed and no event of a run has happened. *)
Theorem run_refuses_before_the_loop
  (partition : PageAddress * list PageAddress) (envs : list Env)
  (s : Program) :
  Z.of_nat (length (descriptorEntries s)) = NUM_PAGES ->
  (fileOutputAscii (opts s) && fileOutputBin (opts s) = true ->
   run partition envs s = Throw FileOutputBothAsciiAndBinary s)
  /\ (fileOutputAscii (opts s) && fileOutputBin (opts s) = false ->
      NUM_PAGES < Z.of_nat (length partition.2) ->
      checkAlignment (bus partition.1) DMA_ALIGNMENT = false ->
      exists s',
        run partition envs s = Throw FifoNotAligned s'
        /\ mQueue s' = mQueue s
        /\ trace s' = trace s
        /\ mPushCounter s' = mPushCounter s
        /\ mPageAddresses s' = partition.2).
Proof.
  intros Htable. split.
  - intros Hboth. unfold run. rewrite bind_get, Hboth. reflexivity.
  - intros Hfile Hmany Hmis.
    destruct (run_initDma partition envs s Htable Hfile Hmany)
      as (table & Hrun & _).
    rewrite Hmis in Hrun.
    destruct (afterInitDma_members partition table s)
      as (_ & _ & Ha & _ & _ & _ & Hq & Hn & _).
    set (s' := afterInitDma partition table s) in *. clearbody s'.
    injection Hq as Hq Ht. injection Hn as Hp _ _ _.
    exists s'. split; [exact Hrun|]. repeat split; assumption.
Qed.

Lemma run_refuses_before_the_loop_witness :
  exists s',
    run misalignedPartition [] freshProgram = Throw FifoNotAligned s'
    /\ trace s' = [].
Proof.
  destruct (run_refuses_before_the_loop misalignedPartition [] freshProgram)
    as (_ & Hmis); [reflexivity|].
  destruct Hmis as (s' & Hrun & _ & Ht & _).
  - reflexivity.
  - vm_compute. reflexivity.
  - reflexivity.
  - exists s'. split; [exact Hrun | exact Ht].
Defined.

(** ** The data generator counter *)

(** What the validator leaves alone when it reports an error. *)
Lemma reportError_frame eventNumber h i x y s :
  opts (reportError eventNumber h i x y s) = opts s
  /\ pageMemory (reportError eventNumber h i x y s) = pageMemory s
  /\ mDataGeneratorCounter (reportError eventNumber h i x y s)
     = mDataGeneratorCounter s
  /\ mReadoutCounter (reportError eventNumber h i x y s) = mReadoutCounter s.
Proof.
  unfold reportError. simpl.
  destruct (isVerbose (opts s) && (mErrorCount s + 1 <? MAX_RECORDED_ERRORS));
    destruct s; repeat split.
Qed.

Lemma getPage_pageMemory h s s' :
  pageMemory s' = pageMemory s -> getPage h s' = getPage h s.
Proof. unfold getPage. intros ->. reflexivity. Qed.

(** [dataErrorChecking], in terms of the page and of the counter it is
    entered with. *)
Lemma dataErrorChecking_verdict h s :
  recognized (generatorPattern (opts s)) = true ->
  exists s',
    dataErrorChecking h s = Return tt s'
    /\ opts s' = opts s
    /\ pageMemory s' = pageMemory s
    /\ mReadoutCounter s' = mReadoutCounter s
    /\ mErrorCount s'
       = mErrorCount s
         + (if pagePasses (generatorPattern (opts s))
                 (wrap32 (if mDataGeneratorCounter s =? -1
                          then pageWord (getPage h s) 0
                          else mDataGeneratorCounter s))
                 (getPage h s)
            then 0 else 1)
    /\ mDataGeneratorCounter s'
       = (if negb (pagePasses (generatorPattern (opts s))
                     (wrap32 (if mDataGeneratorCounter s =? -1
                              then pageWord (getPage h s) 0
                              else mDataGeneratorCounter s))
                     (getPage h s))
             && resyncCounter (opts s)
          then pageWord (getPage h s) 0
          else if mDataGeneratorCounter s =? -1
               then pageWord (getPage h s) 0
               else mDataGeneratorCounter s).
Proof.
  intros Hrec. unfold dataErrorChecking.
  rewrite bind_assoc, bind_get, bind_when_modify, bind_get, bind_modify.
  set (c0 := if mDataGeneratorCounter s =? -1 then pageWord (getPage h s) 0
             else mDataGeneratorCounter s).
  set (s1 := if mDataGeneratorCounter s =? -1 then syncCounter h s else s).
  assert (H1 : opts s1 = opts s /\ pageMemory s1 = pageMemory s
               /\ mReadoutCounter s1 = mReadoutCounter s
               /\ mErrorCount s1 = mErrorCount s
               /\ mDataGeneratorCounter s1 = c0).
  { unfold s1, c0. destruct (mDataGeneratorCounter s =? -1);
      destruct s; repeat split. }
  clearbody s1 c0. destruct H1 as (Ho1 & Hm1 & Hr1 & He1 & Hc1).
  set (s2 := emit (EvCheckErrors (mReadoutCounter s1) h) s1).
  assert (H2 : opts s2 = opts s1 /\ pageMemory s2 = pageMemory s1
               /\ mReadoutCounter s2 = mReadoutCounter s1
               /\ mErrorCount s2 = mErrorCount s1
               /\ mDataGeneratorCounter s2 = mDataGeneratorCounter s1)
    by (unfold s2; destruct s1; repeat split).
  clearbody s2. destruct H2 as (Ho2 & Hm2 & Hr2 & He2 & Hc2).
  assert (Hpage : getPage h s2 = getPage h s)
    by (apply getPage_pageMemory; congruence).
  rewrite Ho1, Hc1.
  destruct (checkErrors_cases (generatorPattern (opts s)) h
              (mReadoutCounter s1) (wrap32 c0) s2 Hrec)
    as [[Hpass Hret]|(Hpass & k & _ & _ & _ & Hret)];
    rewrite Hpage in Hpass; rewrite Hpass;
    rewrite (bind_Return _ _ _ _ _ Hret), when_modify; simpl negb; simpl andb.
  - exists s2. split; [reflexivity|].
    split; [congruence|]. split; [congruence|]. split; [congruence|].
    split; [lia | congruence].
  - destruct (reportError_frame (mReadoutCounter s1) h (8 * k)
                (expectedWord (generatorPattern (opts s)) (wrap32 c0) (8 * k))
                (pageWord (getPage h s2) (8 * k)) s2)
      as (Ho3 & Hm3 & Hc3 & Hr3).
    pose proof (mErrorCount_reportError (mReadoutCounter s1) h (8 * k)
                  (expectedWord (generatorPattern (opts s)) (wrap32 c0) (8 * k))
                  (pageWord (getPage h s2) (8 * k)) s2) as He3.
    set (s3 := reportError (mReadoutCounter s1) h (8 * k)
                 (expectedWord (generatorPattern (opts s)) (wrap32 c0) (8 * k))
                 (pageWord (getPage h s2) (8 * k)) s2) in *.
    clearbody s3.
    assert (Hpage3 : getPage h s3 = getPage h s)
      by (apply getPage_pageMemory; congruence).
    destruct (resyncCounter (opts s)).
    + exists (syncCounter h s3). split; [reflexivity|].
      assert (H4 : opts (syncCounter h s3) = opts s3
                   /\ pageMemory (syncCounter h s3) = pageMemory s3
                   /\ mReadoutCounter (syncCounter h s3) = mReadoutCounter s3
                   /\ mErrorCount (syncCounter h s3) = mErrorCount s3
                   /\ mDataGeneratorCounter (syncCounter h s3)
                      = pageWord (getPage h s3) 0)
        by (destruct s3; repeat split).
      destruct H4 as (Ho4 & Hm4 & Hr4 & He4 & Hc4).
      split; [congruence|]. split; [congruence|]. split; [congruence|].
      split; [lia | congruence].
    + exists s3. split; [reflexivity|].
      split; [congruence|]. split; [congruence|]. split; [congruence|].
      split; [lia | congruence].
Qed.

(** X16. [readoutPage] with checking on, for a recognized pattern: the page
    is checked against the counter the program holds, or, on the first page
    of the run (counter -1), against the word the page itself starts with;
    one error is counted when the page does not pass; the counter goes on
    from the checked value, or with [resyncCounter] after a failed check from
    the first word of the page, plus 256 for the words of a page.  So after
    the first page the counter is the first word of that page plus 256
    whether the page passed or not. *)
Theorem readoutPage_checks_and_counts (h : Handle) (s : Program) :
  checkError (opts s) = true ->
  recognized (generatorPattern (opts s)) = true ->
  exists s',
    readoutPage h s = Return tt s'
    /\ mReadoutCounter s' = mReadoutCounter s + 1
    /\ mErrorCount s'
       = mErrorCount s
         + (if pagePasses (generatorPattern (opts s))
                 (wrap32 (if mDataGeneratorCounter s =? -1
                          then pageWord (getPage h s) 0
                          else mDataGeneratorCounter s))
                 (getPage h s)
            then 0 else 1)
    /\ mDataGeneratorCounter s'
       = (if negb (pagePasses (generatorPattern (opts s))
                     (wrap32 (if mDataGeneratorCounter s =? -1
                              then pageWord (getPage h s) 0
                              else mDataGeneratorCounter s))
                     (getPage h s))
             && resyncCounter (opts s)
          then pageWord (getPage h s) 0
          else if mDataGeneratorCounter s =? -1
               then pageWord (getPage h s) 0
               else mDataGeneratorCounter s)
         + 256
    /\ (mDataGeneratorCounter s = -1 ->
        mDataGeneratorCounter s' = pageWord (getPage h s) 0 + 256).
Proof.
  intros Hce Hrec. unfold readoutPage.
  rewrite bind_assoc, bind_get, bind_when_modify, printToFile_effect.
  rewrite bind_assoc, bind_get.
  set (s0 := set_trace (trace s ++ fileEvents h s) s).
  assert (H0 : opts s0 = opts s /\ pageMemory s0 = pageMemory s
               /\ mReadoutCounter s0 = mReadoutCounter s
               /\ mErrorCount s0 = mErrorCount s
               /\ mDataGeneratorCounter s0 = mDataGeneratorCounter s)
    by (unfold s0; destruct s; repeat split).
  clearbody s0. destruct H0 as (Ho0 & Hm0 & Hr0 & He0 & Hc0).
  assert (Hpage0 : getPage h s0 = getPage h s)
    by (apply getPage_pageMemory; exact Hm0).
  rewrite Ho0, Hce. simpl when.
  destruct (dataErrorChecking_verdict h s0) as (s1 & Hchk & Ho1 & Hm1 & Hr1 & He1 & Hc1);
    [rewrite Ho0; exact Hrec|].
  rewrite Ho0, Hc0, Hpage0, He0 in He1. rewrite Ho0, Hc0, Hpage0 in Hc1.
  rewrite (bind_Return _ _ _ _ _ Hchk), !bind_modify.
  exists (countReadout (resetStatusEntry h (resetPage h s1))).
  split; [reflexivity|].
  assert (H2 : mReadoutCounter (countReadout (resetStatusEntry h (resetPage h s1)))
               = mReadoutCounter s1 + 1
               /\ mErrorCount (countReadout (resetStatusEntry h (resetPage h s1)))
                  = mErrorCount s1
               /\ mDataGeneratorCounter
                    (countReadout (resetStatusEntry h (resetPage h s1)))
                  = mDataGeneratorCounter s1 + 256)
    by (destruct s1; repeat split).
  destruct H2 as (-> & -> & ->).
  split; [lia|]. split; [exact He1|]. split; [rewrite Hc1; reflexivity|].
  intros Hfirst. rewrite Hc1, Hfirst. change (-1 =? -1) with true. cbv iota.
  match goal with |- (if ?b then _ else _) + _ = _ => destruct b end;
    reflexivity.
Qed.

Lemma readoutPage_checks_and_counts_witness :
  exists s',
    readoutPage handle0 (checkingProgram true) = Return tt s'
    /\ mDataGeneratorCounter s' = 100 + 256.
Proof.
  destruct (readoutPage_checks_and_counts handle0 (checkingProgram true))
    as (s' & Hret & _ & _ & _ & Hfirst); [reflexivity | reflexivity |].
  exists s'. split; [exact Hret|]. rewrite Hfirst; reflexivity.
Defined.

(** ** Exceptions in a run *)

Lemma bind_Throw {A B} (m : M A) (f : A -> M B) s e s' :
  m s = Throw e s' -> bind m f s = Throw e s'.
Proof. intros H. unfold bind. rewrite H. reflexivity. Qed.

Lemma dmaLoop_returns_or_runs_on (envs : list Env) :
  forall s,
    wellFormed s -> validatorCanRun s = true -> queueSize s <= NUM_PAGES ->
    (exists exit s', dmaLoop envs s = Return exit s')
    \/ (exists s', dmaLoop envs s = OutOfFuel s').
Proof.
  induction envs as [|e envs IH]; intros s Hwf Hok Hq.
  - right. exists s. reflexivity.
  - rewrite dmaLoop_unfold.
    destruct (loopIteration_total e (card e s)) as (r & s1 & Hret & Hres);
      [exact Hwf | exact Hok | exact Hq |].
    rewrite Hret. destruct r as [x|]; [left; eauto|].
    destruct Hres as (_ & Hc & Hwf1 & Hq1 & _).
    apply control_eq in Hc. destruct Hc as (Ho & _).
    destruct (lowPriorityTasks_frame e (card e s)) as (Lo & _).
    apply IH; [exact Hwf1 | | exact Hq1].
    rewrite (validatorCanRun_opts s s1); [exact Hok|].
    rewrite Ho, Lo. destruct s; reflexivity.
Qed.

(** X17. A run throws no exception.  From a program object whose page index
    is inside the buffer, and whose validator is off or has a recognized
    pattern, [runDma] over any turns either returns or is still in its loop
    when the turns given are used up: neither [mPageAddresses.at] in
    [setDescriptor] nor [checkErrors] throws, and the loop of
    [fillReadoutQueue] always ends. *)
Theorem runDma_throws_nothing (envs : list Env) (s0 : Program) :
  wellFormed s0 ->
  validatorCanRun s0 = true ->
  queueSize s0 <= NUM_PAGES ->
  ((exists exit s', runDma envs s0 = Return exit s')
   \/ (exists s', runDma envs s0 = OutOfFuel s'))
  /\ (forall ex s', runDma envs s0 <> Throw ex s')
  /\ (forall e s,
        wellFormed s -> validatorCanRun s = true -> queueSize s <= NUM_PAGES ->
        exists r s', loopIteration e s = Return r s').
Proof.
  intros Hwf Hok Hq.
  assert (Hrun : (exists exit s', runDma envs s0 = Return exit s')
                 \/ (exists s', runDma envs s0 = OutOfFuel s')).
  { unfold runDma, finishUp.
    destruct (fillReadoutQueue_total s0 Hwf Hq) as (s1 & Hfill & Hf & _).
    destruct Hf as [Hwf1 Hc1 _ _ _ Hq1 _].
    apply control_eq in Hc1. destruct Hc1 as (Ho1 & _).
    rewrite (bind_Return _ _ _ _ _ Hfill).
    destruct (dmaLoop_returns_or_runs_on envs s1 Hwf1) as
      [(exit & s2 & Hloop)|(s2 & Hloop)];
      [rewrite (validatorCanRun_opts _ _ Ho1); exact Hok | exact Hq1 | |].
    - left. rewrite (bind_Return _ _ _ _ _ Hloop), bind_assoc, !bind_modify.
      eexists _, _. reflexivity.
    - right. exists s2. unfold bind. rewrite Hloop. reflexivity. }
  split; [exact Hrun|]. split.
  - intros ex s' Hthrow.
    destruct Hrun as [(exit & s2 & H)|(s2 & H)]; rewrite H in Hthrow;
      discriminate.
  - intros e s Hwfs Hoks Hqs.
    destruct (loopIteration_total e s Hwfs Hoks Hqs) as (r & s' & Hret & _).
    eauto.
Qed.

Lemma runDma_throws_nothing_witness :
  (exists exit s',
     runDma [hotEnv; hotEnv] (readyProgram (plainOptions 0 false) [])
     = Return exit s')
  \/ (exists s',
        runDma [hotEnv; hotEnv] (readyProgram (plainOptions 0 false) [])
        = OutOfFuel s').
Proof.
  apply (runDma_throws_nothing [hotEnv; hotEnv]
           (readyProgram (plainOptions 0 false) [])).
  - apply readyProgram_wellFormed.
  - reflexivity.
  - vm_compute. discriminate.
Defined.

(** [dataErrorChecking] with a pattern that [checkErrors] has no case for. *)
Lemma dataErrorChecking_unrecognized h s :
  recognized (generatorPattern (opts s)) = false ->
  exists s',
    dataErrorChecking h s
    = Throw (UnrecognizedGeneratorPattern (generatorPattern (opts s))) s'
    /\ trace s' = trace s ++ [EvCheckErrors (mReadoutCounter s) h]
    /\ mReadoutCounter s' = mReadoutCounter s
    /\ mQueue s' = mQueue s
    /\ pageMemory s' = pageMemory s
    /\ statusEntries s' = statusEntries s
    /\ mErrorCount s' = mErrorCount s.
Proof.
  intros Hrec. unfold dataErrorChecking.
  rewrite bind_assoc, bind_get, bind_when_modify, bind_get, bind_modify.
  set (s1 := if mDataGeneratorCounter s =? -1 then syncCounter h s else s).
  set (s2 := emit (EvCheckErrors (mReadoutCounter s1) h) s1).
  assert (H2 : opts s1 = opts s
               /\ trace s2 = trace s ++ [EvCheckErrors (mReadoutCounter s) h]
               /\ mReadoutCounter s2 = mReadoutCounter s
               /\ mQueue s2 = mQueue s
               /\ pageMemory s2 = pageMemory s
               /\ statusEntries s2 = statusEntries s
               /\ mErrorCount s2 = mErrorCount s).
  { unfold s2, s1. destruct (mDataGeneratorCounter s =? -1);
      destruct s; repeat split. }
  destruct H2 as (Ho1 & H2). rewrite Ho1.
  clearbody s2. exists s2. split; [|exact H2].
  apply bind_Throw.
  destruct (generatorPattern (opts s)); try discriminate; reflexivity.
Qed.

(** X18. With checking on and a pattern that is none of incremental,
    alternating and constant, the readout of a page ends in the exception of
    [checkErrors], and with it the turn of the loop that finds the page
    arrived: the exception leaves [readoutPage] before the page is reset,
    its status entry cleared or the readout counter incremented, and
    [readoutAndAcknowledge] before an acknowledgment is sent or the queue
    popped. *)
Theorem unrecognized_pattern_ends_the_run (s : Program) (h : Handle)
  (rest : list Handle) :
  mQueue s = h :: rest ->
  validatorCanRun s = false ->
  exists s',
    readoutAndAcknowledge s
    = Throw (UnrecognizedGeneratorPattern (generatorPattern (opts s))) s'
    /\ mReadoutCounter s' = mReadoutCounter s
    /\ mQueue s' = mQueue s
    /\ pageMemory s' = pageMemory s
    /\ statusEntries s' = statusEntries s
    /\ acks (trace s') = acks (trace s)
    /\ pops (trace s') = pops (trace s)
    /\ (forall e s0,
          negb (mInfinitePages s0) && (maxPages (opts s0) <=? mReadoutCounter s0)
          = false ->
          mDmaLoopBreak s0 = false ->
          fillReadoutQueue (lowPriorityTasks e s0) = Return tt s ->
          isPageArrived h s = true ->
          loopIteration e s0
          = Throw (UnrecognizedGeneratorPattern (generatorPattern (opts s))) s').
Proof.
  intros Hq Hbad. unfold validatorCanRun in Hbad.
  apply orb_false_iff in Hbad. destruct Hbad as [Hce Hrec].
  apply negb_false_iff in Hce.
  assert (Hread : exists s',
            readoutAndAcknowledge s
            = Throw (UnrecognizedGeneratorPattern (generatorPattern (opts s))) s'
            /\ mReadoutCounter s' = mReadoutCounter s
            /\ mQueue s' = mQueue s
            /\ pageMemory s' = pageMemory s
            /\ statusEntries s' = statusEntries s
            /\ acks (trace s') = acks (trace s)
            /\ pops (trace s') = pops (trace s)).
  { unfold readoutAndAcknowledge. rewrite bind_get, Hq.
    unfold readoutPage.
    rewrite !bind_assoc, bind_get, bind_when_modify, printToFile_effect.
    rewrite !bind_assoc, bind_get.
    set (s0 := set_trace (trace s ++ fileEvents h s) s).
    assert (H0 : opts s0 = opts s
                 /\ trace s0 = trace s ++ fileEvents h s
                 /\ mReadoutCounter s0 = mReadoutCounter s
                 /\ mQueue s0 = mQueue s
                 /\ pageMemory s0 = pageMemory s
                 /\ statusEntries s0 = statusEntries s)
      by (unfold s0; destruct s; repeat split).
    clearbody s0. destruct H0 as (Ho0 & Ht0 & Hr0 & Hq0 & Hm0 & Hs0).
    rewrite Ho0, Hce. simpl when.
    destruct (dataErrorChecking_unrecognized h s0) as
      (s' & Hthrow & Ht & Hr & Hq' & Hm & Hs & _); [rewrite Ho0; exact Hrec|].
    rewrite Ho0 in Hthrow.
    exists s'. split; [apply bind_Throw; exact Hthrow|].
    split; [congruence|]. split; [congruence|]. split; [congruence|].
    split; [congruence|].
    assert (Hfile : acks (fileEvents h s) = [] /\ pops (fileEvents h s) = []).
    { unfold fileEvents.
      destruct (fileOutputAscii (opts s)), (fileOutputBin (opts s));
        split; reflexivity. }
    destruct Hfile as [Hfa Hfp].
    rewrite Ht, Ht0, !acks_app, !pops_app, Hfa, Hfp. simpl.
    rewrite !app_nil_r. split; reflexivity. }
  destruct Hread as (s' & Hthrow & Hrest).
  exists s'. split; [exact Hthrow|].
  repeat (split; [apply Hrest|]).
  intros e s0 Hlimit Hbreak Hfill Harrived. unfold loopIteration.
  rewrite bind_get, Hlimit, Hbreak, bind_modify.
  rewrite (bind_Return _ _ _ _ _ Hfill), bind_assoc, bind_get.
  assert (Havail : readoutQueueHasPageAvailable s = true)
    by (unfold readoutQueueHasPageAvailable; rewrite Hq; exact Harrived).
  rewrite Havail. simpl when. apply bind_Throw. exact Hthrow.
Qed.

Lemma unrecognized_pattern_ends_the_run_witness :
  exists s',
    readoutAndAcknowledge randomPatternProgram
    = Throw (UnrecognizedGeneratorPattern Random) s'
    /\ mReadoutCounter s' = 0.
Proof.
  destruct (unrecognized_pattern_ends_the_run randomPatternProgram handle0 [])
    as (s' & Hthrow & Hr & _); [reflexivity | reflexivity |].
  exists s'. split; [exact Hthrow | exact Hr].
Defined.

(** ** A page limit within the ring *)

(** X19. A page-limited run whose limit [N] is no more than the 128 slots of
    the ring ends at the page limit: with no temperature alarm, no interrupt,
    and each of the descriptors 0 to [N - 1] reported arrived in some turn,
    [runDma] returns after finitely many turns, through the page limit test,
    with exactly [N] pages pushed, [N] read out, the queue empty, pushing
    still enabled and no stop requested. *)
Theorem page_limit_within_ring_drains (N : nat) (env : nat -> Env)
  (s0 : Program) :
  Z.of_nat N <= NUM_PAGES ->
  readyForRun (Z.of_nat N) s0 ->
  (forall i, isMaxExceeded (env i) = false /\ isSigInt (env i) = false) ->
  (forall d, (d < N)%nat -> exists j, In (Z.of_nat d) (hwArrived (env j))) ->
  exists n s',
    (forall rest,
       runDma (map env (seq 0 n) ++ rest) s0 = Return ExitPageLimit s')
    /\ mPushCounter s' = Z.of_nat N
    /\ mReadoutCounter s' = Z.of_nat N
    /\ pushes (trace s') = pops (trace s')
    /\ length (pops (trace s')) = N
    /\ mQueue s' = []
    /\ mDmaLoopBreak s' = false
    /\ mHandlingSigint s' = false
    /\ mPushEnabled s' = true.
Proof.
  intros Hfits Hready Hquiet Harrive.
  pose proof Hready as (Hstart & _ & _ & _ & Hmax & _ & _ & _ & Hval & _).
  destruct (drain_run N env s0) as (n & s' & Hrun & Hfinal); try assumption.
  destruct Hfinal as (Hr & Hp & Hq & Hb & Hs & He).
  exists n, (outputStats (outputErrors s')).
  split; [exact Hrun|].
  pose proof (reachable_invariant s0 _ Hstart
                (runDma_reachable s0 _ _ _ (Hrun []))) as Inv.
  pose proof (inv_fifo _ _ Inv) as Hfifo.
  pose proof (inv_popped _ _ Inv) as Hpopped.
  assert (Hm : mPushCounter (outputStats (outputErrors s')) = mPushCounter s'
               /\ mReadoutCounter (outputStats (outputErrors s'))
                  = mReadoutCounter s'
               /\ mQueue (outputStats (outputErrors s')) = mQueue s'
               /\ mDmaLoopBreak (outputStats (outputErrors s'))
                  = mDmaLoopBreak s'
               /\ mHandlingSigint (outputStats (outputErrors s'))
                  = mHandlingSigint s'
               /\ mPushEnabled (outputStats (outputErrors s')) = mPushEnabled s')
    by (destruct s'; repeat split).
  destruct Hm as (Mp & Mr & Mq & Mb & Mh & Me).
  set (s2 := outputStats (outputErrors s')) in *. clearbody s2.
  rewrite Mq, Hq, app_nil_r in Hfifo. rewrite Mr, Hr in Hpopped.
  split; [congruence|]. split; [congruence|]. split; [exact Hfifo|].
  split; [lia|]. split; [congruence|]. split; [congruence|].
  split; congruence.
Qed.

Lemma page_limit_within_ring_drains_witness :
  exists n s',
    runDma (map threeArriveEnv (seq 0 n)) (readyProgram (plainOptions 3 false) [])
    = Return ExitPageLimit s'
    /\ mReadoutCounter s' = 3.
Proof.
  destruct (page_limit_within_ring_drains 3 threeArriveEnv
              (readyProgram (plainOptions 3 false) []))
    as (n & s' & Hrun & _ & Hr & _).
  - vm_compute. discriminate.
  - split; [apply startOfRun_readyProgram|].
    split; [apply readyProgram_wellFormed|].
    repeat split; reflexivity.
  - intros i. split; reflexivity.
  - intros d Hd. exists 0%nat. simpl.
    destruct d as [|[|[|d]]]; [left | right; left | right; right; left | lia];
      reflexivity.
  - exists n, s'. split; [|exact Hr].
    rewrite <- (app_nil_r (map threeArriveEnv (seq 0 n))). apply Hrun.
Defined.

(** ** The ways out of the loop *)

(** The turn in which the loop is left. *)
Lemma dmaLoop_exit s0 envs :
  forall s exit s',
    reachable s0 s ->
    dmaLoop envs s = Return exit s' ->
    exists s1,
      reachable s0 s1
      /\ ((exit = ExitPageLimit
           /\ s' = emit (EvMessage MsgMaximumPagesReached) s1
           /\ mInfinitePages s1 = false
           /\ maxPages (opts s1) <= mReadoutCounter s1)
          \/ (exit = ExitLoopBreak /\ s' = s1 /\ mDmaLoopBreak s1 = true)).
Proof.
  induction envs as [|e envs IH]; intros s exit s' Hreach Hret; [discriminate|].
  rewrite dmaLoop_unfold in Hret.
  assert (Hcard : reachable s0 (card e s))
    by (eapply reach_step; [exact Hreach | apply step_card]).
  destruct (loopIteration e (card e s)) as [r s2|x s2|s2] eqn:Hturn;
    try discriminate.
  destruct (loopIteration_inv e (card e s) r s2 Hturn)
    as [(-> & -> & Hinf & Hmax)|[(-> & -> & Hbreak)|(-> & _)]].
  - inversion Hret; subst. exists (card e s). split; [exact Hcard|].
    left. repeat split; assumption.
  - inversion Hret; subst. exists (card e s). split; [exact Hcard|].
    right. repeat split; assumption.
  - apply (IH s2 exit s'); [|exact Hret].
    eapply loopIteration_reachable; eauto.
Qed.

(** X20. The two ways out of [runDma].  A run that was entered with
    [mInfinitePages] set as [run] sets it ends at the page limit only in
    page-limited mode, and then with exactly [maxPages] pages pushed and read
    out and the queue empty: the limit is met, never passed, and the summary
    reports [maxPages] pages.  Otherwise it ends through the loop break flag;
    a run with [maxPages <= 0] ends in no other way. *)
Theorem page_limit_is_exact (envs : list Env) (s0 : Program)
  (exit : LoopExit) (s' : Program) :
  startOfRun s0 ->
  mInfinitePages s0 = (maxPages (opts s0) <=? 0) ->
  runDma envs s0 = Return exit s' ->
  (exit = ExitPageLimit ->
   0 < maxPages (opts s0)
   /\ mReadoutCounter s' = maxPages (opts s0)
   /\ mPushCounter s' = maxPages (opts s0)
   /\ mQueue s' = []
   /\ exists t,
        trace s'
        = t ++ [EvMessage MsgMaximumPagesReached;
                EvErrorsFile (mErrorStream s');
                EvSummary (maxPages (opts s0)) (Some (mErrorCount s'))])
  /\ (exit = ExitLoopBreak -> mDmaLoopBreak s' = true)
  /\ (maxPages (opts s0) <= 0 -> exit = ExitLoopBreak).
Proof.
  intros Hstart Hmode Hret. unfold runDma, finishUp in Hret.
  apply bind_Return_inv in Hret. destruct Hret as ([] & s1 & Hfill & Hret).
  apply bind_Return_inv in Hret. destruct Hret as (x & s2 & Hloop & Hret).
  rewrite bind_assoc, !bind_modify in Hret. inversion Hret; subst x s'.
  clear Hret.
  destruct (fillReadoutQueue_reachable s0 s0 s1 Hfill (reach_start s0))
    as [Hreach1 _].
  destruct (dmaLoop_exit s0 envs s1 exit s2 Hreach1 Hloop)
    as (sx & Hreach & Hexit).
  destruct (reachable_invariant s0 sx Hstart Hreach) as [Io Ic If Ip Iq _].
  destruct (reachable_limit s0 sx Hstart Hreach) as [Hinf Hlimit].
  assert (Hsum : mPushCounter sx = mReadoutCounter sx + queueSize sx).
  { rewrite <- Ip, <- Iq, If, length_app. unfold queueSize. lia. }
  pose proof (queueSize_nonneg sx) as Hq0.
  assert (Hpage : exit = ExitPageLimit ->
            0 < maxPages (opts s0)
            /\ s2 = emit (EvMessage MsgMaximumPagesReached) sx
            /\ mReadoutCounter sx = maxPages (opts s0)
            /\ mPushCounter sx = maxPages (opts s0)
            /\ mQueue sx = []).
  { intros ->.
    destruct Hexit as [(_ & -> & Hfin & Hmax)|(H & _)]; [|discriminate].
    rewrite Hinf in Hfin. rewrite Hfin in Hmode. rewrite Io in Hmax.
    symmetry in Hmode. apply Z.leb_gt in Hmode.
    pose proof (Hlimit Hfin ltac:(lia)) as Hp.
    split; [exact Hmode|]. split; [reflexivity|].
    split; [lia|]. split; [lia|].
    assert (Hlen : queueSize sx = 0) by lia.
    unfold queueSize in Hlen. destruct (mQueue sx); [reflexivity|].
    simpl in Hlen. lia. }
  split; [|split].
  - intros Hx. destruct (Hpage Hx) as (Hmax & -> & Hr & Hp & Hq).
    assert (Hm : mReadoutCounter
                   (outputStats (outputErrors
                      (emit (EvMessage MsgMaximumPagesReached) sx)))
                 = mReadoutCounter sx
                 /\ mPushCounter
                      (outputStats (outputErrors
                         (emit (EvMessage MsgMaximumPagesReached) sx)))
                    = mPushCounter sx
                 /\ mQueue
                      (outputStats (outputErrors
                         (emit (EvMessage MsgMaximumPagesReached) sx)))
                    = mQueue sx
                 /\ mErrorStream
                      (outputStats (outputErrors
                         (emit (EvMessage MsgMaximumPagesReached) sx)))
                    = mErrorStream sx
                 /\ mErrorCount
                      (outputStats (outputErrors
                         (emit (EvMessage MsgMaximumPagesReached) sx)))
                    = mErrorCount sx
                 /\ trace
                      (outputStats (outputErrors
                         (emit (EvMessage MsgMaximumPagesReached) sx)))
                    = trace sx
                      ++ [EvMessage MsgMaximumPagesReached;
                          EvErrorsFile (mErrorStream sx);
                          EvSummary (mReadoutCounter sx)
                            (if 0 <? mReadoutCounter sx
                             then Some (mErrorCount sx) else None)]).
    { destruct sx. simpl. rewrite <- !app_assoc. repeat split. }
    destruct Hm as (Mr & Mp & Mq & Ms & Mc & Mt).
    rewrite Mr, Mp, Mq, Ms, Mc, Mt, Hr.
    split; [exact Hmax|]. split; [reflexivity|]. split; [exact Hp|].
    split; [exact Hq|]. exists (trace sx).
    destruct (Z.ltb_spec 0 (maxPages (opts s0))); [reflexivity | lia].
  - intros ->.
    destruct Hexit as [(H & _)|(_ & -> & Hbreak)]; [discriminate|].
    destruct sx. exact Hbreak.
  - intros Hmax. destruct exit; [|reflexivity].
    destruct (Hpage eq_refl) as (H & _). lia.
Qed.

Lemma page_limit_is_exact_witness :
  mReadoutCounter (stateOf legacyRunOfFive) = 5
  /\ mQueue (stateOf legacyRunOfFive) = [].
Proof.
  destruct (page_limit_is_exact (repeat (quietEnv [0; 1; 2; 3; 4]) 6)
              (readyProgram (plainOptions 5 true) []) ExitPageLimit
              (stateOf legacyRunOfFive)) as (Hpage & _).
  - apply startOfRun_readyProgram.
  - reflexivity.
  - vm_compute. reflexivity.
  - destruct (Hpage eq_refl) as (_ & Hr & _ & Hq & _).
    split; [exact Hr | exact Hq].
Defined.

(** ** The event size of a header *)

Lemma byteAt_range (data : list byte) (k : nat) :
  0 <= DataFormat.byteAt data k < 256.
Proof.
  unfold DataFormat.byteAt.
  pose proof (Byte.to_N_bounded (default x00 (data !! k))). lia.
Qed.

(** Bits that do not overlap add up. *)
Lemma lor_shiftl_add (a b n : Z) :
  0 <= n -> 0 <= a < 2 ^ n -> Z.lor a (Z.shiftl b n) = a + b * 2 ^ n.
Proof.
  intros Hn Ha.
  assert (Hland : Z.land a (Z.shiftl b n) = 0).
  { apply Z.bits_inj'. intros i Hi.
    rewrite Z.land_spec, Z.bits_0.
    destruct (Z.lt_ge_cases i n) as [Hlt|Hge].
    - rewrite Z.shiftl_spec_low by exact Hlt. apply andb_false_r.
    - rewrite <- (Z.mod_small a (2 ^ n)) by exact Ha.
      rewrite Z.mod_pow2_bits_high by lia. reflexivity. }
  rewrite <- Z.lxor_lor by exact Hland.
  rewrite <- Z.add_nocarry_lxor by exact Hland.
  rewrite Z.shiftl_mul_pow2 by exact Hn. reflexivity.
Qed.

(** [getWord] is the little-endian value of the four bytes. *)
Lemma getWord_sum (data : list byte) (i : nat) :
  DataFormat.getWord data i
  = DataFormat.byteAt data (4 * i + 0)
    + 2 ^ 8 * DataFormat.byteAt data (4 * i + 1)
    + 2 ^ 16 * DataFormat.byteAt data (4 * i + 2)
    + 2 ^ 24 * DataFormat.byteAt data (4 * i + 3).
Proof.
  unfold DataFormat.getWord.
  pose proof (byteAt_range data (4 * i + 0)) as H0.
  pose proof (byteAt_range data (4 * i + 1)) as H1.
  pose proof (byteAt_range data (4 * i + 2)) as H2.
  pose proof (byteAt_range data (4 * i + 3)) as H3.
  set (b0 := DataFormat.byteAt data (4 * i + 0)) in *.
  set (b1 := DataFormat.byteAt data (4 * i + 1)) in *.
  set (b2 := DataFormat.byteAt data (4 * i + 2)) in *.
  set (b3 := DataFormat.byteAt data (4 * i + 3)) in *.
  clearbody b0 b1 b2 b3.
  replace (Z.shiftl b3 24) with (Z.shiftl (Z.shiftl b3 8) 16)
    by (rewrite Z.shiftl_shiftl by lia; reflexivity).
  rewrite <- Z.shiftl_lor.
  rewrite (lor_shiftl_add b2 b3 8) by (change (2 ^ 8) with 256; lia).
  replace (Z.shiftl (b2 + b3 * 2 ^ 8) 16)
    with (Z.shiftl (Z.shiftl (b2 + b3 * 2 ^ 8) 8) 8)
    by (rewrite Z.shiftl_shiftl by lia; reflexivity).
  rewrite <- Z.shiftl_lor.
  rewrite (lor_shiftl_add b1 _ 8) by (change (2 ^ 8) with 256; lia).
  rewrite (lor_shiftl_add b0 _ 8) by (change (2 ^ 8) with 256; lia).
  lia.
Qed.

(** X21. [getEventSize] is the 16-bit little-endian number in bytes 10 and
    11 of the header, the upper half of word 2 (bits 80-95 of the header): it
    is below 2^16 and no other byte of the header has a part in it.
    [Utilities::getBits (w, 16, 31)] is read as the bits 16 to 31 of [w], as
    for the link id and the packet counter. *)
Theorem getEventSize_bytes_10_11 (data : list byte) :
  DataFormat.getEventSize data
  = DataFormat.byteAt data 10 + 256 * DataFormat.byteAt data 11
  /\ 0 <= DataFormat.getEventSize data < 2 ^ 16
  /\ 0 <= DataFormat.getWord data 2 < 2 ^ 32
  /\ (forall data' : list byte,
        data' !! 10%nat = data !! 10%nat ->
        data' !! 11%nat = data !! 11%nat ->
        DataFormat.getEventSize data' = DataFormat.getEventSize data).
Proof.
  assert (Hsize : forall d : list byte,
            DataFormat.getEventSize d
            = DataFormat.byteAt d 10 + 256 * DataFormat.byteAt d 11
            /\ 0 <= DataFormat.getWord d 2 < 2 ^ 32).
  { intros d. unfold DataFormat.getEventSize, Utilities.getBits, wrap32.
    rewrite getWord_sum. change (4 * 2 + 0)%nat with 8%nat.
    change (4 * 2 + 1)%nat with 9%nat. change (4 * 2 + 2)%nat with 10%nat.
    change (4 * 2 + 3)%nat with 11%nat.
    pose proof (byteAt_range d 8) as H0.
    pose proof (byteAt_range d 9) as H1.
    pose proof (byteAt_range d 10) as H2.
    pose proof (byteAt_range d 11) as H3.
    set (b0 := DataFormat.byteAt d 8) in *.
    set (b1 := DataFormat.byteAt d 9) in *.
    set (b2 := DataFormat.byteAt d 10) in *.
    set (b3 := DataFormat.byteAt d 11) in *.
    clearbody b0 b1 b2 b3.
    split; [|lia].
    rewrite Z.mod_small by lia.
    rewrite Z.shiftr_div_pow2 by lia.
    change (31 - 16 + 1) with 16. rewrite Z.land_ones by lia.
    replace (b0 + 2 ^ 8 * b1 + 2 ^ 16 * b2 + 2 ^ 24 * b3)
      with ((b0 + 2 ^ 8 * b1) + (b2 + 256 * b3) * 2 ^ 16) by lia.
    rewrite Z.div_add by lia. rewrite Z.div_small by lia.
    rewrite Z.mod_small by lia. lia. }
  destruct (Hsize data) as [Hd Hw].
  split; [exact Hd|]. split.
  { rewrite Hd. pose proof (byteAt_range data 10).
    pose proof (byteAt_range data 11). lia. }
  split; [exact Hw|].
  intros data' H10 H11. rewrite (proj1 (Hsize data')), Hd.
  unfold DataFormat.byteAt. rewrite H10, H11. reflexivity.
Qed.

(** ** The pages in the file *)

Lemma filed_app t u : filed (t ++ u) = filed t ++ filed u.
Proof. apply omap_app. Qed.
Lemma checked_app t u : checked (t ++ u) = checked t ++ checked u.
Proof. apply omap_app. Qed.

Lemma filed_messages msgs : filed (map EvMessage msgs) = [].
Proof. induction msgs; [reflexivity | exact IHmsgs]. Qed.
Lemma checked_messages msgs : checked (map EvMessage msgs) = [].
Proof. induction msgs; [reflexivity | exact IHmsgs]. Qed.

Lemma countingUp_succ n : 0 <= n -> countingUp (n + 1) = countingUp n ++ [n].
Proof.
  intros Hn. unfold countingUp.
  replace (Z.to_nat (n + 1)) with (S (Z.to_nat n)) by lia.
  rewrite seq_S, map_app. simpl. rewrite Z2Nat.id by exact Hn. reflexivity.
Qed.

Lemma filed_readoutEvents h s :
  filed (readoutEvents h s)
  = if fileOutputAscii (opts s) || fileOutputBin (opts s)
    then [(mReadoutCounter s, pageIndex h)] else [].
Proof.
  unfold readoutEvents, readoutPageEvents, fileEvents, checkEvents, ackEvents.
  destruct (fileOutputAscii (opts s)), (fileOutputBin (opts s)),
    (checkError (opts s)), (legacyAck (opts s)),
    (Z.rem (mReadoutCounter s + 1) 4 =? 0); reflexivity.
Qed.

Lemma checked_readoutEvents h s :
  checked (readoutEvents h s)
  = if checkError (opts s) then [mReadoutCounter s] else [].
Proof.
  unfold readoutEvents, readoutPageEvents, fileEvents, checkEvents, ackEvents.
  destruct (fileOutputAscii (opts s)), (fileOutputBin (opts s)),
    (checkError (opts s)), (legacyAck (opts s)),
    (Z.rem (mReadoutCounter s + 1) 4 =? 0); reflexivity.
Qed.

Lemma file_invariant_emit s ev :
  filedPage ev = None -> checkedEvent ev = None -> poppedHandle ev = None ->
  FileInvariant s -> FileInvariant (emit ev s).
Proof.
  intros H1 H2 H3 [Ic In Ip Ik].
  constructor; simpl; unfold filed, checked, pops in *;
    rewrite ?omap_app; simpl; rewrite ?H1, ?H2, ?H3, ?app_nil_r; assumption.
Qed.

Lemma file_invariant_step s s' :
  FileInvariant s -> step s s' -> FileInvariant s'.
Proof.
  intros Inv Hstep. destruct Hstep as
    [s s' Hguard Hpush | n s | e s | e s | s s' Hguard Hread | s | s | s].
  - destruct Inv as [Ic In Ip Ik].
    apply pushPage_effect in Hpush. destruct Hpush as (a & _ & ->).
    constructor; simpl; rewrite ?filed_app, ?checked_app, ?pops_app; simpl;
      rewrite ?app_nil_r; assumption.
  - destruct Inv. constructor; assumption.
  - destruct Inv. constructor; assumption.
  - destruct Inv as [Ic In Ip Ik].
    destruct (lowPriorityTasks_frame e s) as (Ho & _ & _ & Hr & msgs & Ht).
    constructor; rewrite ?Ho, ?Hr, ?Ht, ?filed_app, ?checked_app, ?pops_app,
      ?filed_messages, ?checked_messages, ?pops_messages, ?app_nil_r;
      assumption.
  - destruct Inv as [Ic In Ip Ik].
    apply readoutQueueHasPageAvailable_true in Hguard.
    destruct Hguard as (h & rest & Hq & _).
    destruct (readoutAndAcknowledge_effect s s' h rest Hq Hread)
      as [_ (c & ec & es & ->)].
    constructor; simpl;
      rewrite ?filed_app, ?checked_app, ?pops_app, ?filed_readoutEvents,
        ?checked_readoutEvents, ?pops_readoutEvents, ?map_app.
    + lia.
    + rewrite In.
      destruct (fileOutputAscii (opts s) || fileOutputBin (opts s));
        [rewrite countingUp_succ by exact Ic|]; reflexivity.
    + rewrite Ip.
      destruct (fileOutputAscii (opts s) || fileOutputBin (opts s));
        reflexivity.
    + rewrite Ik.
      destruct (checkError (opts s));
        [rewrite countingUp_succ by exact Ic|]; reflexivity.
  - apply file_invariant_emit; auto.
  - apply file_invariant_emit; auto.
  - apply file_invariant_emit; auto.
Qed.

Lemma reachable_file s0 s :
  startOfRun s0 -> reachable s0 s -> FileInvariant s.
Proof.
  intros Hstart Hreach. induction Hreach as [|s s' _ IH Hstep].
  - destruct Hstart as (_ & Ht & _ & Hr).
    constructor; rewrite ?Ht, ?Hr; simpl.
    + lia.
    + destruct (_ || _); reflexivity.
    + destruct (_ || _); reflexivity.
    + destruct (checkError (opts s0)); reflexivity.
  - eapply file_invariant_step; eauto.
Qed.

(** X22. In every state of a run with file output on, the pages written to
    the file are numbered 0, 1, 2, ... without a gap, one for each page read
    out, and they are the pages of the handles popped, in the order of the
    pushes; with file output off nothing is written.  In the same way the
    validator is called once for each page read out, with the event numbers
    0, 1, 2, ..., when checking is on, and never when it is off. *)
Theorem file_pages_are_numbered (s0 s : Program) :
  startOfRun s0 ->
  reachable s0 s ->
  map fst (filed (trace s))
  = (if fileOutputAscii (opts s0) || fileOutputBin (opts s0)
     then countingUp (mReadoutCounter s) else [])
  /\ map snd (filed (trace s))
     = (if fileOutputAscii (opts s0) || fileOutputBin (opts s0)
        then map pageIndex (pops (trace s)) else [])
  /\ checked (trace s)
     = (if checkError (opts s0) then countingUp (mReadoutCounter s) else [])
  /\ (fileOutputAscii (opts s0) || fileOutputBin (opts s0) = true ->
      Z.of_nat (length (filed (trace s))) = mReadoutCounter s).
Proof.
  intros Hstart Hreach.
  pose proof (inv_opts _ _ (reachable_invariant s0 s Hstart Hreach)) as Ho.
  destruct (reachable_file s0 s Hstart Hreach) as [Ic In Ip Ik].
  rewrite Ho in In, Ip, Ik.
  split; [exact In|]. split; [exact Ip|]. split; [exact Ik|].
  intros Hfile. rewrite Hfile in In.
  rewrite <- (length_map fst), In. unfold countingUp.
  rewrite length_map, length_seq. lia.
Qed.

Lemma file_pages_are_numbered_witness :
  map fst (filed (trace (stateOf binaryFileRun))) = [0]
  /\ checked (trace (stateOf binaryFileRun)) = [0].
Proof.
  destruct (file_pages_are_numbered (readyProgram binaryFileOptions [])
              (stateOf binaryFileRun)) as (Hn & _ & Hk & _).
  - apply startOfRun_readyProgram.
  - apply (runDma_reachable _ (repeat (quietEnv [0]) 2) ExitPageLimit).
    vm_compute. reflexivity.
  - split; [exact Hn | exact Hk].
Defined.

(** ** A page limit of any size *)

Lemma pushes_pushes (t : list Handle) : pushes (map EvPush t) = t.
Proof. induction t as [|h t IH]; [reflexivity|]. simpl. f_equal. exact IH. Qed.

Lemma pops_pushes (t : list Handle) : pops (map EvPush t) = [].
Proof. induction t as [|h t IH]; [reflexivity | exact IH]. Qed.

Lemma lowPriorityTasks_status e s :
  statusEntries (lowPriorityTasks e s) = statusEntries s.
Proof.
  unfold lowPriorityTasks, breakLoop, startHandlingSigint, queueSize.
  destruct (mLowPriorityCounter s <? LOW_PRIORITY_INTERVAL); [reflexivity|].
  destruct (isMaxExceeded e); [reflexivity|].
  destruct (isSigInt e); [|reflexivity].
  cbv zeta. simpl. destruct (negb (mHandlingSigint s)); simpl;
    (destruct (Z.of_nat (length (mQueue s)) =? 0); [reflexivity|]);
    (destruct (HANDLING_SIGINT_TIMEOUT <? _); reflexivity).
Qed.

Lemma shape_step s0 s s' : Shape s0 s -> step s s' -> Shape s0 s'.
Proof.
  intros [Hwf Hq Hs] Hstep. destruct Hstep as
    [s s' Hguard Hpush | n s | e s | e s | s s' Hguard Hread | s | s | s].
  - apply pushPage_effect in Hpush. destruct Hpush as (a & _ & ->).
    apply shouldPushQueue_true in Hguard. destruct Hguard as (Hroom & _).
    constructor.
    + apply afterPush_wellFormed. exact Hwf.
    + replace (mQueue (afterPush a s))
        with (queuePush (mkHandle (mDescriptorCounter s) (mPageIndexCounter s))
                (mQueue s)) by (destruct s; reflexivity).
      rewrite queuePush_room by exact Hroom.
      apply Forall_app. split; [exact Hq|].
      constructor; [|constructor]. apply Hwf.
    + rewrite <- Hs. destruct s. reflexivity.
  - constructor; [destruct s; exact Hwf | destruct s; exact Hq
                  | rewrite <- Hs; destruct s; reflexivity].
  - constructor; [destruct s; exact Hwf | destruct s; exact Hq|].
    rewrite <- Hs. apply card_status_length.
  - destruct (lowPriorityTasks_frame e s) as (_ & Lq & _).
    constructor; [apply lowPriorityTasks_wellFormed; exact Hwf
                 | rewrite Lq; exact Hq
                 | rewrite lowPriorityTasks_status; exact Hs].
  - apply readoutQueueHasPageAvailable_true in Hguard.
    destruct Hguard as (h & rest & Hqueue & _).
    destruct (readoutAndAcknowledge_effect s s' h rest Hqueue Hread)
      as [_ (c & ec & es & ->)].
    rewrite Hqueue in Hq. inversion Hq as [|h' rest' _ Hrest]; subst.
    constructor.
    + destruct s; exact Hwf.
    + replace (mQueue (afterReadout h rest c ec es s)) with rest
        by (destruct s; reflexivity).
      exact Hrest.
    + replace (statusEntries (afterReadout h rest c ec es s))
        with (statusReset (descriptorIndex h) (statusEntries s))
        by (destruct s; reflexivity).
      unfold statusReset. rewrite length_insertZ. exact Hs.
  - constructor; [destruct s; exact Hwf | destruct s; exact Hq
                  | rewrite <- Hs; destruct s; reflexivity].
  - constructor; [destruct s; exact Hwf | destruct s; exact Hq
                  | rewrite <- Hs; destruct s; reflexivity].
  - constructor; [destruct s; exact Hwf | destruct s; exact Hq
                  | rewrite <- Hs; destruct s; reflexivity].
Qed.

Lemma reachable_shape s0 s :
  wellFormed s0 -> mQueue s0 = [] -> reachable s0 s -> Shape s0 s.
Proof.
  intros Hwf Hq Hreach. induction Hreach as [|s s' _ IH Hstep].
  - constructor; [exact Hwf | rewrite Hq; constructor | reflexivity].
  - eapply shape_step; eauto.
Qed.

Section FairRun.

(** A run with page limit [N], of any size, that nothing asks to stop, and
    a card that reports every descriptor again and again. *)

Variable N : nat.
Variable env : nat -> Env.
Variable s0 : Program.

Hypothesis ready : readyForRun (Z.of_nat N) s0.
Hypothesis quiet :
  forall i, isMaxExceeded (env i) = false /\ isSigInt (env i) = false.
Hypothesis fair :
  forall i d, 0 <= d < NUM_PAGES ->
    exists j, (i <= j)%nat /\ In d (hwArrived (env j)).

Lemma reading_facts k s :
  Reading s0 k s ->
  opts s = opts s0
  /\ maxPages (opts s) = Z.of_nat N
  /\ validatorCanRun s = true
  /\ wellFormed s
  /\ queueSize s <= NUM_PAGES
  /\ Forall inRing (mQueue s)
  /\ Z.of_nat (length (statusEntries s)) = NUM_PAGES
  /\ mPushCounter s = mReadoutCounter s + queueSize s
  /\ pushes (trace s) = pops (trace s) ++ mQueue s.
Proof.
  intros R.
  destruct ready as (Hstart & Hwf & _ & _ & Hmax & _ & _ & _ & Hval & Hstatus).
  destruct (reachable_invariant s0 s Hstart (rd_reachable R))
    as [Io Ic If Ip Iq _].
  destruct (reachable_shape s0 s Hwf (proj1 Hstart) (rd_reachable R))
    as [Swf Sq Ss].
  split; [exact Io|]. split; [rewrite Io; exact Hmax|].
  split; [rewrite (validatorCanRun_opts s0 s Io); exact Hval|].
  split; [exact Swf|]. split; [exact Ic|]. split; [exact Sq|].
  split; [rewrite Ss; exact Hstatus|].
  split; [|exact If].
  rewrite <- Ip, <- Iq, If, length_app. unfold queueSize. lia.
Qed.

(** One turn: the queue is filled and is not empty; the page at its front
    is read out when it has arrived, and the turn ends there otherwise. *)
Lemma reading_turn k i s :
  Reading s0 k s ->
  (k < N)%nat ->
  exists h rest s1 s',
    mQueue s1 = h :: rest
    /\ (exists t, h :: rest = mQueue s ++ t)
    /\ Reading s0 k s1
    /\ statusEntries s1 = statusEntries (card (env i) s)
    /\ loopIteration (env i) (card (env i) s) = Return None s'
    /\ (if statusIsPageArrived (descriptorIndex h)
             (statusEntries (card (env i) s))
        then Reading s0 (S k) s' else s' = s1).
Proof.
  intros R Hk.
  destruct (quiet i) as [Hthermal Hsigint].
  (* the card *)
  destruct (card_members (env i) s) as (Cc & Cp & Cr & Ct & Cq).
  apply control_eq in Cc.
  destruct Cc as (Co & Ci & Cb & Ch & _ & Cpe & _).
  assert (Rc : Reading s0 k (card (env i) s)).
  { destruct R as [A1 A2 A3 A4 A5 A6].
    constructor; [eapply reach_step; [exact A1 | apply step_card]
                 | congruence ..]. }
  set (sc := card (env i) s) in *. clearbody sc.
  (* the low priority tasks *)
  pose proof (lowPriorityTasks_quiet (env i) sc Hthermal Hsigint) as HL.
  assert (RL : Reading s0 k (lowPriorityTasks (env i) sc)).
  { destruct Rc as [A1 A2 A3 A4 A5 A6].
    constructor;
      [eapply reach_step; [exact A1 | apply step_low_priority]
      | rewrite HL; destruct sc; assumption ..]. }
  assert (HLq : mQueue (lowPriorityTasks (env i) sc) = mQueue sc
                /\ statusEntries (lowPriorityTasks (env i) sc)
                   = statusEntries sc)
    by (rewrite HL; destruct sc; split; reflexivity).
  destruct HLq as [HLq HLs].
  remember (lowPriorityTasks (env i) sc) as L eqn:HeqL. clear HL.
  (* the queue is filled *)
  destruct (reading_facts k L RL)
    as (Lo & Lmax & Lval & Lwf & Lcap & _ & _ & _ & Lfifo).
  destruct (fillReadoutQueue_total L Lwf Lcap) as (s1 & Hfill & Hf & _).
  destruct Hf as [_ Hc1 Hr1 _ Hs1 _ [t Ht1]].
  apply control_eq in Hc1.
  destruct Hc1 as (Ho1 & Hi1 & Hb1 & Hh1 & _ & Hpe1 & _).
  destruct (fillReadoutQueue_reachable s0 L s1 Hfill (rd_reachable RL))
    as [Hreach1 Hfilled].
  assert (R1 : Reading s0 k s1).
  { destruct RL as [A1 A2 A3 A4 A5 A6].
    constructor; [exact Hreach1 | congruence ..]. }
  destruct (reading_facts k s1 R1)
    as (_ & Hmax1 & Hval1 & _ & _ & _ & _ & Hsum1 & Hfifo1).
  assert (Hqueue : mQueue s1 = mQueue s ++ t).
  { rewrite Ht1, pushes_app, pops_app, pushes_pushes, pops_pushes,
      app_nil_r, Lfifo, <- app_assoc in Hfifo1.
    apply app_inv_head in Hfifo1. rewrite <- Hfifo1, HLq, Cq. reflexivity. }
  assert (Hnonempty : 0 < queueSize s1).
  { apply shouldPushQueue_false in Hfilled.
    destruct Hfilled as [H|[[_ H]|H]].
    - unfold NUM_PAGES, FIFO_ENTRIES, NUM_OF_BUFFERS in H. lia.
    - rewrite (rd_readout R1) in Hsum1. lia.
    - rewrite (rd_push_enabled R1) in H. discriminate. }
  destruct (mQueue s1) as [|h rest] eqn:Hq1;
    [unfold queueSize in Hnonempty; rewrite Hq1 in Hnonempty;
     simpl in Hnonempty; lia|].
  exists h, rest, s1.
  (* the turn *)
  assert (Hturn : loopIteration (env i) sc
                  = (if isPageArrived h s1
                     then bind readoutAndAcknowledge (fun _ => ret None) s1
                     else Return None s1)).
  { unfold loopIteration. rewrite bind_get.
    rewrite (rd_finite Rc), (rd_no_break Rc), (rd_readout Rc).
    destruct (reading_facts k sc Rc) as (_ & -> & _).
    destruct (Z.leb_spec (Z.of_nat N) (Z.of_nat k)); [lia|].
    cbn [negb andb]. rewrite bind_modify, <- HeqL.
    rewrite (bind_Return _ _ _ _ _ Hfill), bind_assoc, bind_get.
    unfold readoutQueueHasPageAvailable. rewrite Hq1.
    destruct (isPageArrived h s1); reflexivity. }
  unfold isPageArrived in Hturn. rewrite Hs1, HLs in Hturn.
  rewrite Hturn.
  destruct (statusIsPageArrived (descriptorIndex h) (statusEntries sc))
    eqn:Harrived.
  - destruct (readoutAndAcknowledge_total s1 h rest Hq1 Hval1)
      as (c & ec & es & Hread).
    exists (afterReadout h rest c ec es s1).
    split; [exact Hq1|]. split; [exists t; exact Hqueue|].
    split; [exact R1|]. split; [congruence|].
    split; [rewrite (bind_Return _ _ _ _ _ Hread); reflexivity|].
    destruct (afterReadout_members h rest c ec es s1) as (Ac & _ & Ar & _).
    apply control_eq in Ac.
    destruct Ac as (_ & Ai & Ab & Ah & _ & Ape & _).
    destruct R1 as [A1 A2 A3 A4 A5 A6].
    constructor; [|rewrite Ar, A2; lia | congruence ..].
    eapply reach_step; [exact A1|].
    apply step_readout; [|exact Hread].
    unfold readoutQueueHasPageAvailable, isPageArrived.
    rewrite Hq1, Hs1, HLs. exact Harrived.
  - exists s1. split; [exact Hq1|]. split; [exists t; exact Hqueue|].
    split; [exact R1|]. split; [congruence|]. split; reflexivity.
Qed.

(** The page at the front arrives in turn [i + m] at the latest: the loop
    waits for it and reads it out. *)
Lemma reading_wait (k : nat) (h : Handle) :
  (k < N)%nat ->
  forall m i s rest,
    Reading s0 k s ->
    mQueue s = h :: rest ->
    statusIsPageArrived (descriptorIndex h) (statusEntries s) = true
    \/ In (descriptorIndex h) (hwArrived (env (i + m))) ->
    exists n s',
      (forall envs, dmaLoop (map env (seq i n) ++ envs) s = dmaLoop envs s')
      /\ Reading s0 (S k) s'.
Proof.
  intros Hk. induction m as [|m IH]; intros i s rest R Hq Harrives.
  - destruct (reading_turn k i s R Hk)
      as (h1 & rest1 & s1 & s' & Hq1 & (t & Hext) & R1 & Hs1 & Hturn & Hres).
    rewrite Hq in Hext. simpl in Hext. inversion Hext; subst h1.
    destruct (reading_facts k s R) as (_ & _ & _ & _ & _ & Hring & Hlen & _).
    rewrite Hq in Hring. inversion Hring as [|? ? Hh _]; subst.
    assert (Harrived : statusIsPageArrived (descriptorIndex h)
                         (statusEntries (card (env i) s)) = true).
    { destruct Harrives as [Hnow|Hin].
      - apply card_status_monotone. exact Hnow.
      - rewrite Nat.add_0_r in Hin.
        apply card_status_arrived; [unfold inRing in Hh; lia | exact Hin]. }
    rewrite Harrived in Hres.
    exists 1%nat, s'. split; [|exact Hres].
    intros envs. cbn [seq map app]. rewrite dmaLoop_unfold, Hturn. reflexivity.
  - destruct (reading_turn k i s R Hk)
      as (h1 & rest1 & s1 & s' & Hq1 & (t & Hext) & R1 & Hs1 & Hturn & Hres).
    rewrite Hq in Hext. simpl in Hext. inversion Hext; subst h1.
    destruct (statusIsPageArrived (descriptorIndex h)
                (statusEntries (card (env i) s))) eqn:Harrived.
    + exists 1%nat, s'. split; [|exact Hres].
      intros envs. cbn [seq map app]. rewrite dmaLoop_unfold, Hturn. reflexivity.
    + subst s'.
      destruct (IH (S i) s1 rest1 R1 Hq1) as (n & s' & Hloop & R').
      { right. replace (S i + m)%nat with (i + S m)%nat by lia.
        destruct Harrives as [Hnow|Hin]; [|exact Hin].
        apply (card_status_monotone (env i)) in Hnow.
        rewrite Hnow in Harrived. discriminate. }
      exists (S n), s'. split; [|exact R'].
      intros envs. cbn [seq map app].
      rewrite dmaLoop_unfold, Hturn. apply Hloop.
Qed.

(** With a page still to read out, the loop reads one out in finitely many
    turns. *)
Lemma reading_progress k i s :
  Reading s0 k s ->
  (k < N)%nat ->
  exists n s',
    (forall envs, dmaLoop (map env (seq i n) ++ envs) s = dmaLoop envs s')
    /\ Reading s0 (S k) s'.
Proof.
  intros R Hk.
  destruct (reading_turn k i s R Hk)
    as (h & rest & s1 & s' & Hq1 & _ & R1 & Hs1 & Hturn & Hres).
  destruct (statusIsPageArrived (descriptorIndex h)
              (statusEntries (card (env i) s))) eqn:Harrived.
  - exists 1%nat, s'. split; [|exact Hres].
    intros envs. cbn [seq map app]. rewrite dmaLoop_unfold, Hturn. reflexivity.
  - subst s'.
    destruct (reading_facts k s1 R1) as (_ & _ & _ & _ & _ & Hring & _).
    rewrite Hq1 in Hring. inversion Hring as [|? ? Hh _]; subst.
    destruct (fair (S i) (descriptorIndex h) Hh) as (j & Hj & Hin).
    destruct (reading_wait k h Hk (j - S i) (S i) s1 rest R1 Hq1)
      as (n & s' & Hloop & R').
    { right. replace (S i + (j - S i))%nat with j by lia. exact Hin. }
    exists (S n), s'. split; [|exact R'].
    intros envs. cbn [seq map app].
    rewrite dmaLoop_unfold, Hturn. apply Hloop.
Qed.

(** With all [N] pages read out, the next turn leaves the loop at the page
    limit test. *)
Lemma reading_exit i s :
  Reading s0 N s ->
  forall envs,
    dmaLoop (env i :: envs) s
    = Return ExitPageLimit
        (emit (EvMessage MsgMaximumPagesReached) (card (env i) s)).
Proof.
  intros R envs.
  destruct (reading_facts N s R) as (_ & Hmax & _).
  destruct (card_members (env i) s) as (Cc & _ & Cr & _).
  apply control_eq in Cc. destruct Cc as (Co & Ci & _).
  rewrite dmaLoop_unfold. unfold loopIteration. rewrite bind_get.
  rewrite Ci, Co, Cr, (rd_finite R), Hmax, (rd_readout R), Z.leb_refl.
  cbn [negb andb]. rewrite bind_modify. reflexivity.
Qed.

Lemma reading_finishes (r : nat) :
  forall k i s,
    (N - k = r)%nat ->
    (k <= N)%nat ->
    Reading s0 k s ->
    exists n s',
      (forall envs,
         dmaLoop (map env (seq i n) ++ envs) s
         = Return ExitPageLimit
             (emit (EvMessage MsgMaximumPagesReached) s'))
      /\ (exists s2 j, Reading s0 N s2 /\ s' = card (env j) s2).
Proof.
  induction r as [|r IH]; intros k i s Hr Hle R.
  - assert (k = N) as -> by lia.
    exists 1%nat, (card (env i) s). split.
    + intros envs. cbn [seq map app]. apply reading_exit. exact R.
    + exists s, i. split; [exact R | reflexivity].
  - destruct (reading_progress k i s R) as (n1 & s1 & Hloop1 & R1); [lia|].
    destruct (IH (S k) (i + n1)%nat s1) as (n2 & s' & Hloop2 & Hfinal);
      [lia | lia | exact R1 |].
    exists (n1 + n2)%nat, s'. split; [|exact Hfinal].
    intros envs. rewrite seq_app, map_app, <- app_assoc, Hloop1.
    apply Hloop2.
Qed.

Lemma fair_run :
  exists n s',
    (forall envs,
       runDma (map env (seq 0 n) ++ envs) s0 = Return ExitPageLimit s')
    /\ reachable s0 s'
    /\ mReadoutCounter s' = Z.of_nat N
    /\ mDmaLoopBreak s' = false
    /\ mHandlingSigint s' = false
    /\ mPushEnabled s' = true.
Proof.
  destruct ready as (Hstart & Hwf & _ & Hfin & _ & Hpe & Hbreak & Hsig & _).
  destruct (fillReadoutQueue_total s0 Hwf) as (s1 & Hfill & Hf & _).
  { destruct Hstart as (Hq & _). unfold queueSize. rewrite Hq.
    unfold NUM_PAGES, FIFO_ENTRIES, NUM_OF_BUFFERS. simpl. lia. }
  destruct Hf as [_ Hc1 Hr1 _ _ _ _].
  apply control_eq in Hc1.
  destruct Hc1 as (_ & Hi1 & Hb1 & Hh1 & _ & Hpe1 & _).
  destruct (fillReadoutQueue_reachable s0 s0 s1 Hfill (reach_start s0))
    as [Hreach1 _].
  assert (R1 : Reading s0 0 s1).
  { destruct Hstart as (_ & _ & _ & Hr0).
    constructor; [exact Hreach1 | rewrite Hr1; exact Hr0 | congruence ..]. }
  destruct (reading_finishes N 0 0 s1) as (n & sx & Hloop & s2 & j & R2 & ->);
    [lia | lia | exact R1 |].
  exists n.
  exists (outputStats (outputErrors
            (emit (EvMessage MsgMaximumPagesReached) (card (env j) s2)))).
  assert (Hrun : forall envs,
            runDma (map env (seq 0 n) ++ envs) s0
            = Return ExitPageLimit
                (outputStats (outputErrors
                   (emit (EvMessage MsgMaximumPagesReached)
                      (card (env j) s2))))).
  { intros envs. unfold runDma, finishUp.
    rewrite (bind_Return _ _ _ _ _ Hfill), (bind_Return _ _ _ _ _ (Hloop envs)).
    rewrite bind_assoc, !bind_modify. reflexivity. }
  split; [exact Hrun|].
  split; [apply (runDma_reachable s0 _ _ _ (Hrun []))|].
  destruct (reading_facts N s2 R2) as (Ho & _).
  destruct (card_members (env j) s2) as (Cc & _ & Cr & _).
  apply control_eq in Cc.
  destruct Cc as (Co & Ci & Cb & Ch & Chs & Cpe & Cl).
  assert (Hm : mReadoutCounter
                 (outputStats (outputErrors
                    (emit (EvMessage MsgMaximumPagesReached)
                       (card (env j) s2))))
               = mReadoutCounter (card (env j) s2)
               /\ control
                    (outputStats (outputErrors
                       (emit (EvMessage MsgMaximumPagesReached)
                          (card (env j) s2))))
                  = control (card (env j) s2)).
  { generalize (card (env j) s2). intros sx. destruct sx. split; reflexivity. }
  destruct Hm as (-> & Hcontrol).
  split; [rewrite Cr; exact (rd_readout R2)|].
  apply control_eq in Hcontrol.
  destruct Hcontrol as (_ & _ & -> & -> & _ & -> & _).
  rewrite Cb, Ch, Cpe.
  split; [exact (rd_no_break R2)|].
  split; [exact (rd_no_sigint R2) | exact (rd_push_enabled R2)].
Qed.

End FairRun.

(** X23. A page-limited run ends at its limit, whatever the limit is.  With
    any page limit [N], below or beyond the 128 slots of the ring, no
    temperature alarm, no interrupt, and a card that reports every
    descriptor arrived again and again, [runDma] returns after finitely many
    turns through the page limit test, with exactly [N] pages pushed and
    read out, in the order of the pushes, the queue empty, pushing still
    enabled and no stop requested. *)
Theorem page_limited_run_ends (N : nat) (env : nat -> Env) (s0 : Program) :
  readyForRun (Z.of_nat N) s0 ->
  (forall i, isMaxExceeded (env i) = false /\ isSigInt (env i) = false) ->
  (forall i d, 0 <= d < NUM_PAGES ->
     exists j, (i <= j)%nat /\ In d (hwArrived (env j))) ->
  exists n s',
    (forall envs,
       runDma (map env (seq 0 n) ++ envs) s0 = Return ExitPageLimit s')
    /\ mReadoutCounter s' = Z.of_nat N
    /\ mPushCounter s' = Z.of_nat N
    /\ mQueue s' = []
    /\ pushes (trace s') = pops (trace s')
    /\ length (pops (trace s')) = N
    /\ mDmaLoopBreak s' = false
    /\ mHandlingSigint s' = false
    /\ mPushEnabled s' = true.
Proof.
  intros Hready Hquiet Hfair.
  destruct (fair_run N env s0 Hready Hquiet Hfair)
    as (n & s' & Hrun & Hreach & Hr & Hb & Hh & Hpe).
  pose proof Hready as (Hstart & _ & _ & Hfin & Hmax & _).
  destruct (reachable_invariant s0 s' Hstart Hreach) as [_ _ If Ip Iq _].
  destruct (reachable_limit s0 s' Hstart Hreach) as [_ Hlimit].
  assert (Hsum : mPushCounter s' = mReadoutCounter s' + queueSize s').
  { rewrite <- Ip, <- Iq, If, length_app. unfold queueSize. lia. }
  pose proof (queueSize_nonneg s') as Hq0.
  pose proof (Hlimit Hfin ltac:(lia)) as Hp.
  assert (Hq : mQueue s' = []).
  { assert (Hlen : queueSize s' = 0) by lia.
    unfold queueSize in Hlen. destruct (mQueue s'); [reflexivity|].
    simpl in Hlen. lia. }
  exists n, s'. split; [exact Hrun|]. split; [exact Hr|].
  split; [lia|]. split; [exact Hq|].
  split; [rewrite If, Hq, app_nil_r; reflexivity|].
  split; [lia|]. split; [exact Hb|]. split; [exact Hh | exact Hpe].
Qed.

Lemma page_limited_run_ends_witness :
  exists n s',
    runDma (map everyDescriptorEnv (seq 0 n))
      (readyProgram (plainOptions 200 false) [])
    = Return ExitPageLimit s'
    /\ mReadoutCounter s' = 200.
Proof.
  destruct (page_limited_run_ends 200 everyDescriptorEnv
              (readyProgram (plainOptions 200 false) []))
    as (n & s' & Hrun & Hr & _).
  - split; [apply startOfRun_readyProgram|].
    split; [apply readyProgram_wellFormed|].
    repeat split; reflexivity.
  - intros i. split; reflexivity.
  - intros i d Hd. exists i. split; [lia|].
    apply in_map_iff. exists (Z.to_nat d). split; [lia|].
    apply in_seq. unfold NUM_PAGES, FIFO_ENTRIES, NUM_OF_BUFFERS in *. lia.
  - exists n, s'. split; [|exact Hr].
    rewrite <- (app_nil_r (map everyDescriptorEnv (seq 0 n))). apply Hrun.
Defined.
